(** * graphql_sync: throttle, retry and pagination, embedded in Rocq

    A shallow embedding of the C++ sources [throttle.cpp], [util.cpp],
    [mapping.cpp] and [pagination.cpp] of graphql_sync, with the
    properties of the design document stated and proved (or refuted)
    against it.

    Modelling conventions.
    - [nlohmann::json] values are the inductive [json]; an object is a
      finite map from keys to values ([std::map] in the library).
    - A C++ [double] is an IEEE 754 binary64 number, Rocq's primitive
      [float]: every addition, subtraction, product, quotient and
      comparison rounds and treats NaN and the infinities as the hardware
      does (round to nearest, ties to even).  [std::ceil] and the
      conversions between [double] and integers are written out on the
      sign, mantissa and exponent of the number.
    - A JSON number is an integer or a double, as nlohmann::json stores it;
      [get<double>()] converts the integer.
    - [int] values are [Z].  The subtraction and [std::min] of
      [fetchAllProducts] cannot overflow; a counter incremented past
      [INT_MAX] is undefined in C++ and outside the model.  The [int64_t]
      product of [computeBackoffMs] is written with its wrap-around.  A
      [double] outside the range of [int64_t] has no defined conversion in
      C++; the model gives it [INT64_MIN], as x86-64 does.
    - Output to [std::cerr], and with it the [mVerbose] flag, is left out.
    - C++ exceptions are the [Throw] outcome of a small state-and-exception
      monad; [try]/[catch] is [try_catch] with the handler's class test.
    - Blocking sleeps, transport calls and random draws are effects: the
      sleeps and calls are recorded in a trace, the transport and the random
      generator are an environment the driver is parameterised by. *)

From Stdlib Require Import ZArith QArith Qround Ascii String List Lia
  DecimalString Floats.
From stdpp Require Import base option gmap strings list.

Set Default Proof Using "Type".
#[local] Set Warnings "-register-all".
#[local] Set Warnings "-inexact-float".
#[local] Open Scope Z_scope.

(* ------------------------------------------------------------------ *)
(** ** Exceptions and outcomes *)

(** The exception classes the sources distinguish in their handlers:
    [std::runtime_error], [nlohmann::json::exception], and any other
    [std::exception]. *)
Inductive exn : Type :=
| RuntimeError (what : string)
| JsonException (what : string)
| OtherException (what : string).

Definition what (e : exn) : string :=
  match e with
  | RuntimeError w | JsonException w | OtherException w => w
  end.

Definition is_runtime_error (e : exn) : bool :=
  match e with RuntimeError _ => true | _ => false end.

Definition is_json_exception (e : exn) : bool :=
  match e with JsonException _ => true | _ => false end.

(** Every class above derives from [std::exception]. *)
Definition is_std_exception (e : exn) : bool := true.

Inductive outcome (A : Type) : Type :=
| Return (a : A)
| Throw (e : exn).
Arguments Return {A} a.
Arguments Throw {A} e.

Definition obind {A B} (o : outcome A) (k : A -> outcome B) : outcome B :=
  match o with
  | Return a => k a
  | Throw e => Throw e
  end.

(** Computations that mutate a state [S] and may throw; the state reached
    when the exception is thrown is kept, as in C++. *)
Definition M (S A : Type) : Type := S -> outcome A * S.

Definition ret {S A} (a : A) : M S A := fun s => (Return a, s).

Definition throw {S A} (e : exn) : M S A := fun s => (Throw e, s).

Definition bind {S A B} (m : M S A) (k : A -> M S B) : M S B :=
  fun s =>
    match m s with
    | (Return a, s') => k a s'
    | (Throw e, s') => (Throw e, s')
    end.

Definition modify {S} (f : S -> S) : M S unit := fun s => (Return tt, f s).

Definition gets {S A} (f : S -> A) : M S A := fun s => (Return (f s), s).

Definition lift {S A} (o : outcome A) : M S A := fun s => (o, s).

(** [try { m } catch (const C& e) { h e }] where [catches] tests class [C]. *)
Definition try_catch {S A} (m : M S A) (catches : exn -> bool)
    (h : exn -> M S A) : M S A :=
  fun s =>
    match m s with
    | (Throw e, s') => if catches e then h e s' else (Throw e, s')
    | r => r
    end.

Declare Scope prog_scope.
Delimit Scope prog_scope with prog.
Notation "x <- m ;; k" := (bind m (fun x => k))
  (at level 100, m at next level, right associativity) : prog_scope.
Notation "m ;;; k" := (bind m (fun _ => k))
  (at level 100, right associativity) : prog_scope.
Notation "x <~ o ;; k" := (obind o (fun x => k))
  (at level 100, o at next level, right associativity) : prog_scope.
#[local] Open Scope prog_scope.

(* ------------------------------------------------------------------ *)
(** ** Doubles *)

(** [static_cast<double>(z)] for an integer [z]: the nearest double, ties
    to even. *)
Definition of_Z (z : Z) : float :=
  SF2Prim (binary_normalize prec emax z 0 false).

(** The least integer not below [(-1)^s * m * 2^e], for [e < 0]. *)
Definition ceil_Z (s : bool) (m : positive) (e : Z) : Z :=
  let k := Z.pos m / 2 ^ (- e) in
  if s then - k
  else if Z.pos m mod 2 ^ (- e) =? 0 then k else k + 1.

(** [std::ceil]: a double with a non-negative exponent is an integer
    already; NaN, the infinities and the zeros are returned as they are;
    a negative number above -1 gives the negative zero. *)
Definition double_ceil (d : float) : float :=
  match Prim2SF d with
  | S754_finite s m e =>
      if 0 <=? e then d
      else
        let c := ceil_Z s m e in
        if c =? 0 then (-0)%float else of_Z c
  | _ => d
  end.

Definition int64_min : Z := - 2 ^ 63.

(** [static_cast<int64_t>(d)]: truncation toward zero.  Outside the range
    of [int64_t] (and for NaN and the infinities) the conversion is
    undefined in C++; the model gives [INT64_MIN], the result of the
    x86-64 conversion instruction. *)
Definition to_int64 (d : float) : Z :=
  match Prim2SF d with
  | S754_zero _ => 0
  | S754_finite s m e =>
      let mag := if 0 <=? e then Z.pos m * 2 ^ e else Z.pos m / 2 ^ (- e) in
      let z := if s then - mag else mag in
      if (int64_min <=? z) && (z <? 2 ^ 63) then z else int64_min
  | _ => int64_min
  end.

(** [d] converts to [int64_t] with defined behaviour. *)
Definition fits_int64 (d : float) : bool :=
  match Prim2SF d with
  | S754_zero _ => true
  | S754_finite s m e =>
      let mag := if 0 <=? e then Z.pos m * 2 ^ e else Z.pos m / 2 ^ (- e) in
      let z := if s then - mag else mag in
      (int64_min <=? z) && (z <? 2 ^ 63)
  | _ => false
  end.

(** The real number a finite double stands for (0 for NaN and the
    infinities, which stand for none). *)
Definition double_to_Q (d : float) : Q :=
  match Prim2SF d with
  | S754_finite s m e =>
      let mag := if 0 <=? e then inject_Z (Z.pos m * 2 ^ e)
                 else Qmake (Z.pos m) (Z.to_pos (2 ^ (- e))) in
      if s then Qopp mag else mag
  | _ => 0%Q
  end.

(** [std::max(a, b)] is [(a < b) ? b : a]. *)
Definition std_max (a b : float) : float := if (a <? b)%float then b else a.

(* ------------------------------------------------------------------ *)
(** ** JSON values *)

(** A JSON number as the library stores it: [number_integer] or
    [number_unsigned], or [number_float]. *)
Inductive number : Type :=
| NInt (z : Z)
| NFloat (d : float).

Inductive json : Type :=
| JNull
| JBool (b : bool)
| JNum (n : number)
| JStr (s : string)
| JArr (l : list json)
| JObj (m : gmap string json).

(** [j.contains(key)] followed by [j[key]]: [Some] exactly when [j] is an
    object holding [key]; [contains] is false on every non-object. *)
Definition json_find (j : json) (key : string) : option json :=
  match j with
  | JObj m => m !! key
  | _ => None
  end.

Definition contains (j : json) (key : string) : bool :=
  match json_find j key with Some _ => true | None => false end.

Definition is_null (j : json) : bool :=
  match j with JNull => true | _ => false end.

Definition is_number (j : json) : bool :=
  match j with JNum _ => true | _ => false end.

Definition is_object (j : json) : bool :=
  match j with JObj _ => true | _ => false end.

Definition type_error_302 : exn := JsonException "type_error.302".
Definition type_error_306 : exn := JsonException "type_error.306".

(** The double a JSON number converts to. *)
Definition number_to_double (n : number) : float :=
  match n with
  | NInt z => of_Z z
  | NFloat d => d
  end.

(** [j.get<double>()]: numbers convert, anything else is type_error 302. *)
Definition get_double (j : json) : outcome float :=
  match j with
  | JNum n => Return (number_to_double n)
  | _ => Throw type_error_302
  end.

(** [j.get<std::string>()]. *)
Definition get_string (j : json) : outcome string :=
  match j with
  | JStr s => Return s
  | _ => Throw type_error_302
  end.

(** [j.get<bool>()]. *)
Definition get_bool (j : json) : outcome bool :=
  match j with
  | JBool b => Return b
  | _ => Throw type_error_302
  end.

(** [j.value(key, default)]: type_error 306 unless [j] is an object; the
    default when the key is absent; otherwise the member converted with
    [conv], which throws on a member of another type. *)
Definition json_value {A} (conv : json -> outcome A) (j : json)
    (key : string) (default : A) : outcome A :=
  match j with
  | JObj m =>
      match m !! key with
      | Some v => conv v
      | None => Return default
      end
  | _ => Throw type_error_306
  end.

(** Object literals, as the tests write them. *)
Definition obj (kvs : list (string * json)) : json :=
  JObj (list_to_map kvs).

(* ------------------------------------------------------------------ *)
(** ** throttle.hpp / throttle.cpp *)

Record ThrottleController : Type := mkThrottle {
  mSafetyMargin : float;
  mLastRequestedCost : float;
  mMaximumAvailable : float;
  mCurrentlyAvailable : float;
  mRestoreRate : float;
  mTotalSleep : float;
  mTotalCost : float;
  mObservationCount : Z;
  mHasObserved : bool
}.

(** The constructor with the member initialisers of throttle.hpp. *)
Definition ThrottleController_new (safetyMargin : float)
    : ThrottleController :=
  {| mSafetyMargin := safetyMargin;
     mLastRequestedCost := 0;
     mMaximumAvailable := 1000;
     mCurrentlyAvailable := 1000;
     mRestoreRate := 50;
     mTotalSleep := 0;
     mTotalCost := 0;
     mObservationCount := 0;
     mHasObserved := false |}.

Definition set_mLastRequestedCost (v : float) (t : ThrottleController) :=
  mkThrottle (mSafetyMargin t) v (mMaximumAvailable t)
    (mCurrentlyAvailable t) (mRestoreRate t) (mTotalSleep t) (mTotalCost t)
    (mObservationCount t) (mHasObserved t).

Definition set_mMaximumAvailable (v : float) (t : ThrottleController) :=
  mkThrottle (mSafetyMargin t) (mLastRequestedCost t) v
    (mCurrentlyAvailable t) (mRestoreRate t) (mTotalSleep t) (mTotalCost t)
    (mObservationCount t) (mHasObserved t).

Definition set_mCurrentlyAvailable (v : float) (t : ThrottleController) :=
  mkThrottle (mSafetyMargin t) (mLastRequestedCost t) (mMaximumAvailable t)
    v (mRestoreRate t) (mTotalSleep t) (mTotalCost t)
    (mObservationCount t) (mHasObserved t).

Definition set_mRestoreRate (v : float) (t : ThrottleController) :=
  mkThrottle (mSafetyMargin t) (mLastRequestedCost t) (mMaximumAvailable t)
    (mCurrentlyAvailable t) v (mTotalSleep t) (mTotalCost t)
    (mObservationCount t) (mHasObserved t).

Definition set_mTotalSleep (v : float) (t : ThrottleController) :=
  mkThrottle (mSafetyMargin t) (mLastRequestedCost t) (mMaximumAvailable t)
    (mCurrentlyAvailable t) (mRestoreRate t) v (mTotalCost t)
    (mObservationCount t) (mHasObserved t).

(** [mTotalCost += mLastRequestedCost; ++mObservationCount;
     mHasObserved = true;] *)
Definition record_observation (t : ThrottleController) :=
  mkThrottle (mSafetyMargin t) (mLastRequestedCost t) (mMaximumAvailable t)
    (mCurrentlyAvailable t) (mRestoreRate t) (mTotalSleep t)
    (mTotalCost t + mLastRequestedCost t)%float
    (mObservationCount t + 1) true.

(** [if (parent.contains(key)) field = parent[key].get<double>();] *)
Definition read_double_into (parent : json) (key : string)
    (set : float -> ThrottleController -> ThrottleController)
    : M ThrottleController unit :=
  match json_find parent key with
  | Some v => d <- lift (get_double v) ;; modify (set d)
  | None => ret tt
  end.

(** The [if (cost.contains("throttleStatus"))] block: three guarded reads. *)
Definition read_throttleStatus (ts : json) : M ThrottleController unit :=
  read_double_into ts "maximumAvailable" set_mMaximumAvailable ;;;
  read_double_into ts "currentlyAvailable" set_mCurrentlyAvailable ;;;
  read_double_into ts "restoreRate" set_mRestoreRate.

(** The body of the [try] block of [observeResponse]. *)
Definition observeResponse_try (response : json) : M ThrottleController unit :=
  match json_find response "extensions" with
  | None => ret tt
  | Some extensions =>
      match json_find extensions "cost" with
      | None => ret tt
      | Some cost =>
          read_double_into cost "requestedQueryCost" set_mLastRequestedCost ;;;
          match json_find cost "throttleStatus" with
          | Some ts => read_throttleStatus ts
          | None => ret tt
          end ;;;
          modify record_observation
      end
  end.

(** [ThrottleController::observeResponse]: the handler only writes a
    warning to [std::cerr]. *)
Definition observeResponse (response : json) : M ThrottleController unit :=
  try_catch (observeResponse_try response) is_json_exception
    (fun _ => ret tt).

(** [ThrottleController::maybeSleepBeforeNextRequest].  The second
    component is the argument of the one [sleep_for] call, in
    milliseconds, or [None] when the function does not sleep. *)
Definition maybeSleepBeforeNextRequest (t : ThrottleController)
    : ThrottleController * option Z :=
  if negb (mHasObserved t) || (mRestoreRate t <=? 0)%float then (t, None)
  else
    let needed := (mLastRequestedCost t + mSafetyMargin t)%float in
    if (needed <=? mCurrentlyAvailable t)%float then (t, None)
    else
      let deficit := (needed - mCurrentlyAvailable t)%float in
      let sleepSeconds := double_ceil (deficit / mRestoreRate t)%float in
      let sleepSeconds := std_max 0 sleepSeconds in
      if (0 <? sleepSeconds)%float then
        (set_mTotalSleep (mTotalSleep t + sleepSeconds)%float t,
         Some (to_int64 (sleepSeconds * 1000)%float))
      else (t, None).

(** [ThrottleController::avgQueryCost]. *)
Definition avgQueryCost (t : ThrottleController) : float :=
  if mObservationCount t =? 0 then 0%float
  else (mTotalCost t / of_Z (mObservationCount t))%float.

Definition totalSleepSeconds (t : ThrottleController) : float :=
  mTotalSleep t.
Definition totalObservations (t : ThrottleController) : Z :=
  mObservationCount t.

(** Observing a whole sequence of responses, errors never escaping. *)
Definition observe_all (rs : list json) (t : ThrottleController)
    : ThrottleController :=
  fold_left (fun t r => snd (observeResponse r t)) rs t.

(** The response builder of test_throttle.cpp. *)
Definition makeThrottleResponse (requestedCost maxAvailable
    currentlyAvailable restoreRate : float) : json :=
  obj [("data", obj [("products", JNull)]);
       ("extensions", obj [("cost", obj [
          ("requestedQueryCost", JNum (NFloat requestedCost));
          ("throttleStatus", obj [
             ("maximumAvailable", JNum (NFloat maxAvailable));
             ("currentlyAvailable", JNum (NFloat currentlyAvailable));
             ("restoreRate", JNum (NFloat restoreRate))])])])].

(** The guard of [observeResponse]: the response carries an
    [extensions] member that carries a [cost] member. *)
Definition has_cost_extension (response : json) : bool :=
  match json_find response "extensions" with
  | Some extensions => contains extensions "cost"
  | None => false
  end.

(** [parent] holds [key], and the member is not a number: exactly when
    [parent[key].get<double>()] throws. *)
Definition wrong_type_number (parent : json) (key : string) : bool :=
  match json_find parent key with
  | Some v => negb (is_number v)
  | None => false
  end.

(** One of the four numeric subfields read by [observeResponse] is present
    with a non-numeric type. *)
Definition bad_number_subfield (response : json) : bool :=
  match json_find response "extensions" with
  | Some extensions =>
      match json_find extensions "cost" with
      | Some cost =>
          wrong_type_number cost "requestedQueryCost"
          || match json_find cost "throttleStatus" with
             | Some ts =>
                 wrong_type_number ts "maximumAvailable"
                 || wrong_type_number ts "currentlyAvailable"
                 || wrong_type_number ts "restoreRate"
             | None => false
             end
      | None => false
      end
  | None => false
  end.

(** The design document's "malformed or non-object cost data": an
    [extensions] or [cost] or [throttleStatus] member that is not an
    object, or a numeric subfield of another JSON type. *)
Definition malformed_cost_extension (response : json) : bool :=
  match json_find response "extensions" with
  | None => false
  | Some extensions =>
      negb (is_object extensions)
      || match json_find extensions "cost" with
         | None => false
         | Some cost =>
             negb (is_object cost)
             || wrong_type_number cost "requestedQueryCost"
             || match json_find cost "throttleStatus" with
                | None => false
                | Some ts =>
                    negb (is_object ts)
                    || wrong_type_number ts "maximumAvailable"
                    || wrong_type_number ts "currentlyAvailable"
                    || wrong_type_number ts "restoreRate"
                end
         end
  end.

(** The running aggregates and the two fields no response can touch. *)
Definition same_aggregates (t t' : ThrottleController) : Prop :=
  mTotalCost t' = mTotalCost t
  /\ mObservationCount t' = mObservationCount t
  /\ mHasObserved t' = mHasObserved t
  /\ mTotalSleep t' = mTotalSleep t
  /\ mSafetyMargin t' = mSafetyMargin t.

(** A field setter that leaves the aggregates alone. *)
Definition budget_setter
    (set : float -> ThrottleController -> ThrottleController)
    : Prop :=
  forall d t, same_aggregates t (set d t).

(** Every field of the throttle has the same value. *)
Definition throttle_unchanged (t t' : ThrottleController) : Prop :=
  mSafetyMargin t' = mSafetyMargin t
  /\ mLastRequestedCost t' = mLastRequestedCost t
  /\ mMaximumAvailable t' = mMaximumAvailable t
  /\ mCurrentlyAvailable t' = mCurrentlyAvailable t
  /\ mRestoreRate t' = mRestoreRate t
  /\ mTotalSleep t' = mTotalSleep t
  /\ mTotalCost t' = mTotalCost t
  /\ mObservationCount t' = mObservationCount t
  /\ mHasObserved t' = mHasObserved t.

(** A response whose [requestedQueryCost] is fine and whose
    [throttleStatus.restoreRate] is a string. *)
Definition response_bad_restoreRate : json :=
  obj [("data", JNull);
       ("extensions", obj [("cost", obj [
          ("requestedQueryCost", JNum (NInt 30));
          ("throttleStatus", obj [("restoreRate", JStr "fast")])])])].


(** A response whose [requestedQueryCost] is a string. *)
Definition response_bad_requestedQueryCost : json :=
  obj [("extensions", obj [("cost", obj [
          ("requestedQueryCost", JStr "thirty");
          ("throttleStatus", obj [("restoreRate", JNum (NInt 75))])])])].

(** A response whose [cost] object carries only a [throttleStatus]. *)
Definition response_only_throttleStatus : json :=
  obj [("extensions", obj [("cost", obj [
          ("throttleStatus", obj [("currentlyAvailable", JNum (NInt 40));
                                  ("restoreRate", JNum (NInt 75))])])])].

(** The malformed response of test_throttle.cpp. *)
Definition response_extensions_not_object : json :=
  obj [("data", JNull); ("extensions", JStr "not-an-object")].

(* ------------------------------------------------------------------ *)
(** ** util.hpp / util.cpp: [computeBackoffMs] *)

(** Two's-complement reduction to [int64_t]. *)
Definition wrap64 (z : Z) : Z := (z + 2 ^ 63) mod 2 ^ 64 - 2 ^ 63.

(** [computeBackoffMs(attempt, baseMs, maxMs)], in milliseconds.  [jitter]
    is the value drawn from [uniform_int_distribution<int64_t>(0, 100)].
    A shift count outside 0..63 is undefined in C++; the model gives it
    the wrapped mathematical shift. *)
Definition computeBackoffMs (attempt baseMs maxMs jitter : Z) : Z :=
  let backoff := wrap64 (baseMs * wrap64 (Z.shiftl 1 attempt)) in
  let backoff := Z.min backoff maxMs in
  wrap64 (backoff + jitter).

(** The default arguments of util.hpp. *)
Definition kBaseMs : Z := 200.
Definition kMaxMs : Z := 5000.

(** The deterministic part of the default backoff. *)
Definition backoff_floor (attempt : Z) : Z :=
  Z.min (kBaseMs * 2 ^ attempt) kMaxMs.

(* ------------------------------------------------------------------ *)
(** ** models.hpp, mapping.hpp / mapping.cpp *)

Record Product : Type := mkProduct {
  id : string;
  title : string;
  updatedAt : string
}.

Record PageResult : Type := mkPageResult {
  products : list Product;
  lastCursor : option string;
  hasNextPage : bool
}.

(** A default-constructed [PageResult]. *)
Definition PageResult_new : PageResult :=
  {| products := []; lastCursor := None; hasNextPage := false |}.

Definition parseProductNode (node : json) : outcome Product :=
  i <~ json_value get_string node "id" "" ;;
  t <~ json_value get_string node "title" "" ;;
  u <~ json_value get_string node "updatedAt" "" ;;
  Return (mkProduct i t u).

(** The body of the loop over [products["edges"]]. *)
Definition parse_edge (result : PageResult) (edge : json)
    : outcome PageResult :=
  result <~ match json_find edge "node" with
            | Some node =>
                p <~ parseProductNode node ;;
                Return (mkPageResult (products result ++ [p])
                          (lastCursor result) (hasNextPage result))
            | None => Return result
            end ;;
  match json_find edge "cursor" with
  | Some c =>
      s <~ get_string c ;;
      Return (mkPageResult (products result) (Some s) (hasNextPage result))
  | None => Return result
  end.

Fixpoint parse_edges (edges : list json) (result : PageResult)
    : outcome PageResult :=
  match edges with
  | [] => Return result
  | edge :: rest => r <~ parse_edge result edge ;; parse_edges rest r
  end.

(** The edge array the mapper iterates over, when there is one. *)
Definition edges_of (products_j : json) : list json :=
  match json_find products_j "edges" with
  | Some (JArr edges) => edges
  | _ => []
  end.

Definition parseProductsPage (responseBody : json) : outcome PageResult :=
  match json_find responseBody "data" with
  | None => Throw (RuntimeError "Response missing 'data' field")
  | Some data =>
      if is_null data then Return PageResult_new
      else
        match json_find data "products" with
        | None => Throw (RuntimeError "Response missing 'data.products' field")
        | Some products_j =>
            result <~ parse_edges (edges_of products_j) PageResult_new ;;
            match json_find products_j "pageInfo" with
            | Some pageInfo =>
                h <~ json_value get_bool pageInfo "hasNextPage" false ;;
                Return (mkPageResult (products result) (lastCursor result) h)
            | None => Return result
            end
        end
  end.

Fixpoint error_messages (errs : list json) : outcome (list string) :=
  match errs with
  | [] => Return []
  | err :: rest =>
      m <~ json_value get_string err "message" "Unknown GraphQL error" ;;
      ms <~ error_messages rest ;;
      Return (m :: ms)
  end.

Definition extractGraphqlErrors (responseBody : json)
    : outcome (list string) :=
  match json_find responseBody "errors" with
  | Some (JArr errs) => error_messages errs
  | _ => Return []
  end.

(** The edges of a response body that reaches the edge loop. *)
Definition response_edges (responseBody : json) : list json :=
  match json_find responseBody "data" with
  | Some data =>
      match json_find data "products" with
      | Some products_j => edges_of products_j
      | None => []
      end
  | None => []
  end.

(** The cursor an edge carries, when it is a string. *)
Definition edge_cursor (edge : json) : option string :=
  match json_find edge "cursor" with
  | Some (JStr s) => Some s
  | _ => None
  end.


(** What the edge loop leaves in [lastCursor]: the cursor of the last edge
    that carries one, whether or not that edge carries a node. *)
Definition last_edge_cursor (edges : list json) : option string :=
  match last (List.filter (fun e => contains e "cursor") edges) with
  | Some e => edge_cursor e
  | None => None
  end.


(* ------------------------------------------------------------------ *)
(** ** graphql_client.hpp, queries.hpp: the transport, as an environment *)

(** [GraphQLClient::Response]. *)
Record Response : Type := mkResponse {
  httpStatus : N;
  body : json
}.

(** What the driver needs from the outside world: [W] is everything a
    call of [GraphQLClient::execute] can read and change (server, network),
    and [execute] either returns a response or throws; [G] is the state of
    the thread-local random generator behind the jitter distribution of
    [computeBackoffMs], whose draws lie in 0..100. *)
Class Environment (W G : Type) : Type := {
  execute : string -> json -> M W Response;
  uniform_jitter : G -> Z * G;
  uniform_jitter_range : forall g, 0 <= fst (uniform_jitter g) <= 100
}.

Definition kProductsQuery : string := "
query FetchProducts($first: Int!, $after: String) {
  products(first: $first, after: $after) {
    edges {
      cursor
      node {
        id
        title
        updatedAt
      }
    }
    pageInfo {
      hasNextPage
    }
  }
}
".

(* ------------------------------------------------------------------ *)
(** ** pagination.hpp / pagination.cpp *)

(** [Paginator::Stats]; the last two fields carry a trailing underscore to
    keep them apart from the throttle's accessors of the same name. *)
Record Stats : Type := mkStats {
  totalFetched : Z;
  totalRequests : Z;
  totalRetries : Z;
  totalSleepSeconds_ : float;
  avgQueryCost_ : float
}.

Definition Stats_new : Stats := mkStats 0 0 0 0 0.

(** The observable effects, in the order they happen. *)
Inductive event : Type :=
| EvSleepMs (ms : Z)
| EvExecute (variables : json) (reply : outcome Response).

Definition kMaxAttempts : Z := 6.

Definition isRetryableStatus (status : N) : bool :=
  ((status =? 429) || (500 <=? status))%N.

(** [std::to_string] of an [unsigned int]. *)
Definition to_string (n : N) : string :=
  NilEmpty.string_of_uint (N.to_uint n).

(** [hay.find(needle) != std::string::npos]. *)
Fixpoint str_contains (needle hay : string) : bool :=
  String.prefix needle hay
  || match hay with
     | EmptyString => false
     | String _ rest => str_contains needle rest
     end.

(** The [variables] object of one page request. *)
Definition request_variables (fetchCount : Z) (cursor : option string)
    : json :=
  let variables : gmap string json :=
    <["first" := JNum (NInt fetchCount)]> ∅ in
  match cursor with
  | Some c => JObj (<["after" := JStr c]> variables)
  | None => JObj variables
  end.

(** The two locals of [fetchAllProducts] that live across iterations. *)
Record loop_state : Type := mkLoop {
  allProducts : list Product;
  cursor : option string
}.

(** How one iteration of the [while] loop ends. *)
Inductive control : Type :=
| Continue (st : loop_state)
| Break (st : loop_state).

(** How one iteration of the [for] loop of [executeWithRetry] ends. *)
Inductive attempt_result : Type :=
| Done (responseBody : json)
| Again.

Section Paginator.
Context {W G : Type} `{Environment W G}.

(** A [Paginator] with the objects its references reach: the client's
    world, the random generator, the throttle; and the trace of effects
    so far. *)
Record Paginator : Type := mkPaginator {
  mClient : W;
  rng : G;
  mThrottle : ThrottleController;
  mStats : Stats;
  trace : list event
}.

Definition Paginator_new (w : W) (g : G) (t : ThrottleController)
    : Paginator :=
  mkPaginator w g t Stats_new [].

Definition log (e : event) (p : Paginator) : Paginator :=
  mkPaginator (mClient p) (rng p) (mThrottle p) (mStats p) (trace p ++ [e]).

Definition set_mStats (s : Stats) (p : Paginator) : Paginator :=
  mkPaginator (mClient p) (rng p) (mThrottle p) s (trace p).

Definition incr_totalRetries (p : Paginator) : Paginator :=
  let s := mStats p in
  set_mStats (mkStats (totalFetched s) (totalRequests s)
                (totalRetries s + 1) (totalSleepSeconds_ s)
                (avgQueryCost_ s)) p.

Definition incr_totalRequests (p : Paginator) : Paginator :=
  let s := mStats p in
  set_mStats (mkStats (totalFetched s) (totalRequests s + 1)
                (totalRetries s) (totalSleepSeconds_ s)
                (avgQueryCost_ s)) p.

(** [std::this_thread::sleep_for(milliseconds(ms))]. *)
Definition sleep_for (ms : Z) : M Paginator unit :=
  modify (log (EvSleepMs ms)).

(** [mClient.execute(query, variables)]. *)
Definition client_execute (query : string) (variables : json)
    : M Paginator Response :=
  fun p =>
    let '(reply, w) := execute query variables (mClient p) in
    (reply,
     mkPaginator w (rng p) (mThrottle p) (mStats p)
       (trace p ++ [EvExecute variables reply])).

(** [computeBackoffMs(attempt)], drawing the jitter. *)
Definition backoff_for (attempt : Z) : M Paginator Z :=
  fun p =>
    let '(jitter, g) := uniform_jitter (rng p) in
    (Return (computeBackoffMs attempt kBaseMs kMaxMs jitter),
     mkPaginator (mClient p) g (mThrottle p) (mStats p) (trace p)).

(** A call on [mThrottle]. *)
Definition on_throttle {A} (m : M ThrottleController A) : M Paginator A :=
  fun p =>
    let '(r, t) := m (mThrottle p) in
    (r, mkPaginator (mClient p) (rng p) t (mStats p) (trace p)).

(** [mThrottle.maybeSleepBeforeNextRequest()], the sleep traced. *)
Definition throttle_gate : M Paginator unit :=
  fun p =>
    let '(t, slept) := maybeSleepBeforeNextRequest (mThrottle p) in
    let p := mkPaginator (mClient p) (rng p) t (mStats p) (trace p) in
    match slept with
    | Some ms => sleep_for ms p
    | None => (Return tt, p)
    end.

(** The paginator right after the transport call of an attempt. *)
Definition after_execute (query : string) (variables : json)
    (p : Paginator) : Paginator :=
  mkPaginator (snd (execute query variables (mClient p))) (rng p)
    (mThrottle p) (mStats p)
    (trace p
     ++ [EvExecute variables (fst (execute query variables (mClient p)))]).

(** The paginator right after a jitter draw. *)
Definition after_draw (p : Paginator) : Paginator :=
  mkPaginator (mClient p) (snd (uniform_jitter (rng p))) (mThrottle p)
    (mStats p) (trace p).

(** *** [Paginator::executeWithRetry] *)

(** The [try] block of one attempt. *)
Definition attempt_try (query : string) (variables : json) (attempt : Z)
    : M Paginator attempt_result :=
  resp <- client_execute query variables ;;
  if isRetryableStatus (httpStatus resp) then
    modify incr_totalRetries ;;;
    backoff <- backoff_for attempt ;;
    if attempt =? kMaxAttempts - 1 then
      throw (RuntimeError ("Max retries exceeded.  Last HTTP status: "
                           +:+ to_string (httpStatus resp)))
    else
      sleep_for backoff ;;;
      ret Again
  else ret (Done (body resp)).

(** The [catch (const std::runtime_error& e)] handler of one attempt. *)
Definition attempt_catch (attempt : Z) (e : exn)
    : M Paginator attempt_result :=
  let msg := what e in
  if str_contains "Max retries exceeded" msg then throw e
  else
    modify incr_totalRetries ;;;
    if attempt =? kMaxAttempts - 1 then
      throw (RuntimeError ("Max retries exceeded.  Last error: "
                           +:+ what e))
    else
      backoff <- backoff_for attempt ;;
      sleep_for backoff ;;;
      ret Again.

Definition attempt_body (query : string) (variables : json) (attempt : Z)
    : M Paginator attempt_result :=
  try_catch (attempt_try query variables attempt) is_runtime_error
    (attempt_catch attempt).

(** The [for] loop with [n] iterations left, and the [throw] after it. *)
Fixpoint retry_loop (n : nat) (attempt : Z) (query : string)
    (variables : json) : M Paginator json :=
  match n with
  | O => throw (RuntimeError "Max retries exceeded (unreachable)")
  | S n' =>
      r <- attempt_body query variables attempt ;;
      match r with
      | Done responseBody => ret responseBody
      | Again => retry_loop n' (attempt + 1) query variables
      end
  end.

Definition executeWithRetry (query : string) (variables : json)
    : M Paginator json :=
  retry_loop (Z.to_nat kMaxAttempts) 0 query variables.

(** *** [Paginator::fetchAllProducts] *)

(** [!response.contains("data") || response["data"].is_null()]. *)
Definition no_data (response : json) : bool :=
  match json_find response "data" with
  | Some data => is_null data
  | None => true
  end.

Definition is_empty {A} (l : list A) : bool :=
  match l with [] => true | _ => false end.

(** What follows a response in one iteration of the [while] loop. *)
Definition process_response (st : loop_state) (response : json)
    : M Paginator control :=
  modify incr_totalRequests ;;;
  on_throttle (observeResponse response) ;;;
  errors <- lift (extractGraphqlErrors response) ;;
  if negb (is_empty errors) && no_data response then ret (Break st)
  else
    page <- try_catch (page <- lift (parseProductsPage response) ;;
                       ret (Some page))
              is_std_exception (fun _ => ret None) ;;
    match page with
    | None => ret (Break st)
    | Some page =>
        if is_empty (products page) then ret (Break st)
        else
          let all := allProducts st ++ products page in
          if negb (hasNextPage page) then ret (Break (mkLoop all (cursor st)))
          else ret (Continue (mkLoop all (lastCursor page)))
    end.

(** The paginator once a response is counted and shown to the throttle. *)
Definition after_observe (response : json) (p : Paginator) : Paginator :=
  mkPaginator (mClient p) (rng p)
    (snd (observeResponse response (mThrottle p)))
    (mStats (incr_totalRequests p)) (trace p).

(** The paginator once the throttle gate is passed. *)
Definition after_gate (p : Paginator) : Paginator :=
  snd (throttle_gate p).

(** The size of the page requested from loop state [st]. *)
Definition fetchCount_of (totalLimit pageSize : Z) (st : loop_state) : Z :=
  let remaining := totalLimit - Z.of_nat (length (allProducts st)) in
  Z.min pageSize remaining.

(** One iteration of the [while] loop. *)
Definition loop_body (totalLimit pageSize : Z) (st : loop_state)
    : M Paginator control :=
  throttle_gate ;;;
  let variables :=
    request_variables (fetchCount_of totalLimit pageSize st) (cursor st) in
  response <- try_catch (response <- executeWithRetry kProductsQuery
                                       variables ;;
                         ret (Some response))
                is_std_exception (fun _ => ret None) ;;
  match response with
  | None => ret (Break st)
  | Some response => process_response st response
  end.

(** The [while] loop, cut off after [fuel] iterations ([None]). *)
Fixpoint fetch_loop (fuel : nat) (totalLimit pageSize : Z)
    (st : loop_state) : M Paginator (option (list Product)) :=
  if Z.of_nat (length (allProducts st)) <? totalLimit then
    match fuel with
    | O => ret None
    | S fuel' =>
        c <- loop_body totalLimit pageSize st ;;
        match c with
        | Continue st' => fetch_loop fuel' totalLimit pageSize st'
        | Break st' => ret (Some (allProducts st'))
        end
    end
  else ret (Some (allProducts st)).

(** The tail of [fetchAllProducts]: "populate stats". *)
Definition populate_stats (all : list Product) (p : Paginator)
    : Paginator :=
  let s := mStats p in
  set_mStats (mkStats (Z.of_nat (length all)) (totalRequests s)
                (totalRetries s) (totalSleepSeconds (mThrottle p))
                (avgQueryCost (mThrottle p))) p.

(** [fetchAllProducts]: every iteration that continues adds a record, so
    [totalLimit] iterations are enough fuel (see
    [fetchAllProducts_terminates]). *)
Definition fetchAllProducts (totalLimit pageSize : Z)
    : M Paginator (option (list Product)) :=
  r <- fetch_loop (Z.to_nat totalLimit) totalLimit pageSize
         (mkLoop [] None) ;;
  match r with
  | Some all => modify (populate_stats all) ;;; ret (Some all)
  | None => ret None
  end.
End Paginator.

Arguments Paginator : clear implicits.

(** Reading a trace. *)

(** The replies of the transport calls, in order. *)
Fixpoint replies_of (tr : list event) : list (outcome Response) :=
  match tr with
  | [] => []
  | EvExecute _ reply :: rest => reply :: replies_of rest
  | EvSleepMs _ :: rest => replies_of rest
  end.

(** The variables of the transport calls, in order. *)
Fixpoint requests_of (tr : list event) : list json :=
  match tr with
  | [] => []
  | EvExecute variables _ :: rest => variables :: requests_of rest
  | EvSleepMs _ :: rest => requests_of rest
  end.

(** The sleeps, in order. *)
Fixpoint sleeps_of (tr : list event) : list Z :=
  match tr with
  | [] => []
  | EvSleepMs ms :: rest => ms :: sleeps_of rest
  | EvExecute _ _ :: rest => sleeps_of rest
  end.

(** A reply that makes [executeWithRetry] try again: HTTP 429 or >= 500,
    or a [std::runtime_error] from the transport. *)
Definition retryable_reply (reply : outcome Response) : bool :=
  match reply with
  | Return resp => isRetryableStatus (httpStatus resp)
  | Throw e => is_runtime_error e
  end.

(** A reply whose body [executeWithRetry] hands to the driver. *)
Definition delivered_body (reply : outcome Response) : option json :=
  match reply with
  | Return resp =>
      if isRetryableStatus (httpStatus resp) then None else Some (body resp)
  | Throw _ => None
  end.

(** The records the mapper finds in a body (none when it throws). *)
Definition records_of (responseBody : json) : list Product :=
  match parseProductsPage responseBody with
  | Return page => products page
  | Throw _ => []
  end.

(** The records of all bodies delivered in a trace, in fetch order. *)
Definition delivered_records (tr : list event) : list Product :=
  concat (map records_of (omap delivered_body (replies_of tr))).

(** The [first] variable of a request. *)
Definition requested_first (variables : json) : option Z :=
  match json_find variables "first" with
  | Some (JNum (NInt n)) => Some n
  | _ => None
  end.

(** Every transport call in [tr] asks for
    [min(pageSize, totalLimit - accumulated)] records, [accumulated] being
    the number of records delivered before the call. *)
Definition requests_ask_min (totalLimit pageSize : Z) (tr : list event)
    : Prop :=
  forall pre variables reply post,
    tr = pre ++ EvExecute variables reply :: post ->
    requested_first variables
    = Some (Z.min pageSize
              (totalLimit - Z.of_nat (length (delivered_records pre)))).

(** The records a reply adds to the accumulated result. *)
Definition delivered_of (reply : outcome Response) : list Product :=
  match delivered_body reply with
  | Some b => records_of b
  | None => []
  end.

(** [requests_ask_min] as a check that walks the trace, [acc] being the
    number of records delivered so far. *)
Fixpoint asks_min_from (totalLimit pageSize : Z) (acc : nat)
    (tr : list event) : bool :=
  match tr with
  | [] => true
  | EvSleepMs _ :: rest => asks_min_from totalLimit pageSize acc rest
  | EvExecute variables reply :: rest =>
      match requested_first variables with
      | Some n =>
          (n =? Z.min pageSize (totalLimit - Z.of_nat acc))
          && asks_min_from totalLimit pageSize
               (acc + length (delivered_of reply)) rest
      | None => false
      end
  end.

(** No reply of [tr] is delivered to the driver. *)
Definition quiet (tr : list event) : Prop :=
  Forall (fun reply => delivered_body reply = None) (replies_of tr).

(** Every transport call of [tr] carries the variables [v]. *)
Definition all_requests (v : json) (tr : list event) : Prop :=
  Forall (fun v' => v' = v) (requests_of tr).

(** The events of one iteration: sleeps and calls that deliver nothing,
    then at most one delivered reply, the last event. *)
Definition call_shape (v : json) (tr : list event) : Prop :=
  all_requests v tr
  /\ (quiet tr
      \/ exists trq reply, tr = trq ++ [EvExecute v reply] /\ quiet trq).

(** The terminal message [msg] carries what the last reply was: its HTTP
    status, or its error message (appended to the prefix, or the message
    itself when the handler rethrows it unchanged). *)
Definition carries_last (reply : outcome Response) (msg : string) : Prop :=
  match reply with
  | Return resp =>
      msg = "Max retries exceeded.  Last HTTP status: "
            +:+ to_string (httpStatus resp)
  | Throw e =>
      msg = "Max retries exceeded.  Last error: " +:+ what e
      \/ msg = what e
  end.

(** A delivered response carries at most the requested number of records. *)
Definition within_request (e : event) : bool :=
  match e with
  | EvExecute variables reply =>
      match delivered_body reply, requested_first variables with
      | Some b, Some n => Z.of_nat (length (records_of b)) <=? n
      | Some _, None => false
      | None, _ => true
      end
  | EvSleepMs _ => true
  end.

(* ------------------------------------------------------------------ *)
(** ** Test environments *)

(** Jitter from a small linear congruential generator. *)
Definition lcg_jitter (g : Z) : Z * Z := (g mod 101, (g * 75 + 74) mod 65537).

Lemma lcg_jitter_range g : 0 <= fst (lcg_jitter g) <= 100.
Proof. simpl. pose proof (Z.mod_pos_bound g 101). lia. Qed.

(** A scripted transport: the replies are served in order, and an
    exhausted script refuses the connection. *)
Definition script : Type := list (outcome Response).

Definition scripted_execute (query : string) (variables : json)
    : M script Response :=
  fun w =>
    match w with
    | [] => (Throw (RuntimeError "connection refused"), [])
    | reply :: rest => (reply, rest)
    end.

#[global] Instance scripted_env : Environment script Z :=
  {| execute := scripted_execute;
     uniform_jitter := lcg_jitter;
     uniform_jitter_range := lcg_jitter_range |}.

(** The mock server of the integration tests: a catalogue of products
    with their cursors, served [first] at a time after the cursor [after],
    with a cost extension of [2 + first]. *)
Definition catalogue : Type := list (string * Product).

Definition mock_edge (cp : string * Product) : json :=
  obj [("cursor", JStr (fst cp));
       ("node", obj [("id", JStr (id (snd cp)));
                     ("title", JStr (title (snd cp)));
                     ("updatedAt", JStr (updatedAt (snd cp)))])].

Fixpoint after_cursor (c : string) (items : catalogue) : catalogue :=
  match items with
  | [] => []
  | (c', _) :: rest => if String.eqb c c' then rest else after_cursor c rest
  end.

Definition mock_body (first : Z) (items : catalogue) : json :=
  let page := take (Z.to_nat first) items in
  let more := negb (is_empty (drop (Z.to_nat first) items)) in
  obj [("data", obj [("products", obj [
          ("edges", JArr (map mock_edge page));
          ("pageInfo", obj [("hasNextPage", JBool more)])])]);
       ("extensions", obj [("cost", obj [
          ("requestedQueryCost", JNum (NInt (2 + first)));
          ("throttleStatus", obj [
             ("maximumAvailable", JNum (NInt 200));
             ("currentlyAvailable", JNum (NInt 148));
             ("restoreRate", JNum (NInt 50))])])])].

Definition mock_execute (query : string) (variables : json)
    : M catalogue Response :=
  fun w =>
    let first := match requested_first variables with
                 | Some n => n
                 | None => 0
                 end in
    let items := match json_find variables "after" with
                 | Some (JStr c) => after_cursor c w
                 | _ => w
                 end in
    (Return (mkResponse 200 (mock_body first items)), w).

#[global] Instance mock_env : Environment catalogue Z :=
  {| execute := mock_execute;
     uniform_jitter := lcg_jitter;
     uniform_jitter_range := lcg_jitter_range |}.

Definition mock_product (i : nat) : string * Product :=
  ("cursor-" +:+ to_string (N.of_nat i),
   mkProduct ("gid://shopify/Product/" +:+ to_string (1000 + N.of_nat i))
     ("Product " +:+ to_string (N.of_nat i) +:+ " - Widget")
     "2024-01-01T00:00:00Z").

(** Thirty products, GIDs 1001 to 1030. *)
Definition mock_catalogue : catalogue := map mock_product (seq 1 30).

(** A fresh paginator with its throttle (safety margin 20). *)
Definition fresh {W : Type} (w : W) : Paginator W Z :=
  Paginator_new w 7 (ThrottleController_new 20).

(** A page body with the given edges and [hasNextPage] flag. *)
Definition page_body (edges : list json) (more : bool) : json :=
  obj [("data", obj [("products", obj [
          ("edges", JArr edges);
          ("pageInfo", obj [("hasNextPage", JBool more)])])])].


(** Three well-formed edges, as in test_mapping.cpp. *)
Definition body_three_edges : json :=
  page_body [obj [("cursor", JStr "first-cursor");
                  ("node", obj [("id", JStr "a"); ("title", JStr "A")])];
             obj [("cursor", JStr "middle-cursor");
                  ("node", obj [("id", JStr "b"); ("title", JStr "B")])];
             obj [("cursor", JStr "last-cursor");
                  ("node", obj [("id", JStr "c"); ("title", JStr "C")])]]
    true.

(** An empty page that claims there is more. *)
Definition body_empty_with_more : json := page_body [] true.

Definition http (status : N) (responseBody : json) : outcome Response :=
  Return (mkResponse status responseBody).

(* ------------------------------------------------------------------ *)
(** ** util.hpp / util.cpp: [parseUrl] *)

(** [struct UrlParts]. *)
Record UrlParts : Type := mkUrlParts {
  scheme : string;
  host : string;
  port : string;
  target : string
}.

(** [s.find(needle)] for a string needle: the first position where
    [needle] starts, [None] for [npos]. *)
Fixpoint find_str (needle s : string) : option nat :=
  if String.prefix needle s then Some 0%nat
  else
    match s with
    | EmptyString => None
    | String _ rest => S <$> find_str needle rest
    end.

(** [s.find(c)] for a character. *)
Fixpoint find_char (c : Ascii.ascii) (s : string) : option nat :=
  match s with
  | EmptyString => None
  | String a rest =>
      if Ascii.eqb a c then Some 0%nat else S <$> find_char c rest
  end.

(** The string without its first [pos] characters: [s.substr(pos)] for
    [pos <= s.size()]. *)
Fixpoint str_drop (pos : nat) (s : string) : string :=
  match pos, s with
  | O, _ => s
  | S pos', String _ rest => str_drop pos' rest
  | S _, EmptyString => EmptyString
  end.

(** The first [len] characters, fewer if the string is shorter. *)
Fixpoint str_take (len : nat) (s : string) : string :=
  match len, s with
  | S len', String a rest => String a (str_take len' rest)
  | _, _ => EmptyString
  end.

(** [s.substr(pos, len)] for [pos <= s.size()]. *)
Definition substr (pos len : nat) (s : string) : string :=
  str_take len (str_drop pos s).

(** [s.find(c, pos)]. *)
Definition find_char_from (c : Ascii.ascii) (pos : nat) (s : string)
    : option nat :=
  (fun i => (pos + i)%nat) <$> find_char c (str_drop pos s).

(** [std::invalid_argument], a [std::exception] that is neither a
    [std::runtime_error] nor a json exception. *)
Definition invalid_argument (msg : string) : exn := OtherException msg.

Definition parseUrl (url : string) : outcome UrlParts :=
  match find_str "://" url with
  | None => Throw (invalid_argument ("Invalid URL (missing scheme): " +:+ url))
  | Some schemeEnd =>
      let scheme_ := substr 0 schemeEnd url in
      let hostStart := (schemeEnd + 3)%nat in
      let '(authority, target_) :=
        match find_char_from "/"%char hostStart url with
        | None => (str_drop hostStart url, "/")
        | Some pathStart =>
            (substr hostStart (pathStart - hostStart) url,
             str_drop pathStart url)
        end in
      let '(host_, port_) :=
        match find_char ":"%char authority with
        | None => (authority, if String.eqb scheme_ "https" then "443" else "80")
        | Some colon => (substr 0 colon authority, str_drop (colon + 1) authority)
        end in
      if String.eqb host_ "" then
        Throw (invalid_argument ("Invalid URL (empty host): " +:+ url))
      else Return (mkUrlParts scheme_ host_ port_ target_)
  end.

(** The character [c] does not occur in [s]. *)
Fixpoint lacks_char (c : Ascii.ascii) (s : string) : bool :=
  match s with
  | EmptyString => true
  | String a rest => negb (Ascii.eqb a c) && lacks_char c rest
  end.

(** A path as it appears in a URL: nothing, or something after a slash. *)
Definition is_url_path (s : string) : bool :=
  match s with
  | EmptyString => true
  | String a _ => Ascii.eqb a "/"%char
  end.

(* ------------------------------------------------------------------ *)
(** ** Reading the mapper's inputs *)

(** The member [key] of [j] is absent or a string: exactly when
    [j.value(key, "")] does not throw on an object [j]. *)
Definition string_or_absent (j : json) (key : string) : bool :=
  match json_find j key with
  | None | Some (JStr _) => true
  | Some _ => false
  end.

(** The string member [key] of [j], [default] when there is none. *)
Definition string_field (j : json) (key default : string) : string :=
  match json_find j key with
  | Some (JStr s) => s
  | _ => default
  end.

(** A node [parseProductNode] accepts. *)
Definition node_ok (node : json) : bool :=
  is_object node && string_or_absent node "id"
  && string_or_absent node "title" && string_or_absent node "updatedAt".

(** An entry of the [errors] array [extractGraphqlErrors] accepts. *)
Definition error_entry_ok (err : json) : bool :=
  is_object err && string_or_absent err "message".

(** An edge the loop of [parseProductsPage] accepts: its node, if any,
    is accepted by [parseProductNode], and its cursor, if any, is a
    string. *)
Definition edge_ok (edge : json) : bool :=
  match json_find edge "node" with
  | Some node => node_ok node
  | None => true
  end
  && string_or_absent edge "cursor".

(** A [pageInfo] member, if any, is an object whose [hasNextPage] is
    absent or a boolean. *)
Definition pageInfo_ok (products_j : json) : bool :=
  match json_find products_j "pageInfo" with
  | None => true
  | Some pageInfo =>
      is_object pageInfo
      && match json_find pageInfo "hasNextPage" with
         | None | Some (JBool _) => true
         | Some _ => false
         end
  end.

(** One of the two members [parseProductsPage] insists on is missing:
    [data], or [products] under a non-null [data]. *)
Definition missing_field (responseBody : json) : bool :=
  match json_find responseBody "data" with
  | None => true
  | Some data => negb (is_null data) && negb (contains data "products")
  end.

(** A body [parseProductsPage] accepts. *)
Definition page_ok (responseBody : json) : bool :=
  match json_find responseBody "data" with
  | None => false
  | Some data =>
      is_null data
      || match json_find data "products" with
         | None => false
         | Some products_j =>
             forallb edge_ok (edges_of products_j) && pageInfo_ok products_j
         end
  end.

(* ------------------------------------------------------------------ *)
(** ** Reading the throttle's inputs *)

(** The [extensions.cost] member of a response. *)
Definition cost_member (response : json) : option json :=
  match json_find response "extensions" with
  | Some extensions => json_find extensions "cost"
  | None => None
  end.

(** The value a guarded read leaves in a field: the member [key] of
    [parent] when it is a number, the old value when it is absent. *)
Definition updated (parent : json) (key : string) (old : float) : float :=
  match json_find parent key with
  | Some (JNum n) => number_to_double n
  | _ => old
  end.

(** The same for a field read from the optional [throttleStatus]. *)
Definition updated_status (cost : json) (key : string) (old : float)
    : float :=
  match json_find cost "throttleStatus" with
  | Some ts => updated ts key old
  | None => old
  end.

(** The subfield [key] of [cost.throttleStatus] is present with a
    non-numeric type. *)
Definition wrong_status_number (cost : json) (key : string) : bool :=
  match json_find cost "throttleStatus" with
  | Some ts => wrong_type_number ts key
  | None => false
  end.

(** [observeResponse] throws no later than at its read of
    [maximumAvailable], respectively of [currentlyAvailable]: the reads
    come in the order [requestedQueryCost], [maximumAvailable],
    [currentlyAvailable], [restoreRate]. *)
Definition throws_by_maximum (cost : json) : bool :=
  wrong_type_number cost "requestedQueryCost"
  || wrong_status_number cost "maximumAvailable".

Definition throws_by_currently (cost : json) : bool :=
  throws_by_maximum cost || wrong_status_number cost "currentlyAvailable".

(** The cost a response charges, when the throttle can observe it whole:
    a numeric [requestedQueryCost] and no wrong-typed budget subfield. *)
Definition observed_cost (response : json) : option float :=
  match cost_member response with
  | Some cost =>
      match json_find cost "requestedQueryCost" with
      | Some (JNum n) =>
          if bad_number_subfield response then None
          else Some (number_to_double n)
      | _ => None
      end
  | None => None
  end.

(** The responses [observeResponse] counts: a [cost] member under
    [extensions], and no numeric subfield of a wrong type. *)
Definition counts_observation (response : json) : bool :=
  has_cost_extension response && negb (bad_number_subfield response).

(** [fields_but_sleep t t']: [t'] differs from [t] at most in the
    cumulative sleep. *)
Definition fields_but_sleep (t t' : ThrottleController) : Prop :=
  t' = set_mTotalSleep (mTotalSleep t') t.

(** The sleep the design document states, in whole seconds: the ceiling
    of the exact quotient of the real numbers the four doubles stand
    for. *)
Definition exact_ceiling_seconds (t : ThrottleController) : Z :=
  Qceiling ((double_to_Q (mLastRequestedCost t)
             + double_to_Q (mSafetyMargin t)
             - double_to_Q (mCurrentlyAvailable t))
            / double_to_Q (mRestoreRate t))%Q.

(** The value of the local [sleepSeconds] of the gate after [std::max],
    where the gate gets that far. *)
Definition gate_seconds (t : ThrottleController) : float :=
  std_max 0
    (double_ceil ((mLastRequestedCost t + mSafetyMargin t
                   - mCurrentlyAvailable t) / mRestoreRate t)%float).

(** [x + d + ... + d], [n] additions, each one rounded. *)
Fixpoint add_n (n : nat) (x d : float) : float :=
  match n with
  | O => x
  | S n' => add_n n' (x + d)%float d
  end.

(** Calling the gate [n] times in a row, with the sleeps it asks for. *)
Fixpoint gate_n (n : nat) (t : ThrottleController)
    : ThrottleController * list (option Z) :=
  match n with
  | O => (t, [])
  | S n' =>
      let '(t1, slept) := maybeSleepBeforeNextRequest t in
      let '(t2, rest) := gate_n n' t1 in
      (t2, slept :: rest)
  end.

(* ------------------------------------------------------------------ *)
(** ** Reading the retries of a trace *)

(** A reply that [executeWithRetry] counts in [totalRetries]: a retryable
    HTTP status, or a [std::runtime_error] other than the sentinel. *)
Definition counted_retry (reply : outcome Response) : bool :=
  match reply with
  | Return resp => isRetryableStatus (httpStatus resp)
  | Throw e =>
      is_runtime_error e
      && negb (str_contains "Max retries exceeded" (what e))
  end.

Definition retries_in (tr : list event) : nat :=
  length (List.filter counted_retry (replies_of tr)).

(** The bodies handed to the driver in a trace, in order. *)
Definition delivered_in (tr : list event) : list json :=
  omap delivered_body (replies_of tr).

(** The events of one call of [executeWithRetry] whose first attempt has
    index [attempt]: transport calls with the variables [v], each but the
    last one answered by a counted reply and followed by one sleep within
    the backoff interval of its attempt. *)
Fixpoint retry_shape (v : json) (attempt : Z) (tr : list event) : Prop :=
  match tr with
  | EvExecute v' reply :: rest =>
      v' = v
      /\ match rest with
         | [] => True
         | EvSleepMs ms :: rest' =>
             counted_retry reply = true
             /\ attempt < kMaxAttempts - 1
             /\ backoff_floor attempt <= ms <= backoff_floor attempt + 100
             /\ retry_shape v (attempt + 1) rest'
         | EvExecute _ _ :: _ => False
         end
  | _ => False
  end.

(* ================================================================== *)
(** * Properties *)

Example test_SleepsTwoSecondsWithLargerDeficit :
  let t := snd (observeResponse (makeThrottleResponse 200 400 50 100)
                  (ThrottleController_new 0)) in
  snd (maybeSleepBeforeNextRequest t) = Some 2000
  /\ mTotalSleep (fst (maybeSleepBeforeNextRequest t)) = 2%float.
Proof. vm_compute. split; reflexivity. Qed.

Example test_ThreeObservationsAverage :
  let t := observe_all [makeThrottleResponse 10 200 190 50;
                        makeThrottleResponse 20 200 170 50;
                        makeThrottleResponse 30 200 140 50]
             (ThrottleController_new 20) in
  totalObservations t = 3 /\ avgQueryCost t = 20%float.
Proof. vm_compute. split; reflexivity. Qed.

(** Doubles round: 0.1 + 0.2 is not 0.3, and the average shows it. *)
Example test_average_rounds :
  let t := observe_all [makeThrottleResponse 0.1 200 190 50;
                        makeThrottleResponse 0.2 200 170 50]
             (ThrottleController_new 20) in
  mTotalCost t = 0.30000000000000004%float
  /\ avgQueryCost t = 0.15000000000000002%float.
Proof. vm_compute. split; reflexivity. Qed.

(** [std::ceil] and the conversion to [int64_t] on a few doubles. *)
Example test_double_ceil :
  map double_ceil [0.5; 1.5; 2; -0.5; -1.5; 3.0000000000000004; 5e-324;
                   4503599627370495.5; 1e300; infinity]%float
  = [1; 2; 2; -0; -1; 4; 1; 4503599627370496; 1e300; infinity]%float.
Proof. vm_compute. reflexivity. Qed.

Example test_to_int64 :
  map to_int64 [0.5; 1.5; 2000; -1.5; 2999.9999; 1e22; nan]%float
  = [0; 1; 2000; -1; 2999; int64_min; int64_min].
Proof. vm_compute. reflexivity. Qed.

(* ------------------------------------------------------------------ *)
(** ** Throttle: the sleep decision *)

(** Where the conversion is defined, [to_int64] is the real value of the
    double truncated toward zero. *)
Lemma to_int64_truncates (d : float) :
  fits_int64 d = true ->
  to_int64 d
  = Z.quot (Qnum (double_to_Q d)) (Z.pos (Qden (double_to_Q d))).
Proof.
  unfold fits_int64, to_int64, double_to_Q.
  destruct (Prim2SF d) as [s | s | | s m e]; try discriminate;
    [intros _; reflexivity |].
  intros ->.
  destruct (Z.leb_spec 0 e) as [He | He].
  - destruct s; cbn [Qopp inject_Z Qnum Qden]; now rewrite Z.quot_1_r.
  - assert (Hpow : 0 < 2 ^ (- e)) by (apply Z.pow_pos_nonneg; lia).
    destruct s; cbn [Qopp Qnum Qden]; rewrite Z2Pos.id by exact Hpow.
    + change (- Z.pos m) with (- (Z.pos m)).
      rewrite Z.quot_opp_l by lia.
      rewrite Z.quot_div_nonneg by lia. reflexivity.
    + rewrite Z.quot_div_nonneg by lia. reflexivity.
Qed.

(** On a double with a fraction, [double_ceil] converts the ceiling of
    its real value (a zero ceiling gives the negative zero). *)
Lemma double_ceil_fraction (d : float) (s : bool) (m : positive) (e : Z) :
  Prim2SF d = S754_finite s m e -> e < 0 ->
  double_ceil d
  = (if Qceiling (double_to_Q d) =? 0 then (-0)%float
     else of_Z (Qceiling (double_to_Q d))).
Proof.
  intros Hd He. unfold double_ceil, double_to_Q. rewrite Hd.
  destruct (Z.leb_spec 0 e) as [Hge | _]; [lia |].
  assert (Hpow : 0 < 2 ^ (- e)) by (apply Z.pow_pos_nonneg; lia).
  assert (Hceil : ceil_Z s m e
                  = Qceiling (if s
                              then (- (Z.pos m # Z.to_pos (2 ^ (- e))))%Q
                              else (Z.pos m # Z.to_pos (2 ^ (- e)))%Q)).
  { unfold ceil_Z, Qceiling, Qfloor. destruct s; cbn [Qopp Qnum Qden].
    - rewrite Z.opp_involutive, Z2Pos.id by exact Hpow. reflexivity.
    - rewrite Z2Pos.id by exact Hpow.
      destruct (Z.eqb_spec (Z.pos m mod 2 ^ (- e)) 0) as [Hz | Hnz].
      + rewrite Z.div_opp_l_z by lia. lia.
      + rewrite Z.div_opp_l_nz by lia. lia. }
  rewrite Hceil. reflexivity.
Qed.

(** The gate changes no field but the sleep total. *)
Lemma maybeSleep_frame (t : ThrottleController) :
  fields_but_sleep t (fst (maybeSleepBeforeNextRequest t)).
Proof.
  unfold fields_but_sleep, maybeSleepBeforeNextRequest.
  destruct (negb (mHasObserved t) || (mRestoreRate t <=? 0)%float);
    [destruct t; reflexivity |].
  destruct (mLastRequestedCost t + mSafetyMargin t
            <=? mCurrentlyAvailable t)%float;
    [destruct t; reflexivity |].
  destruct (0 <? std_max 0 _)%float; destruct t; reflexivity.
Qed.

(** [std::max(0.0, x)] is [x] when [0.0 < x] and [0.0] otherwise. *)
Lemma std_max_zero (x : float) :
  std_max 0 x = if (0 <? x)%float then x else 0%float.
Proof. reflexivity. Qed.

(** C1 as worded fails: the quotient is a double.  With a cost of 1, no
    margin, nothing available and a restore rate of 0.3333333333333333
    (the double next to one third, below it), the exact quotient is just
    above 3 and its ceiling is 4, but the quotient of the doubles rounds
    to 3.0 and the code sleeps 3000 ms. *)
Lemma C1_exact_ceiling_counterexample :
  ~ (forall t : ThrottleController,
       mHasObserved t = true -> (0 <? mRestoreRate t)%float = true ->
       (mCurrentlyAvailable t
        <? mLastRequestedCost t + mSafetyMargin t)%float = true ->
       snd (maybeSleepBeforeNextRequest t)
       = Some (1000 * exact_ceiling_seconds t)).
Proof.
  intros H.
  specialize (H (snd (observeResponse
                        (makeThrottleResponse 1 1000 0 0.3333333333333333)
                        (ThrottleController_new 0)))
                eq_refl eq_refl eq_refl).
  vm_compute in H. discriminate H.
Qed.

(** C1, amended.  [maybeSleepBeforeNextRequest] never changes a field
    other than the cumulative sleep.  With no observation yet, or a
    restore rate [<= 0.0], it does nothing.  Otherwise it does nothing
    when [lastRequestedCost + safetyMargin <= currentlyAvailable]; else it
    computes [secs = ceil((lastRequestedCost + safetyMargin -
    currentlyAvailable) / restoreRate)] in double arithmetic, each
    operation rounded, and when [0.0 < secs] it adds [secs] to the
    cumulative sleep and sleeps [static_cast<int64_t>(secs * 1000)]
    milliseconds; when [secs] is not positive (the quotient underflowed
    to zero, or is NaN) it does nothing. *)
Theorem C1_maybeSleep_double_ceiling (t : ThrottleController) :
  let needed := (mLastRequestedCost t + mSafetyMargin t)%float in
  let secs :=
    double_ceil ((needed - mCurrentlyAvailable t) / mRestoreRate t)%float in
  let t' := fst (maybeSleepBeforeNextRequest t) in
  let slept := snd (maybeSleepBeforeNextRequest t) in
  (mSafetyMargin t' = mSafetyMargin t
   /\ mLastRequestedCost t' = mLastRequestedCost t
   /\ mMaximumAvailable t' = mMaximumAvailable t
   /\ mCurrentlyAvailable t' = mCurrentlyAvailable t
   /\ mRestoreRate t' = mRestoreRate t
   /\ mTotalCost t' = mTotalCost t
   /\ mObservationCount t' = mObservationCount t
   /\ mHasObserved t' = mHasObserved t)
  /\ (mHasObserved t = true -> (mRestoreRate t <=? 0)%float = false ->
      ((needed <=? mCurrentlyAvailable t)%float = true ->
       slept = None /\ mTotalSleep t' = mTotalSleep t)
      /\ ((needed <=? mCurrentlyAvailable t)%float = false ->
          ((0 <? secs)%float = true ->
           slept = Some (to_int64 (secs * 1000)%float)
           /\ mTotalSleep t' = (mTotalSleep t + secs)%float)
          /\ ((0 <? secs)%float = false ->
              slept = None /\ mTotalSleep t' = mTotalSleep t)))
  /\ (mHasObserved t = false \/ (mRestoreRate t <=? 0)%float = true ->
      slept = None /\ mTotalSleep t' = mTotalSleep t).
Proof.
  intros needed secs t' slept. split; [| split].
  - pose proof (maybeSleep_frame t) as Hframe. fold t' in Hframe.
    unfold fields_but_sleep in Hframe. rewrite Hframe.
    repeat split.
  - intros Hobs Hrate. subst t' slept.
    unfold maybeSleepBeforeNextRequest. rewrite Hobs, Hrate. cbn [negb orb].
    fold needed. split.
    + intros ->. split; reflexivity.
    + intros ->. fold secs. rewrite std_max_zero. split.
      * intros Hpos. rewrite Hpos, Hpos. split; reflexivity.
      * intros Hpos. rewrite Hpos.
        change (0 <? 0)%float with false. split; reflexivity.
  - intros Hnone. subst t' slept. unfold maybeSleepBeforeNextRequest.
    assert (Hguard : negb (mHasObserved t) || (mRestoreRate t <=? 0)%float
                     = true).
    { destruct Hnone as [-> | ->]; [reflexivity | apply orb_true_r]. }
    rewrite Hguard. split; reflexivity.
Qed.

(** The two worked examples of the design document: cost 200, available
    50, rate 100 sleeps 2 s; cost 100, available 50, rate 100 sleeps 1 s;
    an ample budget sleeps nothing, and neither does a fresh controller. *)
Lemma C1_maybeSleep_double_ceiling_witness :
  let t := snd (observeResponse (makeThrottleResponse 200 400 50 100)
                  (ThrottleController_new 0)) in
  let t1 := snd (observeResponse (makeThrottleResponse 100 400 50 100)
                   (ThrottleController_new 0)) in
  let u := snd (observeResponse (makeThrottleResponse 52 200 200 50)
                  (ThrottleController_new 20)) in
  (snd (maybeSleepBeforeNextRequest t) = Some 2000
   /\ mTotalSleep (fst (maybeSleepBeforeNextRequest t)) = 2%float)
  /\ (snd (maybeSleepBeforeNextRequest t1) = Some 1000
      /\ mTotalSleep (fst (maybeSleepBeforeNextRequest t1)) = 1%float)
  /\ snd (maybeSleepBeforeNextRequest u) = None
  /\ snd (maybeSleepBeforeNextRequest (ThrottleController_new 20)) = None.
Proof.
  intros t t1 u. split; [| split; [| split]].
  - destruct (C1_maybeSleep_double_ceiling t) as (_ & H & _).
    destruct (H eq_refl eq_refl) as [_ Hlow].
    destruct (Hlow eq_refl) as [Hpos _].
    exact (Hpos eq_refl).
  - destruct (C1_maybeSleep_double_ceiling t1) as (_ & H & _).
    destruct (H eq_refl eq_refl) as [_ Hlow].
    destruct (Hlow eq_refl) as [Hpos _].
    exact (Hpos eq_refl).
  - destruct (C1_maybeSleep_double_ceiling u) as (_ & H & _).
    destruct (H eq_refl eq_refl) as [Hok _].
    exact (proj1 (Hok eq_refl)).
  - destruct (C1_maybeSleep_double_ceiling (ThrottleController_new 20))
      as (_ & _ & H).
    exact (proj1 (H (or_introl eq_refl))).
Defined.

(* ------------------------------------------------------------------ *)
(** ** Throttle: observing responses *)

Lemma same_aggregates_refl t : same_aggregates t t.
Proof. repeat split. Qed.

Lemma same_aggregates_trans t1 t2 t3 :
  same_aggregates t1 t2 -> same_aggregates t2 t3 -> same_aggregates t1 t3.
Proof.
  unfold same_aggregates. intros (?&?&?&?&?) (?&?&?&?&?).
  repeat split; congruence.
Qed.

Lemma budget_setter_last : budget_setter set_mLastRequestedCost.
Proof. intros d t. repeat split. Qed.
Lemma budget_setter_max : budget_setter set_mMaximumAvailable.
Proof. intros d t. repeat split. Qed.
Lemma budget_setter_current : budget_setter set_mCurrentlyAvailable.
Proof. intros d t. repeat split. Qed.
Lemma budget_setter_rate : budget_setter set_mRestoreRate.
Proof. intros d t. repeat split. Qed.

(** One guarded read: it either throws type_error 302 before writing, or
    returns after writing at most its own field. *)
Lemma read_double_into_cases parent key set t :
  (wrong_type_number parent key = true
   /\ read_double_into parent key set t = (Throw type_error_302, t))
  \/ (wrong_type_number parent key = false
      /\ exists t', read_double_into parent key set t = (Return tt, t')
           /\ (t' = t \/ exists d, t' = set d t)).
Proof.
  unfold wrong_type_number, read_double_into.
  destruct (json_find parent key) as [v|].
  - destruct v; simpl; try (left; split; reflexivity).
    right. split; [reflexivity |]. eexists. split; [reflexivity |].
    right. eexists. reflexivity.
  - right. split; [reflexivity |]. exists t. split; [reflexivity | now left].
Qed.

Lemma read_double_into_aggregates parent key set t :
  budget_setter set ->
  same_aggregates t (snd (read_double_into parent key set t)).
Proof.
  intros Hset.
  destruct (read_double_into_cases parent key set t)
    as [[_ ->] | [_ (t' & -> & [-> | [d ->]])]]; simpl.
  - apply same_aggregates_refl.
  - apply same_aggregates_refl.
  - apply Hset.
Qed.

Lemma read_double_into_last parent key set t :
  (forall d u, mLastRequestedCost (set d u) = mLastRequestedCost u) ->
  mLastRequestedCost (snd (read_double_into parent key set t))
  = mLastRequestedCost t.
Proof.
  intros Hset.
  destruct (read_double_into_cases parent key set t)
    as [[_ ->] | [_ (t' & -> & [-> | [d ->]])]]; simpl; auto.
Qed.

Lemma read_throttleStatus_cases ts t :
  let bad := wrong_type_number ts "maximumAvailable"
             || wrong_type_number ts "currentlyAvailable"
             || wrong_type_number ts "restoreRate" in
  exists r t', read_throttleStatus ts t = (r, t')
    /\ same_aggregates t t'
    /\ mLastRequestedCost t' = mLastRequestedCost t
    /\ (if bad then r = Throw type_error_302 else r = Return tt).
Proof.
  unfold read_throttleStatus, bind.
  pose proof (read_double_into_aggregates ts "maximumAvailable"
                set_mMaximumAvailable t budget_setter_max) as A1.
  pose proof (read_double_into_last ts "maximumAvailable"
                set_mMaximumAvailable t (fun _ _ => eq_refl)) as L1.
  destruct (read_double_into_cases ts "maximumAvailable"
              set_mMaximumAvailable t) as [[-> E1] | [-> (t1 & E1 & _)]];
    rewrite E1 in *; simpl in *.
  { eexists _, _. repeat split; try apply A1. }
  pose proof (read_double_into_aggregates ts "currentlyAvailable"
                set_mCurrentlyAvailable t1 budget_setter_current) as A2.
  pose proof (read_double_into_last ts "currentlyAvailable"
                set_mCurrentlyAvailable t1 (fun _ _ => eq_refl)) as L2.
  destruct (read_double_into_cases ts "currentlyAvailable"
              set_mCurrentlyAvailable t1) as [[-> E2] | [-> (t2 & E2 & _)]];
    rewrite E2 in *; simpl in *.
  { eexists _, _. split; [reflexivity |]. split; [| split];
      [apply A1 | exact L1 | reflexivity]. }
  pose proof (read_double_into_aggregates ts "restoreRate"
                set_mRestoreRate t2 budget_setter_rate) as A3.
  pose proof (read_double_into_last ts "restoreRate"
                set_mRestoreRate t2 (fun _ _ => eq_refl)) as L3.
  destruct (read_double_into_cases ts "restoreRate"
              set_mRestoreRate t2) as [[-> E3] | [-> (t3 & E3 & _)]];
    rewrite E3 in *; simpl in *.
  - eexists _, _. split; [reflexivity |]. split; [| split]; [| | reflexivity].
    + eapply same_aggregates_trans; eassumption.
    + congruence.
  - eexists _, _. split; [reflexivity |]. split; [| split]; [| | reflexivity].
    + eapply same_aggregates_trans;
        [eapply same_aggregates_trans |]; eassumption.
    + congruence.
Qed.

Lemma observeResponse_try_no_cost r t :
  has_cost_extension r = false -> observeResponse_try r t = (Return tt, t).
Proof.
  unfold has_cost_extension, contains, observeResponse_try.
  destruct (json_find r "extensions") as [e|]; [| reflexivity].
  destruct (json_find e "cost"); [discriminate | reflexivity].
Qed.

(** What the [try] block does to a response that carries a [cost] member:
    it throws exactly when a numeric subfield has the wrong type, before
    the aggregates are touched; otherwise it records one observation. *)
Lemma observeResponse_try_cost r e c t :
  json_find r "extensions" = Some e -> json_find e "cost" = Some c ->
  exists o t', observeResponse_try r t = (o, t')
    /\ if bad_number_subfield r
       then o = Throw type_error_302 /\ same_aggregates t t'
            /\ (wrong_type_number c "requestedQueryCost" = true -> t' = t)
       else o = Return tt
            /\ exists u, t' = record_observation u /\ same_aggregates t u
                 /\ (json_find c "requestedQueryCost" = None ->
                     mLastRequestedCost u = mLastRequestedCost t).
Proof.
  intros He Hc. unfold observeResponse_try, bad_number_subfield.
  rewrite He, Hc. unfold bind.
  pose proof (read_double_into_aggregates c "requestedQueryCost"
                set_mLastRequestedCost t budget_setter_last) as A1.
  assert (L1 : json_find c "requestedQueryCost" = None ->
               snd (read_double_into c "requestedQueryCost"
                      set_mLastRequestedCost t) = t).
  { intros Hn. unfold read_double_into. now rewrite Hn. }
  destruct (read_double_into_cases c "requestedQueryCost"
              set_mLastRequestedCost t) as [[-> E1] | [-> (t1 & E1 & _)]];
    rewrite E1 in *; simpl in *.
  { eexists _, _. split; [reflexivity |]. repeat split; apply A1. }
  destruct (json_find c "throttleStatus") as [ts|].
  - destruct (read_throttleStatus_cases ts t1) as (o & t2 & E2 & A2 & L2 & Ho).
    rewrite E2.
    destruct (wrong_type_number ts "maximumAvailable"
              || wrong_type_number ts "currentlyAvailable"
              || wrong_type_number ts "restoreRate"); subst o.
    + eexists _, _. split; [reflexivity |]. split; [reflexivity |].
      split; [eapply same_aggregates_trans; eassumption | discriminate].
    + eexists _, _. split; [reflexivity |]. split; [reflexivity |].
      exists t2. split; [reflexivity |].
      split; [eapply same_aggregates_trans; eassumption |].
      intros Hn. rewrite L2. now rewrite (L1 Hn).
  - eexists _, _. split; [reflexivity |]. split; [reflexivity |].
    exists t1. split; [reflexivity |]. split; [exact A1 |].
    intros Hn. now rewrite (L1 Hn).
Qed.

(** [observeResponse] never lets an exception escape. *)
Lemma observeResponse_returns r t : fst (observeResponse r t) = Return tt.
Proof.
  unfold observeResponse, try_catch.
  destruct (has_cost_extension r) eqn:Hc.
  - unfold has_cost_extension, contains in Hc.
    destruct (json_find r "extensions") as [e|] eqn:He; [| discriminate].
    destruct (json_find e "cost") as [c|] eqn:Hcost; [| discriminate].
    destruct (observeResponse_try_cost r e c t He Hcost)
      as (o & t' & -> & H).
    destruct (bad_number_subfield r).
    + destruct H as (-> & _). reflexivity.
    + destruct H as (-> & _). reflexivity.
  - now rewrite observeResponse_try_no_cost.
Qed.

Lemma observeResponse_no_cost r t :
  has_cost_extension r = false -> observeResponse r t = (Return tt, t).
Proof.
  intros H. unfold observeResponse, try_catch.
  now rewrite observeResponse_try_no_cost.
Qed.

(** C7.  A response without cost-extension data (no [extensions] member,
    or an [extensions] without [cost]) is a silent no-op for
    [observeResponse]: nothing is raised and the throttle state, hence the
    observation count, the cost sum, the average cost, the budget fields and
    the has-observed flag, is unchanged, however many such responses are
    observed. *)
Theorem C7_observe_without_cost_is_noop (rs : list json)
    (t : ThrottleController) :
  Forall (fun r => has_cost_extension r = false) rs ->
  Forall (fun r => forall u, observeResponse r u = (Return tt, u)) rs
  /\ observe_all rs t = t
  /\ totalObservations (observe_all rs t) = totalObservations t
  /\ avgQueryCost (observe_all rs t) = avgQueryCost t.
Proof.
  intros Hrs.
  assert (Hall : observe_all rs t = t).
  { unfold observe_all. induction Hrs as [| r rs Hr _ IH]; [reflexivity |].
    simpl. rewrite (observeResponse_no_cost r t Hr). exact IH. }
  split; [| rewrite Hall; auto].
  eapply Forall_impl; [exact Hrs |].
  intros r Hr u. now apply observeResponse_no_cost.
Qed.

Lemma C7_observe_without_cost_is_noop_witness :
  let rs := [obj [("data", obj [("products", JNull)])];
             obj [("data", JNull); ("extensions", obj [])];
             response_extensions_not_object] in
  observe_all rs (ThrottleController_new 20) = ThrottleController_new 20.
Proof.
  intros rs.
  apply (C7_observe_without_cost_is_noop rs (ThrottleController_new 20)).
  repeat constructor.
Defined.

(** C8 as the design document words it fails: [requestedQueryCost] is read
    into the throttle before the string in [throttleStatus.restoreRate]
    makes [get<double>()] throw, and the handler does not roll back. *)
Lemma C8_malformed_is_full_noop_counterexample :
  ~ (malformed_cost_extension response_bad_restoreRate = true ->
     fst (observeResponse response_bad_restoreRate
            (ThrottleController_new 20)) = Return tt
     /\ throttle_unchanged (ThrottleController_new 20)
          (snd (observeResponse response_bad_restoreRate
                  (ThrottleController_new 20)))).
Proof.
  intros H. destruct (H eq_refl) as (_ & _ & Hlast & _).
  apply (f_equal (fun d => (d =? 0)%float)) in Hlast.
  vm_compute in Hlast. discriminate.
Qed.

(** One guarded read, in closed form. *)
Lemma read_double_into_run parent key set t :
  read_double_into parent key set t
  = if wrong_type_number parent key then (Throw type_error_302, t)
    else (Return tt,
          match json_find parent key with
          | Some (JNum n) => set (number_to_double n) t
          | _ => t
          end).
Proof.
  unfold wrong_type_number, read_double_into.
  destruct (json_find parent key) as [[| b | n | s | l | m] |];
    reflexivity.
Qed.

(** The budget fields after a swallowed type error: the reads before the
    throw have been stored, the others have not happened. *)
Lemma observeResponse_swallowed_fields (r cost : json)
    (t : ThrottleController) :
  cost_member r = Some cost ->
  bad_number_subfield r = true ->
  let t' := snd (observeResponse r t) in
  mLastRequestedCost t'
    = (if wrong_type_number cost "requestedQueryCost"
       then mLastRequestedCost t
       else updated cost "requestedQueryCost" (mLastRequestedCost t))
  /\ mMaximumAvailable t'
     = (if throws_by_maximum cost then mMaximumAvailable t
        else updated_status cost "maximumAvailable" (mMaximumAvailable t))
  /\ mCurrentlyAvailable t'
     = (if throws_by_currently cost then mCurrentlyAvailable t
        else updated_status cost "currentlyAvailable"
               (mCurrentlyAvailable t))
  /\ mRestoreRate t' = mRestoreRate t.
Proof.
  unfold cost_member, bad_number_subfield.
  destruct (json_find r "extensions") as [e |] eqn:He; [| discriminate].
  intros Hcost. rewrite Hcost. cbv zeta. intros Hbad.
  unfold observeResponse, try_catch, observeResponse_try.
  rewrite He, Hcost. unfold bind.
  unfold throws_by_currently, throws_by_maximum, wrong_status_number,
    updated_status.
  rewrite read_double_into_run.
  destruct (wrong_type_number cost "requestedQueryCost") eqn:W0;
    [repeat split |].
  cbn [orb] in Hbad |- *.
  destruct (json_find cost "throttleStatus") as [ts |]; [| discriminate].
  unfold read_throttleStatus, bind.
  rewrite read_double_into_run.
  destruct (wrong_type_number ts "maximumAvailable") eqn:W1.
  { cbn. unfold updated.
    destruct (json_find cost "requestedQueryCost")
      as [[| ? | ? | ? | ? | ?] |]; repeat split. }
  rewrite read_double_into_run.
  destruct (wrong_type_number ts "currentlyAvailable") eqn:W2.
  { cbn. unfold updated.
    destruct (json_find cost "requestedQueryCost")
      as [[| ? | ? | ? | ? | ?] |];
      destruct (json_find ts "maximumAvailable")
        as [[| ? | ? | ? | ? | ?] |]; repeat split. }
  rewrite read_double_into_run.
  destruct (wrong_type_number ts "restoreRate") eqn:W3; [| discriminate].
  cbn. unfold updated.
  destruct (json_find cost "requestedQueryCost")
    as [[| ? | ? | ? | ? | ?] |];
    destruct (json_find ts "maximumAvailable")
      as [[| ? | ? | ? | ? | ?] |];
    destruct (json_find ts "currentlyAvailable")
      as [[| ? | ? | ? | ? | ?] |]; repeat split.
Qed.

(** C8, amended.  [observeResponse] never raises, whatever the response.
    When one of the numeric subfields ([requestedQueryCost],
    [throttleStatus.maximumAvailable], [.currentlyAvailable],
    [.restoreRate]) is present with a non-numeric type, the exception is
    swallowed and the cumulative cost sum, the observation count, the
    has-observed flag, the sleep total and the safety margin are unchanged;
    of the budget fields, those read before the offending subfield (in the
    order [requestedQueryCost], [maximumAvailable], [currentlyAvailable],
    [restoreRate]) hold the value read where the subfield is present, and
    the others, [restoreRate] always among them, keep their old value.
    The whole state is unchanged when the offending subfield is
    [requestedQueryCost], or when [extensions] is not an object. *)
Theorem C8_observe_swallows_malformed_cost (r : json)
    (t : ThrottleController) :
  let t' := snd (observeResponse r t) in
  fst (observeResponse r t) = Return tt
  /\ (bad_number_subfield r = true -> same_aggregates t t')
  /\ (forall cost, cost_member r = Some cost ->
        bad_number_subfield r = true ->
        mLastRequestedCost t'
          = (if wrong_type_number cost "requestedQueryCost"
             then mLastRequestedCost t
             else updated cost "requestedQueryCost" (mLastRequestedCost t))
        /\ mMaximumAvailable t'
           = (if throws_by_maximum cost then mMaximumAvailable t
              else updated_status cost "maximumAvailable"
                     (mMaximumAvailable t))
        /\ mCurrentlyAvailable t'
           = (if throws_by_currently cost then mCurrentlyAvailable t
              else updated_status cost "currentlyAvailable"
                     (mCurrentlyAvailable t))
        /\ mRestoreRate t' = mRestoreRate t)
  /\ (forall e c, json_find r "extensions" = Some e ->
        json_find e "cost" = Some c ->
        wrong_type_number c "requestedQueryCost" = true -> t' = t)
  /\ (forall e, json_find r "extensions" = Some e ->
        is_object e = false -> t' = t).
Proof.
  intros t'. split; [apply observeResponse_returns |].
  split; [| split; [| split]].
  - intros Hbad.
    assert (Hc : has_cost_extension r = true).
    { unfold bad_number_subfield in Hbad.
      unfold has_cost_extension, contains.
      destruct (json_find r "extensions") as [e|]; [| discriminate].
      destruct (json_find e "cost"); [reflexivity | discriminate]. }
    unfold has_cost_extension, contains in Hc.
    destruct (json_find r "extensions") as [e|] eqn:He; [| discriminate].
    destruct (json_find e "cost") as [c|] eqn:Hcost; [| discriminate].
    destruct (observeResponse_try_cost r e c t He Hcost)
      as (o & u & Htry & H).
    rewrite Hbad in H. destruct H as (-> & Hagg & _).
    subst t'. unfold observeResponse, try_catch. rewrite Htry. exact Hagg.
  - intros cost Hcost Hbad.
    exact (observeResponse_swallowed_fields r cost t Hcost Hbad).
  - intros e c He Hcost Hwrong.
    destruct (observeResponse_try_cost r e c t He Hcost)
      as (o & u & Htry & H).
    assert (Hbad : bad_number_subfield r = true).
    { unfold bad_number_subfield. now rewrite He, Hcost, Hwrong. }
    rewrite Hbad in H. destruct H as (-> & _ & Hsame).
    subst t'. unfold observeResponse, try_catch. rewrite Htry. simpl.
    now apply Hsame.
  - intros e He Hobj. subst t'.
    rewrite observeResponse_no_cost; [reflexivity |].
    unfold has_cost_extension. rewrite He.
    destruct e; try reflexivity. discriminate.
Qed.

Lemma C8_observe_swallows_malformed_cost_witness :
  let t' := snd (observeResponse response_bad_restoreRate
                   (ThrottleController_new 20)) in
  (same_aggregates (ThrottleController_new 20) t'
   /\ mLastRequestedCost t' = 30%float
   /\ mRestoreRate t' = 50%float)
  /\ snd (observeResponse response_bad_requestedQueryCost
            (ThrottleController_new 20)) = ThrottleController_new 20
  /\ snd (observeResponse response_extensions_not_object
            (ThrottleController_new 20)) = ThrottleController_new 20.
Proof.
  intros t'. split; [| split].
  - destruct (C8_observe_swallows_malformed_cost response_bad_restoreRate
                (ThrottleController_new 20)) as (_ & Hagg & Hfields & _).
    destruct (Hfields _ eq_refl eq_refl) as (Hlast & _ & _ & Hrate).
    split; [exact (Hagg eq_refl) |]. split; [exact Hlast | exact Hrate].
  - destruct (C8_observe_swallows_malformed_cost
                response_bad_requestedQueryCost (ThrottleController_new 20))
      as (_ & _ & _ & H & _).
    eapply H; reflexivity.
  - destruct (C8_observe_swallows_malformed_cost
                response_extensions_not_object (ThrottleController_new 20))
      as (_ & _ & _ & _ & H).
    eapply H; reflexivity.
Defined.

(** A [cost] member that is not an object has no subfields to read; the
    response is then counted as an observation of the stale last cost. *)
Example observe_cost_not_object_is_counted :
  let t := snd (observeResponse
                  (obj [("extensions", obj [("cost", JStr "oops")])])
                  (ThrottleController_new 20)) in
  mObservationCount t = 1 /\ mHasObserved t = true.
Proof. vm_compute. split; reflexivity. Qed.




(* ------------------------------------------------------------------ *)
(** ** Backoff *)

Lemma wrap64_small z : - 2 ^ 63 <= z < 2 ^ 63 -> wrap64 z = z.
Proof. intros Hz. unfold wrap64. rewrite Z.mod_small; lia. Qed.

Lemma pow2_attempt_bounds attempt :
  0 <= attempt <= 55 -> 1 <= 2 ^ attempt <= 2 ^ 55.
Proof.
  intros [Hlo Hhi]. split.
  - change 1 with (2 ^ 0). apply Z.pow_le_mono_r; lia.
  - apply Z.pow_le_mono_r; lia.
Qed.

Lemma backoff_floor_range attempt :
  0 <= attempt -> 200 <= backoff_floor attempt <= 5000.
Proof.
  intros Hlo. unfold backoff_floor, kBaseMs, kMaxMs.
  assert (1 <= 2 ^ attempt)
    by (change 1 with (2 ^ 0); apply Z.pow_le_mono_r; lia).
  lia.
Qed.

Lemma backoff_floor_mono a b :
  0 <= a <= b -> backoff_floor a <= backoff_floor b.
Proof.
  intros Hab. unfold backoff_floor, kBaseMs.
  apply Z.min_le_compat_r. apply Z.mul_le_mono_nonneg_l; [lia |].
  apply Z.pow_le_mono_r; lia.
Qed.

Lemma backoff_floor_clamped attempt : 5 <= attempt -> backoff_floor attempt = 5000.
Proof.
  intros H5. unfold backoff_floor, kBaseMs, kMaxMs.
  assert (2 ^ 5 <= 2 ^ attempt) by (apply Z.pow_le_mono_r; lia).
  change (2 ^ 5) with 32 in *. lia.
Qed.

Lemma computeBackoffMs_default attempt jitter :
  0 <= attempt <= 55 -> 0 <= jitter <= 100 ->
  computeBackoffMs attempt kBaseMs kMaxMs jitter
  = backoff_floor attempt + jitter.
Proof.
  intros Ha Hj. unfold computeBackoffMs, backoff_floor.
  rewrite Z.shiftl_1_l.
  pose proof (pow2_attempt_bounds attempt Ha) as Hp.
  change (2 ^ 55) with 36028797018963968 in Hp.
  unfold kBaseMs, kMaxMs in *.
  rewrite (wrap64_small (2 ^ attempt)) by lia.
  rewrite (wrap64_small (200 * 2 ^ attempt)) by lia.
  apply wrap64_small. lia.
Qed.

(** C6 as worded fails: the jitter distribution is
    [uniform_int_distribution(0, 100)], both ends included, so attempt 0
    can wait 300 ms, outside [200, 300). *)
Lemma C6_backoff_half_open_counterexample :
  ~ (forall attempt jitter, 0 <= attempt -> 0 <= jitter <= 100 ->
       backoff_floor attempt
       <= computeBackoffMs attempt kBaseMs kMaxMs jitter
       < backoff_floor attempt + 100).
Proof.
  intros H.
  assert (H300 : computeBackoffMs 0 kBaseMs kMaxMs 100 < backoff_floor 0 + 100)
    by (apply H; lia).
  change (300 < 300) in H300. lia.
Qed.

(** C6, amended.  For every attempt index from 0 to 55 (beyond, the
    [int64_t] product overflows) and every jitter draw in 0..100, the
    backoff is [min(200 * 2^attempt, 5000)] plus the jitter and lies in the
    closed interval from that minimum to the minimum plus 100: attempt 0 in
    [200, 300], attempt 1 in [400, 500], attempts 5 and up in
    [5000, 5100]; the lower bound never decreases with the attempt. *)
Theorem C6_backoff_closed_interval (attempt jitter : Z) :
  0 <= attempt <= 55 -> 0 <= jitter <= 100 ->
  let b := computeBackoffMs attempt kBaseMs kMaxMs jitter in
  b = Z.min (200 * 2 ^ attempt) 5000 + jitter
  /\ backoff_floor attempt <= b <= backoff_floor attempt + 100
  /\ (attempt = 0 -> 200 <= b <= 300)
  /\ (attempt = 1 -> 400 <= b <= 500)
  /\ (5 <= attempt -> 5000 <= b <= 5100)
  /\ (forall later, attempt <= later ->
        backoff_floor attempt <= backoff_floor later).
Proof.
  intros Ha Hj b. subst b. rewrite (computeBackoffMs_default _ _ Ha Hj).
  split; [reflexivity |]. split; [lia |].
  split; [intros ->; change (backoff_floor 0) with 200; lia |].
  split; [intros ->; change (backoff_floor 1) with 400; lia |].
  split.
  - intros H5. rewrite (backoff_floor_clamped _ H5). lia.
  - intros later Hl. apply backoff_floor_mono. lia.
Qed.

Lemma C6_backoff_closed_interval_witness :
  computeBackoffMs 0 kBaseMs kMaxMs 100 = 300
  /\ 400 <= computeBackoffMs 1 kBaseMs kMaxMs 37 <= 500
  /\ 5000 <= computeBackoffMs 10 kBaseMs kMaxMs 100 <= 5100.
Proof.
  split; [| split].
  - destruct (C6_backoff_closed_interval 0 100) as (H & _); [lia | lia |].
    exact H.
  - destruct (C6_backoff_closed_interval 1 37) as (_ & _ & _ & H & _);
      [lia | lia |].
    apply H. reflexivity.
  - destruct (C6_backoff_closed_interval 10 100) as (_ & _ & _ & _ & H & _);
      [lia | lia |].
    apply H. lia.
Defined.

(** Past attempt 55 the product leaves [int64_t]; at attempt 61 it wraps
    to zero and the wait is the jitter alone. *)
Example computeBackoffMs_wraps_at_61 :
  computeBackoffMs 61 kBaseMs kMaxMs 0 = 0.
Proof. reflexivity. Qed.

(* ------------------------------------------------------------------ *)
(** ** Mapper *)

Lemma get_string_Return v s : get_string v = Return s -> v = JStr s.
Proof. destruct v; simpl; intros [=]. now subst. Qed.

(** One edge: the record of its node is appended, its cursor replaces the
    page cursor. *)
Lemma parse_edge_spec r edge r' :
  parse_edge r edge = Return r' ->
  hasNextPage r' = hasNextPage r
  /\ lastCursor r' = (if contains edge "cursor" then edge_cursor edge
                      else lastCursor r)
  /\ match json_find edge "node" with
     | Some node => exists p, parseProductNode node = Return p
                              /\ products r' = products r ++ [p]
     | None => products r' = products r
     end.
Proof.
  unfold parse_edge, contains, edge_cursor.
  destruct (json_find edge "node") as [node|].
  - destruct (parseProductNode node) as [p|]; simpl; [| discriminate].
    destruct (json_find edge "cursor") as [c|]; simpl.
    + destruct (get_string c) as [s|] eqn:Hs; simpl; [| discriminate].
      apply get_string_Return in Hs. subst c. intros [= <-]. simpl. eauto.
    + intros [= <-]. simpl. eauto.
  - simpl. destruct (json_find edge "cursor") as [c|]; simpl.
    + destruct (get_string c) as [s|] eqn:Hs; simpl; [| discriminate].
      apply get_string_Return in Hs. subst c. intros [= <-]. simpl. eauto.
    + intros [= <-]. eauto.
Qed.

(** The edge loop: records in edge order, and the cursor of the last
    edge that carries one. *)
Lemma parse_edges_spec edges : forall r r',
  parse_edges edges r = Return r' ->
  hasNextPage r' = hasNextPage r
  /\ lastCursor r'
     = match last (List.filter (fun e => contains e "cursor") edges) with
       | Some e => edge_cursor e
       | None => lastCursor r
       end
  /\ exists ps, products r' = products r ++ ps
       /\ Forall2 (fun node p => parseProductNode node = Return p)
            (omap (fun e => json_find e "node") edges) ps.
Proof.
  induction edges as [| edge rest IH]; intros r r'; simpl.
  - intros [= <-]. repeat split. exists []. split; [| constructor].
    now rewrite app_nil_r.
  - destruct (parse_edge r edge) as [r1|] eqn:Hedge; simpl; [| discriminate].
    intros Hrest.
    destruct (parse_edge_spec _ _ _ Hedge) as (Hh1 & Hc1 & Hp1).
    destruct (IH _ _ Hrest) as (Hh & Hc & ps & Hp & Hall).
    split; [congruence |]. split.
    + rewrite Hc.
      destruct (contains edge "cursor") eqn:Hcur; simpl.
      * rewrite last_cons.
        destruct (last (List.filter _ rest)); [reflexivity | exact Hc1].
      * destruct (last (List.filter _ rest)); [reflexivity | exact Hc1].
    + destruct (json_find edge "node") as [node|]; simpl.
      * destruct Hp1 as (p & Hnode & Hp1). exists (p :: ps).
        split; [| now constructor].
        rewrite Hp, Hp1, <- app_assoc. reflexivity.
      * exists ps. split; [congruence | exact Hall].
Qed.

(** The page the mapper returns, read off the response's edges. *)
Lemma parseProductsPage_spec responseBody page :
  parseProductsPage responseBody = Return page ->
  lastCursor page = last_edge_cursor (response_edges responseBody)
  /\ Forall2 (fun node p => parseProductNode node = Return p)
       (omap (fun e => json_find e "node") (response_edges responseBody))
       (products page).
Proof.
  unfold parseProductsPage, response_edges, last_edge_cursor.
  destruct (json_find responseBody "data") as [data|]; [| discriminate].
  destruct (is_null data) eqn:Hnull.
  { destruct data; try discriminate. intros [= <-]. simpl.
    split; [reflexivity | constructor]. }
  destruct (json_find data "products") as [pj|]; [| discriminate].
  destruct (parse_edges (edges_of pj) PageResult_new) as [r|] eqn:Hedges;
    simpl; [| discriminate].
  destruct (parse_edges_spec _ _ _ Hedges) as (_ & Hc & ps & Hp & Hall).
  simpl in Hp, Hc. subst ps.
  assert (Hc' : lastCursor r
                = match last (List.filter (fun e => contains e "cursor")
                                (edges_of pj)) with
                  | Some e => edge_cursor e
                  | None => None
                  end) by exact Hc.
  destruct (json_find pj "pageInfo") as [pageInfo|].
  - destruct (json_value get_bool pageInfo "hasNextPage" false); simpl;
      [| discriminate].
    intros [= <-]. simpl. split; [exact Hc' | exact Hall].
  - intros [= <-]. split; [exact Hc' | exact Hall].
Qed.






(* ------------------------------------------------------------------ *)
(** ** Traces *)

Lemma replies_of_app a b : replies_of (a ++ b) = replies_of a ++ replies_of b.
Proof.
  induction a as [| [ms | v reply] a IH]; simpl; [reflexivity | exact IH |].
  now rewrite IH.
Qed.

Lemma requests_of_app a b :
  requests_of (a ++ b) = requests_of a ++ requests_of b.
Proof.
  induction a as [| [ms | v reply] a IH]; simpl; [reflexivity | exact IH |].
  now rewrite IH.
Qed.

Lemma sleeps_of_app a b : sleeps_of (a ++ b) = sleeps_of a ++ sleeps_of b.
Proof.
  induction a as [| [ms | v reply] a IH]; simpl; [reflexivity | | exact IH].
  now rewrite IH.
Qed.

Lemma delivered_records_app a b :
  delivered_records (a ++ b) = delivered_records a ++ delivered_records b.
Proof.
  unfold delivered_records.
  now rewrite replies_of_app, omap_app, map_app, concat_app.
Qed.

Lemma delivered_records_execute v reply :
  delivered_records [EvExecute v reply] = delivered_of reply.
Proof.
  unfold delivered_records, delivered_of. simpl.
  destruct (delivered_body reply); simpl; [apply app_nil_r | reflexivity].
Qed.

Lemma delivered_records_quiet tr : quiet tr -> delivered_records tr = [].
Proof.
  unfold quiet, delivered_records. intros Hq.
  induction Hq as [| reply rs Hr _ IH]; simpl; [reflexivity |].
  now rewrite Hr.
Qed.

Lemma quiet_app a b : quiet a -> quiet b -> quiet (a ++ b).
Proof.
  unfold quiet. rewrite replies_of_app. intros Ha Hb.
  apply Forall_app. now split.
Qed.

Lemma all_requests_app v a b :
  all_requests v a -> all_requests v b -> all_requests v (a ++ b).
Proof.
  unfold all_requests. rewrite requests_of_app. intros Ha Hb.
  apply Forall_app. now split.
Qed.

Lemma asks_min_from_app L P a : forall acc b,
  asks_min_from L P acc (a ++ b)
  = asks_min_from L P acc a
    && asks_min_from L P (acc + length (delivered_records a)) b.
Proof.
  induction a as [| [ms | v reply] a IH]; intros acc b; simpl.
  - now rewrite Nat.add_0_r.
  - apply IH.
  - destruct (requested_first v) as [n|]; [| reflexivity].
    rewrite IH, <- andb_assoc. do 2 f_equal.
    change (EvExecute v reply :: a) with ([EvExecute v reply] ++ a).
    rewrite delivered_records_app, delivered_records_execute.
    rewrite length_app. f_equal. lia.
Qed.

(** Calls that all carry [v] and deliver nothing keep the check, when [v]
    asks for the minimum. *)
Lemma asks_min_from_quiet L P acc v tr :
  requested_first v = Some (Z.min P (L - Z.of_nat acc)) ->
  all_requests v tr -> quiet tr -> asks_min_from L P acc tr = true.
Proof.
  intros Hv. unfold all_requests, quiet.
  induction tr as [| [ms | v' reply] tr IH]; simpl; intros Hreq Hq;
    [reflexivity | now apply IH |].
  inversion Hreq as [| ? ? -> Hreq']; subst.
  inversion Hq as [| ? ? Hr Hq']; subst.
  rewrite Hv, Z.eqb_refl. simpl.
  unfold delivered_of. rewrite Hr. simpl. rewrite Nat.add_0_r.
  now apply IH.
Qed.

(** The walking check gives the prefix formulation. *)
Lemma asks_min_from_requests_ask_min L P tr :
  asks_min_from L P 0 tr = true -> requests_ask_min L P tr.
Proof.
  intros Hall pre v reply post ->.
  rewrite asks_min_from_app in Hall. apply andb_true_iff in Hall as [_ Hall].
  simpl in Hall. destruct (requested_first v) as [n|]; [| discriminate].
  apply andb_true_iff in Hall as [Hn _]. apply Z.eqb_eq in Hn. now subst.
Qed.

(** With responses within their requests, the delivered count never passes
    [totalLimit], and each delivered page has at most [pageSize] records. *)
Lemma asks_min_from_bounds L P tr : forall acc,
  0 < P ->
  asks_min_from L P acc tr = true ->
  Forall (fun e => within_request e = true) tr ->
  Z.of_nat acc <= L ->
  Z.of_nat (acc + length (delivered_records tr)) <= L
  /\ Z.of_nat (length (delivered_records tr))
     <= P * Z.of_nat (length (requests_of tr)).
Proof.
  induction tr as [| [ms | v reply] tr IH]; intros acc HP Hall Hin Hacc.
  - simpl. split; lia.
  - inversion Hin; subst. now apply IH.
  - inversion Hin as [| ? ? He Hin']; subst. simpl in Hall.
    change (EvExecute v reply :: tr) with ([EvExecute v reply] ++ tr).
    rewrite delivered_records_app, delivered_records_execute, length_app.
    simpl in He. unfold delivered_of in *.
    destruct (requested_first v) as [n|] eqn:Hn.
    + apply andb_true_iff in Hall as [Hmin Hall]. apply Z.eqb_eq in Hmin.
      destruct (delivered_body reply) as [b|].
      * apply Z.leb_le in He.
        destruct (IH (acc + length (records_of b))%nat HP Hall Hin')
          as [IH1 IH2]; [lia |].
        simpl. split; lia.
      * simpl in *. destruct (IH (acc + 0)%nat HP Hall Hin') as [IH1 IH2];
          [lia |].
        split; lia.
    + discriminate.
Qed.

(* ------------------------------------------------------------------ *)
(** ** Retry policy *)

Lemma prefix_append a b : String.prefix a (a +:+ b) = true.
Proof.
  induction a as [| c a IH]; simpl; [now destruct b |].
  destruct (Ascii.ascii_dec c c); [exact IH | contradiction].
Qed.

Lemma str_contains_of_prefix needle hay :
  String.prefix needle hay = true -> str_contains needle hay = true.
Proof. destruct hay; simpl; intros ->; reflexivity. Qed.

Lemma str_contains_prefix a b : str_contains a (a +:+ b) = true.
Proof. apply str_contains_of_prefix, prefix_append. Qed.

Section RetryFacts.
Context {W G : Type} `{Environment W G}.
Implicit Types (p : Paginator W G) (q : string) (v : json).

(** One attempt, by what the transport replies. *)
Lemma attempt_body_cases q v attempt p :
  let p1 := after_execute q v p in
  let p3 := after_draw (incr_totalRetries p1) in
  let backoff := computeBackoffMs attempt kBaseMs kMaxMs
                   (fst (uniform_jitter (rng p))) in
  attempt_body q v attempt p =
  match fst (execute q v (mClient p)) with
  | Return resp =>
      if isRetryableStatus (httpStatus resp) then
        if attempt =? kMaxAttempts - 1 then
          (Throw (RuntimeError ("Max retries exceeded.  Last HTTP status: "
                                +:+ to_string (httpStatus resp))), p3)
        else (Return Again, log (EvSleepMs backoff) p3)
      else (Return (Done (body resp)), p1)
  | Throw e =>
      if is_runtime_error e then
        if str_contains "Max retries exceeded" (what e) then (Throw e, p1)
        else if attempt =? kMaxAttempts - 1 then
          (Throw (RuntimeError ("Max retries exceeded.  Last error: "
                                +:+ what e)), incr_totalRetries p1)
        else (Return Again, log (EvSleepMs backoff) p3)
      else (Throw e, p1)
  end.
Proof.
  intros p1 p3 backoff. subst p1 p3 backoff.
  unfold attempt_body, try_catch, attempt_try, bind, client_execute,
    after_execute, after_draw.
  destruct (execute q v (mClient p)) as [[resp | e] w]; simpl.
  - destruct (isRetryableStatus (httpStatus resp)); [| reflexivity].
    unfold backoff_for, modify. simpl.
    destruct (uniform_jitter (rng p)) as [j g]; simpl.
    destruct (attempt =? kMaxAttempts - 1); [| reflexivity].
    (* the sentinel thrown inside the [try] block meets the handler,
       whose [find] recognises it and rethrows *)
    unfold throw, attempt_catch. simpl. reflexivity.
  - destruct (is_runtime_error e); [| reflexivity].
    unfold attempt_catch.
    destruct (str_contains "Max retries exceeded" (what e));
      [reflexivity |].
    unfold bind, modify, throw, backoff_for, sleep_for. simpl.
    destruct (attempt =? kMaxAttempts - 1); [reflexivity |].
    unfold incr_totalRetries, set_mStats. simpl.
    destruct (uniform_jitter (rng p)) as [j g]; reflexivity.
Qed.

Lemma isRetryableStatus_false (status : N) :
  isRetryableStatus status = false <-> (status <> 429 /\ status < 500)%N.
Proof.
  unfold isRetryableStatus. rewrite orb_false_iff.
  rewrite N.eqb_neq, N.leb_gt. reflexivity.
Qed.

Lemma quiet_single v reply :
  delivered_body reply = None -> quiet [EvExecute v reply].
Proof. intros Hr. unfold quiet. simpl. now constructor. Qed.

Lemma quiet_attempt v reply ms :
  delivered_body reply = None -> quiet [EvExecute v reply; EvSleepMs ms].
Proof. intros Hr. unfold quiet. simpl. now constructor. Qed.

Lemma all_requests_single v reply : all_requests v [EvExecute v reply].
Proof. unfold all_requests. simpl. now constructor. Qed.

Lemma all_requests_attempt v reply ms :
  all_requests v [EvExecute v reply; EvSleepMs ms].
Proof. unfold all_requests. simpl. now constructor. Qed.

(** What one attempt does to the paginator, by how it ends. *)
Lemma attempt_body_step q v attempt p :
  let reply := fst (execute q v (mClient p)) in
  let r := fst (attempt_body q v attempt p) in
  let p' := snd (attempt_body q v attempt p) in
  mThrottle p' = mThrottle p
  /\ totalRequests (mStats p') = totalRequests (mStats p)
  /\ match r with
     | Return (Done b) =>
         delivered_body reply = Some b /\ p' = after_execute q v p
     | Return Again =>
         delivered_body reply = None /\ retryable_reply reply = true
         /\ attempt <> kMaxAttempts - 1
         /\ exists ms, trace p' = trace p ++ [EvExecute v reply; EvSleepMs ms]
     | Throw e =>
         delivered_body reply = None
         /\ trace p' = trace p ++ [EvExecute v reply]
         /\ (retryable_reply reply = true ->
             exists msg, e = RuntimeError msg
               /\ str_contains "Max retries exceeded" msg = true
               /\ match reply with
                  | Return resp =>
                      attempt = kMaxAttempts - 1
                      /\ msg = "Max retries exceeded.  Last HTTP status: "
                               +:+ to_string (httpStatus resp)
                  | Throw e' =>
                      (attempt = kMaxAttempts - 1
                       /\ msg = "Max retries exceeded.  Last error: "
                                +:+ what e')
                      \/ (e = e'
                          /\ str_contains "Max retries exceeded" (what e')
                             = true)
                  end)
     end.
Proof.
  intros reply r p'. subst reply r p'. rewrite attempt_body_cases.
  unfold delivered_body, retryable_reply.
  destruct (fst (execute q v (mClient p))) as [resp | e] eqn:Hreply.
  - destruct (isRetryableStatus (httpStatus resp)) eqn:Hst; simpl.
    + destruct (Z.eqb_spec attempt (kMaxAttempts - 1)) as [Ha | Ha]; simpl.
      * split; [reflexivity |]. split; [reflexivity |].
        split; [reflexivity |]. split; [now rewrite Hreply |].
        intros _. eexists. split; [reflexivity |].
        split; [| now split].
        apply (str_contains_prefix "Max retries exceeded"
                 (".  Last HTTP status: " +:+ to_string (httpStatus resp))).
      * split; [reflexivity |]. split; [reflexivity |].
        split; [reflexivity |]. split; [reflexivity |].
        split; [exact Ha |]. eexists. rewrite Hreply.
        now rewrite <- app_assoc.
    + repeat split.
  - destruct (is_runtime_error e) eqn:Hrt; simpl.
    + destruct (str_contains "Max retries exceeded" (what e)) eqn:Hs; simpl.
      * split; [reflexivity |]. split; [reflexivity |].
        split; [reflexivity |]. split; [now rewrite Hreply |].
        intros _. destruct e as [msg | msg | msg]; try discriminate.
        exists msg. split; [reflexivity |]. split; [exact Hs |].
        right. now split.
      * destruct (Z.eqb_spec attempt (kMaxAttempts - 1)) as [Ha | Ha]; simpl.
        -- split; [reflexivity |]. split; [reflexivity |].
           split; [reflexivity |]. split; [now rewrite Hreply |].
           intros _. eexists. split; [reflexivity |].
           split; [| left; now split].
           apply (str_contains_prefix "Max retries exceeded"
                    (".  Last error: " +:+ what e)).
        -- split; [reflexivity |]. split; [reflexivity |].
           split; [reflexivity |]. split; [reflexivity |].
           split; [exact Ha |]. eexists. rewrite Hreply.
           now rewrite <- app_assoc.
    + split; [reflexivity |]. split; [reflexivity |].
      split; [reflexivity |]. split; [now rewrite Hreply | discriminate].
Qed.

(** A whole call of the retry loop: it leaves the throttle and the
    request counter alone, all its transport calls carry the same
    variables, and only the reply it returns, if any, is delivered. *)
Lemma retry_loop_trace q v n : forall attempt p,
  let r := fst (retry_loop n attempt q v p) in
  let p' := snd (retry_loop n attempt q v p) in
  mThrottle p' = mThrottle p
  /\ totalRequests (mStats p') = totalRequests (mStats p)
  /\ exists tr, trace p' = trace p ++ tr /\ all_requests v tr
       /\ match r with
          | Return b =>
              exists trq reply, tr = trq ++ [EvExecute v reply]
                /\ quiet trq /\ delivered_body reply = Some b
          | Throw _ => quiet tr
          end.
Proof.
  induction n as [| n IH]; intros attempt p; simpl.
  - split; [reflexivity |]. split; [reflexivity |].
    exists []. rewrite app_nil_r. repeat split; constructor.
  - unfold bind.
    pose proof (attempt_body_step q v attempt p) as Hstep. simpl in Hstep.
    destruct (attempt_body q v attempt p) as [[[b |] | e] p1];
      simpl in Hstep |- *; destruct Hstep as (Ht & Hq & Hstep).
    + destruct Hstep as (Hdel & ->). split; [reflexivity |].
      split; [reflexivity |].
      exists [EvExecute v (fst (execute q v (mClient p)))].
      split; [reflexivity |]. split; [apply all_requests_single |].
      exists [], (fst (execute q v (mClient p))).
      repeat split; [constructor | exact Hdel].
    + destruct Hstep as (Hdel & _ & _ & ms & Htr).
      destruct (IH (attempt + 1) p1) as (Ht' & Hq' & tr & Htr' & Hreq & Hr).
      split; [congruence |]. split; [congruence |].
      exists ([EvExecute v (fst (execute q v (mClient p))); EvSleepMs ms]
              ++ tr).
      split; [rewrite Htr', Htr, <- app_assoc; reflexivity |].
      split; [apply all_requests_app;
              [apply all_requests_attempt | exact Hreq] |].
      destruct (fst (retry_loop n (attempt + 1) q v p1)) as [b | e].
      * destruct Hr as (trq & reply & -> & Hquiet & Hb).
        eexists (_ ++ trq), reply. split; [now rewrite app_assoc |].
        split; [| exact Hb].
        apply quiet_app; [now apply quiet_attempt | exact Hquiet].
      * apply quiet_app; [now apply quiet_attempt | exact Hr].
    + destruct Hstep as (Hdel & Htr & _).
      split; [exact Ht |]. split; [exact Hq |].
      eexists. split; [exact Htr |].
      split; [apply all_requests_single | now apply quiet_single].
Qed.

Lemma delivered_not_retryable reply b :
  delivered_body reply = Some b -> retryable_reply reply = false.
Proof.
  unfold delivered_body, retryable_reply.
  destruct reply as [resp | e]; [| discriminate].
  now destruct (isRetryableStatus (httpStatus resp)).
Qed.

(** When every one of the [n] attempts left is made and ends in a
    retryable reply, the loop ends by throwing the sentinel at the last
    of them. *)
Lemma retry_loop_exhausted q v n : forall attempt p tr,
  attempt = kMaxAttempts - Z.of_nat n -> (1 <= n)%nat ->
  trace (snd (retry_loop n attempt q v p)) = trace p ++ tr ->
  length (replies_of tr) = n ->
  Forall (fun reply => retryable_reply reply = true) (replies_of tr) ->
  exists msg pre reply,
    fst (retry_loop n attempt q v p) = Throw (RuntimeError msg)
    /\ str_contains "Max retries exceeded" msg = true
    /\ tr = pre ++ [EvExecute v reply]
    /\ carries_last reply msg.
Proof.
  induction n as [| n IH]; intros attempt p tr Hattempt Hn Htrace Hlen Hall;
    [lia |].
  simpl in Htrace |- *. unfold bind in Htrace |- *.
  pose proof (attempt_body_step q v attempt p) as Hstep. simpl in Hstep.
  destruct (attempt_body q v attempt p) as [[[b |] | e] p1];
    simpl in Hstep, Htrace |- *; destruct Hstep as (_ & _ & Hstep).
  - destruct Hstep as (Hdel & ->). unfold after_execute in Htrace.
    simpl in Htrace. apply app_inv_head in Htrace. subst tr.
    simpl in Hall. apply Forall_cons in Hall as [Hr _].
    rewrite (delivered_not_retryable _ _ Hdel) in Hr. discriminate.
  - destruct Hstep as (_ & _ & Hnot & ms & Htr1).
    destruct (retry_loop_trace q v n (attempt + 1) p1)
      as (_ & _ & tr' & Htr' & _).
    rewrite Htr', Htr1, <- app_assoc in Htrace.
    apply app_inv_head in Htrace. subst tr.
    simpl in Hlen, Hall. injection Hlen as Hlen.
    apply Forall_cons in Hall as [_ Hall'].
    assert (Hn' : (1 <= n)%nat).
    { destruct n; [| lia]. exfalso. apply Hnot. rewrite Hattempt.
      reflexivity. }
    destruct (IH (attempt + 1) p1 tr')
      as (msg & pre & reply & Hr & Hs & -> & Hc);
      [lia | exact Hn' | exact Htr' | exact Hlen | exact Hall' |].
    exists msg, ([EvExecute v (fst (execute q v (mClient p))); EvSleepMs ms]
                 ++ pre), reply.
    split; [exact Hr |]. split; [exact Hs |]. split; [| exact Hc].
    now rewrite <- app_assoc.
  - destruct Hstep as (_ & Htr1 & Hmsg).
    rewrite Htr1 in Htrace. apply app_inv_head in Htrace. subst tr.
    simpl in Hall. apply Forall_cons in Hall as [Hr _].
    destruct (Hmsg Hr) as (msg & -> & Hs & Hcase).
    exists msg, [], (fst (execute q v (mClient p))).
    split; [reflexivity |]. split; [exact Hs |]. split; [reflexivity |].
    unfold carries_last.
    destruct (fst (execute q v (mClient p))) as [resp | e'].
    + now destruct Hcase.
    + destruct Hcase as [[_ ->] | [<- _]]; [now left | now right].
Qed.

(** C5, amended.  When the transport answers an attempt with a response
    whose HTTP status is neither 429 nor >= 500, the retry loop returns
    the response body to its caller at that attempt, as an ordinary
    result that no longer carries the status (nothing is raised, for a
    400 or a 404 as for a 200): no sleep, no jitter draw, no change to
    the retry counter or any other statistic, and no further transport
    call; so does [executeWithRetry] on its first attempt. *)
Theorem C5_non_retryable_status_returns_at_once (n : nat) (attempt : Z)
    q v p (resp : Response) :
  fst (execute q v (mClient p)) = Return resp ->
  (httpStatus resp <> 429 /\ httpStatus resp < 500)%N ->
  let p' := snd (retry_loop (S n) attempt q v p) in
  fst (retry_loop (S n) attempt q v p) = Return (body resp)
  /\ trace p' = trace p ++ [EvExecute v (Return resp)]
  /\ sleeps_of (trace p') = sleeps_of (trace p)
  /\ mStats p' = mStats p
  /\ rng p' = rng p
  /\ mThrottle p' = mThrottle p
  /\ executeWithRetry q v p = (Return (body resp), p').
Proof.
  intros Hreply Hstatus p'. apply isRetryableStatus_false in Hstatus.
  assert (Hrun : forall m, retry_loop (S m) attempt q v p
                 = (Return (body resp), after_execute q v p)).
  { intros m. simpl. unfold bind. rewrite attempt_body_cases.
    rewrite Hreply, Hstatus. reflexivity. }
  assert (Hrun0 : forall m, retry_loop (S m) 0 q v p
                 = (Return (body resp), after_execute q v p)).
  { intros m. simpl. unfold bind. rewrite attempt_body_cases.
    rewrite Hreply, Hstatus. reflexivity. }
  subst p'. rewrite Hrun. unfold after_execute. simpl. rewrite Hreply.
  repeat split.
  - rewrite sleeps_of_app. simpl. apply app_nil_r.
  - unfold executeWithRetry. change (Z.to_nat kMaxAttempts) with 6%nat.
    rewrite Hrun0. unfold after_execute. now rewrite Hreply.
Qed.
End RetryFacts.

(* ------------------------------------------------------------------ *)
(** ** Pagination driver *)

Lemma no_data_records response :
  no_data response = true -> records_of response = [].
Proof.
  unfold no_data, records_of, parseProductsPage.
  destruct (json_find response "data") as [data|]; [| reflexivity].
  now intros ->.
Qed.

Lemma is_empty_nil {A} (l : list A) : is_empty l = true <-> l = [].
Proof. destruct l; simpl; split; congruence. Qed.

Lemma requested_first_variables n c :
  requested_first (request_variables n c) = Some n.
Proof.
  unfold requested_first, request_variables, json_find.
  destruct c as [c|].
  - rewrite lookup_insert_ne by discriminate. rewrite lookup_insert_eq.
    reflexivity.
  - now rewrite lookup_insert_eq.
Qed.


Section DriverFacts.
Context {W G : Type} `{Environment W G}.
Implicit Types (p : Paginator W G) (st : loop_state).

(** The steps after a response, flattened. *)
Lemma process_response_cases st response p :
  let p2 := after_observe response p in
  process_response st response p =
  match extractGraphqlErrors response with
  | Throw e => (Throw e, p2)
  | Return errors =>
      if negb (is_empty errors) && no_data response
      then (Return (Break st), p2)
      else
        match parseProductsPage response with
        | Throw _ => (Return (Break st), p2)
        | Return page =>
            if is_empty (products page) then (Return (Break st), p2)
            else if negb (hasNextPage page)
            then (Return (Break (mkLoop (allProducts st ++ products page)
                                   (cursor st))), p2)
            else (Return (Continue (mkLoop (allProducts st ++ products page)
                                      (lastCursor page))), p2)
        end
  end.
Proof.
  intros p2. subst p2.
  unfold process_response, after_observe, bind, modify, on_throttle, lift,
    try_catch.
  simpl.
  pose proof (observeResponse_returns response (mThrottle p)) as Hobs.
  destruct (observeResponse response (mThrottle p)) as [o t].
  simpl in Hobs. subst o. simpl.
  destruct (extractGraphqlErrors response) as [errors | e]; [| reflexivity].
  destruct (negb (is_empty errors) && no_data response); [reflexivity |].
  destruct (parseProductsPage response) as [page | e]; simpl;
    [| reflexivity].
  destruct (is_empty (products page)); [reflexivity |].
  destruct (negb (hasNextPage page)); reflexivity.
Qed.

(** A processed response adds its records, all of them, or ends the
    run with an exception; it has no effect of its own on the trace. *)
Lemma process_response_spec st response p :
  let r := fst (process_response st response p) in
  let p' := snd (process_response st response p) in
  p' = after_observe response p
  /\ match r with
     | Return (Continue st') =>
         allProducts st' = allProducts st ++ records_of response
         /\ records_of response <> []
         /\ exists page, parseProductsPage response = Return page
              /\ cursor st' = lastCursor page /\ hasNextPage page = true
     | Return (Break st') =>
         allProducts st' = allProducts st ++ records_of response
     | Throw _ => True
     end.
Proof.
  intros r p'. subst r p'. rewrite process_response_cases.
  destruct (extractGraphqlErrors response) as [errors | e];
    [| now split].
  destruct (negb (is_empty errors) && no_data response) eqn:Hnd.
  { split; [reflexivity |]. simpl.
    apply andb_true_iff in Hnd as [_ Hnd].
    rewrite (no_data_records _ Hnd). now rewrite app_nil_r. }
  unfold records_of.
  destruct (parseProductsPage response) as [page | e]; simpl.
  - destruct (is_empty (products page)) eqn:Hemp; simpl.
    + apply is_empty_nil in Hemp. rewrite Hemp.
      split; [reflexivity | now rewrite app_nil_r].
    + destruct (hasNextPage page) eqn:Hnext; simpl.
      * split; [reflexivity |]. split; [reflexivity |].
        split; [| exists page; now repeat split].
        intros Hnil. apply is_empty_nil in Hnil. congruence.
      * split; reflexivity.
  - split; [reflexivity | now rewrite app_nil_r].
Qed.

(** The throttle gate always returns, and only sleeps. *)
Lemma throttle_gate_spec p :
  throttle_gate p = (Return tt, after_gate p)
  /\ mClient (after_gate p) = mClient p
  /\ mStats (after_gate p) = mStats p
  /\ exists tr, trace (after_gate p) = trace p ++ tr
       /\ replies_of tr = [] /\ requests_of tr = [].
Proof.
  unfold after_gate, throttle_gate.
  destruct (maybeSleepBeforeNextRequest (mThrottle p)) as [t [ms |]];
    simpl.
  - repeat split. exists [EvSleepMs ms]. repeat split.
  - repeat split. exists []. now rewrite app_nil_r.
Qed.

(** One iteration, flattened: the gate, the retried request, and either
    the processing of the response or the [break] of the handler. *)
Lemma loop_body_cases totalLimit pageSize st p :
  let v := request_variables (fetchCount_of totalLimit pageSize st)
             (cursor st) in
  loop_body totalLimit pageSize st p =
  match executeWithRetry kProductsQuery v (after_gate p) with
  | (Return response, p2) => process_response st response p2
  | (Throw _, p2) => (Return (Break st), p2)
  end.
Proof.
  intros v. subst v. unfold loop_body, bind at 1.
  destruct (throttle_gate_spec p) as (-> & _).
  unfold bind, try_catch.
  destruct (executeWithRetry kProductsQuery _ (after_gate p))
    as [[response | e] p2]; reflexivity.
Qed.

Lemma loop_body_spec totalLimit pageSize st p :
  let v := request_variables (fetchCount_of totalLimit pageSize st)
             (cursor st) in
  let r := fst (loop_body totalLimit pageSize st p) in
  let p' := snd (loop_body totalLimit pageSize st p) in
  exists tr, trace p' = trace p ++ tr /\ call_shape v tr
    /\ match r with
       | Return (Continue st') =>
           allProducts st' = allProducts st ++ delivered_records tr
           /\ delivered_records tr <> []
       | Return (Break st') =>
           allProducts st' = allProducts st ++ delivered_records tr
       | Throw _ => True
       end.
Proof.
  intros v r p'. subst r p'. rewrite loop_body_cases. fold v.
  destruct (throttle_gate_spec p) as (_ & _ & _ & tg & Htg & Hgr & Hgq).
  assert (Hquiet_g : quiet tg) by (unfold quiet; rewrite Hgr; constructor).
  assert (Hreq_g : all_requests v tg)
    by (unfold all_requests; rewrite Hgq; constructor).
  pose proof (retry_loop_trace kProductsQuery v (Z.to_nat kMaxAttempts) 0
                (after_gate p)) as Hretry.
  cbv zeta in Hretry.
  change (retry_loop (Z.to_nat kMaxAttempts) 0 kProductsQuery v)
    with (executeWithRetry kProductsQuery v) in Hretry.
  destruct (executeWithRetry kProductsQuery v (after_gate p))
    as [[response | e] p2]; cbn [fst snd] in Hretry;
    destruct Hretry as (_ & _ & tr & Htr & Hreq & Hr).
  - destruct Hr as (trq & reply & -> & Hq & Hdel).
    pose proof (process_response_spec st response p2) as Hproc.
    simpl in Hproc. destruct Hproc as (Hp' & Hproc).
    assert (Hrec : delivered_records
                     (tg ++ trq ++ [EvExecute v reply])
                   = records_of response).
    { rewrite !delivered_records_app, delivered_records_execute.
      rewrite (delivered_records_quiet _ Hquiet_g).
      rewrite (delivered_records_quiet _ Hq).
      unfold delivered_of. now rewrite Hdel. }
    exists (tg ++ trq ++ [EvExecute v reply]).
    split.
    { rewrite Hp'. unfold after_observe. simpl. rewrite Htr, Htg.
      now rewrite <- app_assoc. }
    split.
    { split; [now apply all_requests_app |].
      right. exists (tg ++ trq), reply.
      split; [now rewrite app_assoc | now apply quiet_app]. }
    rewrite Hrec.
    destruct (fst (process_response st response p2)) as [[st' | st'] | e];
      [| exact Hproc | exact I].
    destruct Hproc as (Hall & Hne & _). now split.
  - exists (tg ++ tr). cbn [fst snd].
    split; [rewrite Htr, Htg; now rewrite <- app_assoc |].
    split.
    { split; [now apply all_requests_app | left; now apply quiet_app]. }
    rewrite delivered_records_quiet by now apply quiet_app.
    simpl. now rewrite app_nil_r.
Qed.

Lemma asks_min_from_call L P acc v tr :
  requested_first v = Some (Z.min P (L - Z.of_nat acc)) ->
  call_shape v tr -> asks_min_from L P acc tr = true.
Proof.
  intros Hv [Hreq [Hq | (trq & reply & -> & Hq)]].
  - now apply (asks_min_from_quiet L P acc v).
  - rewrite asks_min_from_app. apply andb_true_iff. split.
    + apply (asks_min_from_quiet L P acc v); [exact Hv | | exact Hq].
      unfold all_requests in *. rewrite requests_of_app in Hreq.
      now apply Forall_app in Hreq.
    + rewrite (delivered_records_quiet _ Hq). simpl.
      rewrite Nat.add_0_r, Hv, Z.eqb_refl. reflexivity.
Qed.

(** The loop invariant: what is accumulated is what was delivered, and
    every request so far asked for the minimum. *)
Lemma fetch_loop_spec L P fuel : forall st p tr0 tr,
  trace p = tr0 ++ tr ->
  allProducts st = delivered_records tr ->
  asks_min_from L P 0 tr = true ->
  exists tr', trace (snd (fetch_loop fuel L P st p)) = tr0 ++ tr'
    /\ asks_min_from L P 0 tr' = true
    /\ match fst (fetch_loop fuel L P st p) with
       | Return (Some all) => all = delivered_records tr'
       | _ => True
       end.
Proof.
  induction fuel as [| fuel IH]; intros st p tr0 tr Htr Hall Hmin; simpl.
  - destruct (Z.of_nat (length (allProducts st)) <? L); simpl;
      exists tr; now repeat split.
  - destruct (Z.of_nat (length (allProducts st)) <? L); simpl;
      [| exists tr; now repeat split].
    unfold bind.
    destruct (loop_body_spec L P st p) as (tr1 & Htr1 & Hshape & Hr).
    assert (Hmin1 : asks_min_from L P 0 (tr ++ tr1) = true).
    { rewrite asks_min_from_app, Hmin. simpl.
      eapply asks_min_from_call; [| exact Hshape].
      rewrite requested_first_variables. unfold fetchCount_of.
      now rewrite Hall. }
    assert (Htr' : trace (snd (loop_body L P st p)) = tr0 ++ tr ++ tr1)
      by (rewrite Htr1, Htr; now rewrite <- app_assoc).
    destruct (loop_body L P st p) as [[[st' | st'] | e] p1];
      cbn [fst snd] in *.
    + destruct Hr as [Hst' _].
      apply (IH st' p1 tr0 (tr ++ tr1)); [exact Htr' | | exact Hmin1].
      now rewrite delivered_records_app, <- Hall.
    + exists (tr ++ tr1). split; [exact Htr' |]. split; [exact Hmin1 |].
      now rewrite delivered_records_app, <- Hall.
    + exists (tr ++ tr1). now repeat split.
Qed.

(** Termination: each iteration that continues has added a record, so
    the fuel [totalLimit - accumulated] is never used up. *)
Lemma fetch_loop_fuel L P fuel : forall st p,
  L - Z.of_nat (length (allProducts st)) <= Z.of_nat fuel ->
  fst (fetch_loop fuel L P st p) <> Return None.
Proof.
  induction fuel as [| fuel IH]; intros st p Hfuel; simpl.
  - destruct (Z.ltb_spec (Z.of_nat (length (allProducts st))) L);
      [lia | discriminate].
  - destruct (Z.ltb_spec (Z.of_nat (length (allProducts st))) L);
      [| discriminate].
    unfold bind.
    destruct (loop_body_spec L P st p) as (tr1 & _ & _ & Hr).
    destruct (loop_body L P st p) as [[[st' | st'] | e] p1];
      cbn [fst snd] in *; [| discriminate | discriminate].
    destruct Hr as [Hst' Hne]. apply IH.
    rewrite Hst', length_app.
    destruct (delivered_records tr1); [contradiction | simpl; lia].
Qed.

Lemma fetchAllProducts_terminates totalLimit pageSize p :
  fst (fetchAllProducts totalLimit pageSize p) <> Return None.
Proof.
  unfold fetchAllProducts, bind.
  pose proof (fetch_loop_fuel totalLimit pageSize (Z.to_nat totalLimit)
                (mkLoop [] None) p) as Hfuel.
  destruct (fetch_loop (Z.to_nat totalLimit) totalLimit pageSize
              (mkLoop [] None) p) as [[[all |] | e] p1]; simpl in *;
    try discriminate.
  apply Hfuel. lia.
Qed.

(** C2.  A run of [fetchAllProducts] always returns (the loop ends);
    every transport request of the run asks for exactly
    [min(pageSize, totalLimit - accumulated)] records; the result is the
    concatenation, in fetch order, of the records of the delivered pages,
    each page's records being those of its edges in edge order; and when
    every delivered response carries at most the number of records
    requested, the result has at most [totalLimit] records, and at most
    [pageSize] per request made. *)
Theorem C2_fetchAllProducts_pages (totalLimit pageSize : Z) p :
  0 < totalLimit -> 0 < pageSize ->
  let r := fst (fetchAllProducts totalLimit pageSize p) in
  let p' := snd (fetchAllProducts totalLimit pageSize p) in
  exists tr, trace p' = trace p ++ tr
    /\ r <> Return None
    /\ requests_ask_min totalLimit pageSize tr
    /\ (forall all, r = Return (Some all) ->
          all = delivered_records tr
          /\ totalFetched (mStats p') = Z.of_nat (length all)
          /\ (Forall (fun e => within_request e = true) tr ->
              Z.of_nat (length all) <= totalLimit
              /\ Z.of_nat (length all)
                 <= pageSize * Z.of_nat (length (requests_of tr))))
    /\ (forall responseBody page,
          parseProductsPage responseBody = Return page ->
          Forall2 (fun node record => parseProductNode node = Return record)
            (omap (fun e => json_find e "node")
               (response_edges responseBody))
            (products page)).
Proof.
  intros HL HP r p'. subst r p'.
  pose proof (fetchAllProducts_terminates totalLimit pageSize p) as Hterm.
  unfold fetchAllProducts, bind in *.
  destruct (fetch_loop_spec totalLimit pageSize (Z.to_nat totalLimit)
              (mkLoop [] None) p (trace p) [])
    as (tr & Htr & Hmin & Hres);
    [now rewrite app_nil_r | reflexivity | reflexivity |].
  destruct (fetch_loop (Z.to_nat totalLimit) totalLimit pageSize
              (mkLoop [] None) p) as [[[all |] | e] p1];
    cbn [fst snd] in *.
  - exists tr. split; [exact Htr |]. split; [discriminate |].
    split; [now apply asks_min_from_requests_ask_min |].
    split; [| intros b page Hb; now apply parseProductsPage_spec].
    intros all' [= <-]. split; [exact Hres |]. split; [reflexivity |].
    intros Hin. subst all.
    destruct (asks_min_from_bounds totalLimit pageSize tr 0%nat HP Hmin Hin)
      as [H1 H2]; [lia |].
    simpl in H1. split; [exact H1 | exact H2].
  - exfalso. now apply Hterm.
  - exists tr. split; [exact Htr |]. split; [discriminate |].
    split; [now apply asks_min_from_requests_ask_min |].
    split; [discriminate |].
    intros b page Hb. now apply parseProductsPage_spec.
Qed.

(** C3.  In an iteration of the pagination loop whose response reaches
    the mapper and parses to a page with zero records, the driver stops
    at once and returns the records accumulated before, issuing no
    further request; the page's [hasNextPage] flag plays no part. *)
Theorem C3_empty_page_stops (totalLimit pageSize : Z) (fuel : nat) st p
    (response : json) (errors : list string) (page : PageResult) :
  Z.of_nat (length (allProducts st)) < totalLimit ->
  let v := request_variables (fetchCount_of totalLimit pageSize st)
             (cursor st) in
  let p2 := snd (executeWithRetry kProductsQuery v (after_gate p)) in
  fst (executeWithRetry kProductsQuery v (after_gate p)) = Return response ->
  extractGraphqlErrors response = Return errors ->
  parseProductsPage response = Return page ->
  products page = [] ->
  loop_body totalLimit pageSize st p
    = (Return (Break st), after_observe response p2)
  /\ fetch_loop (S fuel) totalLimit pageSize st p
     = (Return (Some (allProducts st)), after_observe response p2)
  /\ trace (after_observe response p2) = trace p2.
Proof.
  intros Hlt v p2 Hexec Herr Hparse Hempty. subst p2.
  assert (Hbody : loop_body totalLimit pageSize st p
            = (Return (Break st),
               after_observe response
                 (snd (executeWithRetry kProductsQuery v (after_gate p))))).
  { rewrite loop_body_cases. fold v.
    destruct (executeWithRetry kProductsQuery v (after_gate p))
      as [r p2]. simpl in Hexec. subst r. cbn [snd].
    rewrite process_response_cases, Herr, Hparse, Hempty. simpl.
    now destruct (negb (is_empty errors) && no_data response). }
  split; [exact Hbody |]. split; [| reflexivity].
  simpl. apply Z.ltb_lt in Hlt. rewrite Hlt. unfold bind.
  now rewrite Hbody.
Qed.

(** C4.  When a call of [executeWithRetry] makes all six attempts and
    each ends in a retryable condition (HTTP 429 or >= 500, or a
    [std::runtime_error] of the transport), the call ends by throwing a
    [std::runtime_error] whose message contains "Max retries exceeded"
    and carries the last HTTP status or the last error message; the sixth
    transport call is the last event of the call.  The driver's handler
    catches it, and [fetchAllProducts]'s loop ends returning the records
    accumulated so far. *)
Theorem C4_exhausted_retries_stop_the_run (totalLimit pageSize : Z)
    (fuel : nat) st p (tr : list event) :
  let v := request_variables (fetchCount_of totalLimit pageSize st)
             (cursor st) in
  let run := executeWithRetry kProductsQuery v (after_gate p) in
  trace (snd run) = trace (after_gate p) ++ tr ->
  length (replies_of tr) = 6%nat ->
  Forall (fun reply => retryable_reply reply = true) (replies_of tr) ->
  (exists msg pre reply,
      fst run = Throw (RuntimeError msg)
      /\ str_contains "Max retries exceeded" msg = true
      /\ tr = pre ++ [EvExecute v reply]
      /\ carries_last reply msg)
  /\ (Z.of_nat (length (allProducts st)) < totalLimit ->
      fetch_loop (S fuel) totalLimit pageSize st p
      = (Return (Some (allProducts st)), snd run)).
Proof.
  intros v run Htr Hlen Hall. subst run.
  destruct (retry_loop_exhausted kProductsQuery v 6 0 (after_gate p) tr)
    as (msg & pre & reply & Hr & Hs & Hlast & Hc);
    [reflexivity | lia | exact Htr | exact Hlen | exact Hall |].
  change (retry_loop 6 0 kProductsQuery v)
    with (executeWithRetry kProductsQuery v) in Hr.
  split; [exists msg, pre, reply; now repeat split |].
  intros Hlt. simpl. apply Z.ltb_lt in Hlt. rewrite Hlt. unfold bind.
  rewrite loop_body_cases. fold v.
  destruct (executeWithRetry kProductsQuery v (after_gate p)) as [r p2].
  simpl in Hr. subst r. reflexivity.
Qed.

End DriverFacts.



(* ------------------------------------------------------------------ *)
(** ** The driver on the test environments *)

Lemma forallb_Forall {A} (f : A -> bool) (l : list A) :
  forallb f l = true -> Forall (fun x => f x = true) l.
Proof.
  induction l as [| x l IH]; simpl; [constructor |].
  intros Hx. apply andb_true_iff in Hx as [Hx Hl].
  constructor; [exact Hx | now apply IH].
Qed.

(** The integration test: 25 of the mock's 30 products in pages of 10
    come back as exactly 25 records, in three requests of 10, 10 and 5. *)
Lemma C2_fetchAllProducts_pages_witness :
  let run := fetchAllProducts 25 10 (fresh mock_catalogue) in
  let all := map (fun i => snd (mock_product i)) (seq 1 25) in
  fst run = Return (Some all)
  /\ length all = 25%nat
  /\ all = delivered_records (trace (snd run))
  /\ Z.of_nat (length all) <= 25
  /\ (3 <= length (requests_of (trace (snd run))))%nat
  /\ map requested_first (requests_of (trace (snd run)))
     = [Some 10; Some 10; Some 5].
Proof.
  intros run all.
  assert (Hres : fst run = Return (Some all)) by (vm_compute; reflexivity).
  assert (Hin : forallb within_request (trace (snd run)) = true)
    by (vm_compute; reflexivity).
  assert (Hreqs : map requested_first (requests_of (trace (snd run)))
                  = [Some 10; Some 10; Some 5]) by (vm_compute; reflexivity).
  assert (Hlen : length all = 25%nat) by reflexivity.
  destruct (C2_fetchAllProducts_pages 25 10 (fresh mock_catalogue))
    as (tr & Htr & _ & _ & Hall & _); [lia | lia |].
  fold run in Htr, Hall.
  change (trace (fresh mock_catalogue)) with (@nil event) in Htr.
  rewrite app_nil_l in Htr.
  clearbody run all.
  destruct (Hall all Hres) as (Hdel & _ & Hbound).
  rewrite <- Htr in Hdel, Hbound.
  destruct (Hbound (forallb_Forall _ _ Hin)) as [Hle Hreq].
  split; [exact Hres |]. split; [exact Hlen |]. split; [exact Hdel |].
  split; [exact Hle |]. split; [| exact Hreqs].
  rewrite Hlen in Hreq. lia.
Defined.

(** An empty page that claims more pages stops the run: the second reply
    of the script is never asked for. *)
Lemma C3_empty_page_stops_witness :
  let st := mkLoop [mkProduct "x" "" ""] (Some "c0") in
  let p := fresh (W:=script)
             [http 200 body_empty_with_more; http 200 body_three_edges] in
  (hasNextPage <$> match parseProductsPage body_empty_with_more with
                   | Return page => Some page
                   | Throw _ => None
                   end) = Some true
  /\ fst (fetch_loop 6 25 10 st p) = Return (Some [mkProduct "x" "" ""])
  /\ length (requests_of (trace (snd (fetch_loop 6 25 10 st p)))) = 1%nat.
Proof.
  intros st p. split; [reflexivity |].
  destruct (C3_empty_page_stops 25 10 5 st p body_empty_with_more []
              (mkPageResult [] None true))
    as (_ & Hloop & _); try reflexivity.
  rewrite Hloop. split; [reflexivity |]. vm_compute. reflexivity.
Defined.

(** Six retryable replies in a row: the retry policy gives up with the
    last status, and the run returns what was accumulated. *)
Lemma C4_exhausted_retries_stop_the_run_witness :
  let st := mkLoop [mkProduct "x" "" ""] None in
  let p := fresh (W:=script)
             [http 503 JNull; http 429 JNull;
              Throw (RuntimeError "timeout"); http 500 JNull;
              http 503 JNull; http 502 JNull; http 200 body_three_edges] in
  let v := request_variables 10 None in
  fst (executeWithRetry kProductsQuery v p)
    = Throw (RuntimeError "Max retries exceeded.  Last HTTP status: 502")
  /\ fst (fetch_loop 1 25 10 st p) = Return (Some [mkProduct "x" "" ""])
  /\ length (requests_of (trace (snd (fetch_loop 1 25 10 st p)))) = 6%nat.
Proof.
  intros st p v.
  split; [vm_compute; reflexivity |].
  pose proof (C4_exhausted_retries_stop_the_run 25 10 0 st p) as Hthm.
  cbv zeta in Hthm.
  match type of Hthm with
  | forall tr, trace (snd ?run) = _ -> _ =>
      specialize (Hthm (trace (snd run)))
  end.
  match type of Hthm with
  | ?A -> ?B -> ?C -> _ =>
      assert (H1 : A) by (vm_compute; reflexivity);
      assert (H2 : B) by (vm_compute; reflexivity);
      assert (H3 : C) by (apply forallb_Forall; vm_compute; reflexivity)
  end.
  destruct (Hthm H1 H2 H3) as (_ & Hloop).
  rewrite Hloop by (vm_compute; reflexivity).
  split; vm_compute; reflexivity.
Defined.

(** C5 as worded fails: a non-retryable failure status is not propagated
    as a failure.  [executeWithRetry] returns [resp.body] and drops the
    status, so an HTTP 404 reaches the caller as an ordinary result, and
    the driver takes the records of its body like those of any page. *)
Lemma C5_failure_is_propagated_counterexample :
  ~ (forall (p : Paginator script Z) (q : string) (v : json)
            (resp : Response),
       fst (execute q v (mClient p)) = Return resp ->
       (400 <=? httpStatus resp)%N = true ->
       isRetryableStatus (httpStatus resp) = false ->
       exists e, fst (executeWithRetry q v p) = Throw e).
Proof.
  intros H.
  destruct (H (fresh (W:=script) [http 404 body_three_edges])
              kProductsQuery (request_variables 10 None)
              (mkResponse 404 body_three_edges) eq_refl eq_refl eq_refl)
    as (e & He).
  vm_compute in He. discriminate He.
Qed.

(** The records of a 404 body are fetched like any others. *)
Example fetchAllProducts_takes_a_404_body :
  fst (fetchAllProducts 3 3
         (fresh (W:=script) [http 404 body_three_edges]))
  = Return (Some [mkProduct "a" "A" ""; mkProduct "b" "B" "";
                  mkProduct "c" "C" ""]).
Proof. vm_compute. reflexivity. Qed.

(** HTTP 404: the body is handed over at once, nothing else happens. *)
Lemma C5_non_retryable_status_returns_at_once_witness :
  let p := fresh (W:=script)
             [http 404 body_three_edges; http 200 body_empty_with_more] in
  let v := request_variables 10 None in
  let run := executeWithRetry kProductsQuery v p in
  fst run = Return body_three_edges
  /\ trace (snd run) = [EvExecute v (http 404 body_three_edges)]
  /\ sleeps_of (trace (snd run)) = []
  /\ mStats (snd run) = Stats_new.
Proof.
  intros p v run.
  destruct (C5_non_retryable_status_returns_at_once 5 0 kProductsQuery v p
              (mkResponse 404 body_three_edges))
    as (Hbody & Htrace & Hsleeps & Hstats & _ & _ & Hrun);
    [reflexivity | split; [discriminate | reflexivity] |].
  subst run. rewrite Hrun. cbn [fst snd].
  split; [reflexivity |]. split; [exact Htrace |].
  split; [exact Hsleeps | exact Hstats].
Defined.


(* ================================================================== *)
(** * Further properties of the sources *)

(* ------------------------------------------------------------------ *)
(** ** [parseUrl] *)

Example test_ParseUrl_HttpWithPort :
  parseUrl "http://localhost:4000/graphql"
  = Return (mkUrlParts "http" "localhost" "4000" "/graphql").
Proof. reflexivity. Qed.

Example test_ParseUrl_HttpsWithoutPortDefaultsTo443 :
  parseUrl "https://shop.myshopify.com/admin/api/graphql.json"
  = Return (mkUrlParts "https" "shop.myshopify.com" "443"
              "/admin/api/graphql.json").
Proof. reflexivity. Qed.

Example test_ParseUrl_UrlWithoutPathDefaultsToSlash :
  parseUrl "http://example.com"
  = Return (mkUrlParts "http" "example.com" "80" "/").
Proof. reflexivity. Qed.

Example test_ParseUrl_EmptyHostThrows :
  parseUrl "http:///graphql"
  = Throw (invalid_argument "Invalid URL (empty host): http:///graphql").
Proof. reflexivity. Qed.

Example test_ParseUrl_GarbageStringThrows :
  parseUrl "not-a-url"
  = Throw (invalid_argument "Invalid URL (missing scheme): not-a-url").
Proof. reflexivity. Qed.

(** [String.append] is kept folded by [simpl]; this unfolds it on
    constructors. *)
Ltac str_simpl :=
  repeat match goal with
         | |- context [String ?x ?a +:+ ?b] =>
             change (String x a +:+ b) with (String x (a +:+ b))
         | |- context [EmptyString +:+ ?b] =>
             change (EmptyString +:+ b) with b
         end;
  simpl.

Lemma str_take_app a b : str_take (String.length a) (a +:+ b) = a.
Proof.
  induction a as [| c a IH]; str_simpl; [now destruct b | now rewrite IH].
Qed.

Lemma str_drop_app a b : str_drop (String.length a) (a +:+ b) = b.
Proof. induction a as [| c a IH]; str_simpl; [reflexivity | exact IH]. Qed.

Lemma str_drop_app_plus a b k :
  str_drop (String.length a + k) (a +:+ b) = str_drop k b.
Proof. induction a as [| c a IH]; str_simpl; [reflexivity | exact IH]. Qed.

Lemma str_take_app_plus a b k :
  str_take (String.length a + k) (a +:+ b) = a +:+ str_take k b.
Proof.
  induction a as [| c a IH]; str_simpl; [reflexivity | now rewrite IH].
Qed.

Lemma str_take_all s : str_take (String.length s) s = s.
Proof. induction s as [| c s IH]; simpl; [reflexivity | now rewrite IH]. Qed.

Lemma str_app_assoc a b c : (a +:+ b) +:+ c = a +:+ (b +:+ c).
Proof.
  induction a as [| x a IH]; str_simpl; [reflexivity | now rewrite IH].
Qed.

Lemma str_app_length a b :
  String.length (a +:+ b) = (String.length a + String.length b)%nat.
Proof.
  induction a as [| x a IH]; str_simpl; [reflexivity | now rewrite IH].
Qed.

Lemma str_app_nil_r a : a +:+ "" = a.
Proof.
  induction a as [| x a IH]; str_simpl; [reflexivity | now rewrite IH].
Qed.

(** The first occurrence of [c] in [a ++ b] when [a] has none. *)
Lemma find_char_app_lacks c a b :
  lacks_char c a = true ->
  find_char c (a +:+ b)
  = (fun i => (String.length a + i)%nat) <$> find_char c b.
Proof.
  induction a as [| x a IH]; str_simpl.
  - intros _. now destruct (find_char c b).
  - intros Hl. apply andb_true_iff in Hl as [Hx Ha].
    apply negb_true_iff in Hx. rewrite Hx, (IH Ha).
    now destruct (find_char c b).
Qed.

Lemma find_char_lacks c s : find_char c s = None <-> lacks_char c s = true.
Proof.
  induction s as [| x s IH]; simpl; [easy |].
  destruct (Ascii.eqb x c); simpl; [easy |].
  rewrite <- IH. destruct (find_char c s); simpl; easy.
Qed.

Lemma find_str_cons needle x s :
  find_str needle (String x s)
  = if String.prefix needle (String x s) then Some 0%nat
    else S <$> find_str needle s.
Proof. reflexivity. Qed.

Lemma prefix_cons_ne c needle x s :
  x <> c -> String.prefix (String c needle) (String x s) = false.
Proof.
  intros Hx. cbn [String.prefix].
  destruct (Ascii.ascii_dec c x) as [E | _]; [now subst | reflexivity].
Qed.

(** The scheme separator is found right after a scheme without colon. *)
Lemma find_str_scheme sch rest :
  lacks_char ":" sch = true ->
  find_str "://" (sch +:+ "://" +:+ rest) = Some (String.length sch).
Proof.
  induction sch as [| x sch IH].
  - intros _. now destruct rest.
  - intros Hl. cbn [lacks_char] in Hl.
    apply andb_true_iff in Hl as [Hx Hs].
    apply negb_true_iff, Ascii.eqb_neq in Hx.
    change (String x sch +:+ "://" +:+ rest)
      with (String x (sch +:+ "://" +:+ rest)).
    rewrite find_str_cons, (prefix_cons_ne _ _ _ _ Hx), (IH Hs).
    reflexivity.
Qed.

(** [parseUrl] on a URL put together from a scheme without colon, an
    authority without slash and a path: the first half of the function
    recovers the three pieces. *)
Lemma parseUrl_authority sch auth path :
  lacks_char ":" sch = true -> lacks_char "/" auth = true ->
  is_url_path path = true ->
  parseUrl (sch +:+ "://" +:+ auth +:+ path)
  = let hp := match find_char ":" auth with
              | None => (auth, if String.eqb sch "https" then "443" else "80")
              | Some colon =>
                  (substr 0 colon auth, str_drop (colon + 1) auth)
              end in
    if String.eqb (fst hp) "" then
      Throw (invalid_argument ("Invalid URL (empty host): "
                               +:+ sch +:+ "://" +:+ auth +:+ path))
    else Return (mkUrlParts sch (fst hp) (snd hp)
                   (if String.eqb path "" then "/" else path)).
Proof.
  intros Hsch Hauth Hpath.
  set (url := sch +:+ "://" +:+ auth +:+ path).
  assert (Hdrop : str_drop (String.length sch + 3) url = auth +:+ path).
  { unfold url. rewrite str_drop_app_plus.
    apply (str_drop_app "://" (auth +:+ path)). }
  assert (Hsplit :
            match find_char_from "/" (String.length sch + 3) url with
            | None => (str_drop (String.length sch + 3) url, "/")
            | Some pathStart =>
                (substr (String.length sch + 3)
                   (pathStart - (String.length sch + 3)) url,
                 str_drop pathStart url)
            end = (auth, if String.eqb path "" then "/" else path)).
  { unfold find_char_from, substr. rewrite Hdrop.
    rewrite (find_char_app_lacks _ _ _ Hauth).
    destruct path as [| a path']; simpl.
    - now rewrite str_app_nil_r.
    - simpl in Hpath. rewrite Hpath. simpl.
      replace (String.length sch + 3 + (String.length auth + 0)
               - (String.length sch + 3))%nat
        with (String.length auth) by lia.
      rewrite str_take_app. f_equal.
      replace (String.length sch + 3 + (String.length auth + 0))%nat
        with (String.length sch + (3 + (String.length auth + 0)))%nat by lia.
      unfold url. rewrite str_drop_app_plus.
      change (str_drop (3 + (String.length auth + 0))
                ("://" +:+ auth +:+ String a path'))
        with (str_drop (String.length auth + 0) (auth +:+ String a path')).
      now rewrite str_drop_app_plus. }
  assert (Hfind : find_str "://" url = Some (String.length sch))
    by exact (find_str_scheme sch (auth +:+ path) Hsch).
  assert (Hscheme : substr 0 (String.length sch) url = sch)
    by exact (str_take_app sch ("://" +:+ auth +:+ path)).
  unfold parseUrl. fold url. rewrite Hfind, Hsplit, Hscheme.
  destruct (find_char ":" auth) as [colon |]; reflexivity.
Qed.

Lemma eqb_empty_false s : s <> "" -> String.eqb s "" = false.
Proof. intros Hs. now apply String.eqb_neq. Qed.

Lemma eqb_path_empty path :
  (if String.eqb path "" then "/" else path)
  = match path with EmptyString => "/" | _ => path end.
Proof. now destruct path. Qed.

(** X1.  Round trip with an explicit port.  A URL assembled as
    [scheme://host:port] followed by a path (empty, or starting with a
    slash) is parsed back into exactly those parts, the empty path read as
    ["/"], whenever the scheme has no colon, the host is non-empty and has
    neither colon nor slash, and the port has no slash. *)
Theorem X1_parseUrl_explicit_port_round_trip (sch h prt path : string) :
  lacks_char ":" sch = true ->
  h <> "" -> lacks_char ":" h = true -> lacks_char "/" h = true ->
  lacks_char "/" prt = true ->
  is_url_path path = true ->
  parseUrl (sch +:+ "://" +:+ (h +:+ ":" +:+ prt) +:+ path)
  = Return (mkUrlParts sch h prt
              (match path with EmptyString => "/" | _ => path end)).
Proof.
  intros Hsch Hne Hcolon Hslash Hprt Hpath.
  assert (Hauth : lacks_char "/" (h +:+ ":" +:+ prt) = true).
  { clear Hne Hcolon. induction h as [| x h IH]; str_simpl.
    - exact Hprt.
    - simpl in Hslash. apply andb_true_iff in Hslash as [Hx Hh].
      rewrite Hx. now apply IH. }
  rewrite (parseUrl_authority _ _ _ Hsch Hauth Hpath).
  assert (Hfind : find_char ":" (h +:+ ":" +:+ prt)
                  = Some (String.length h + 0)%nat)
    by (rewrite (find_char_app_lacks _ _ _ Hcolon); reflexivity).
  rewrite Hfind. cbv zeta. cbn [fst snd].
  unfold substr. cbn [str_drop].
  rewrite str_take_app_plus. cbn [str_take]. rewrite str_app_nil_r.
  rewrite (eqb_empty_false _ Hne).
  replace (String.length h + 0 + 1)%nat with (String.length h + 1)%nat by lia.
  rewrite str_drop_app_plus. cbn [str_drop]. str_simpl.
  now rewrite eqb_path_empty.
Qed.

Lemma X1_parseUrl_explicit_port_round_trip_witness :
  parseUrl "http://api.example.com:3000/v2/admin/graphql"
  = Return (mkUrlParts "http" "api.example.com" "3000" "/v2/admin/graphql").
Proof.
  apply (X1_parseUrl_explicit_port_round_trip "http" "api.example.com" "3000"
           "/v2/admin/graphql"); try reflexivity.
  discriminate.
Defined.

(** X2.  Defaults.  A URL [scheme://host] followed by a path, with no colon
    in the host, is parsed with port ["443"] when the scheme is exactly
    ["https"] and ["80"] for every other scheme, and with target ["/"]
    when the path is empty. *)
Theorem X2_parseUrl_default_port_and_target (sch h path : string) :
  lacks_char ":" sch = true ->
  h <> "" -> lacks_char ":" h = true -> lacks_char "/" h = true ->
  is_url_path path = true ->
  parseUrl (sch +:+ "://" +:+ h +:+ path)
  = Return (mkUrlParts sch h
              (if String.eqb sch "https" then "443" else "80")
              (match path with EmptyString => "/" | _ => path end)).
Proof.
  intros Hsch Hne Hcolon Hslash Hpath.
  rewrite (parseUrl_authority _ _ _ Hsch Hslash Hpath).
  apply find_char_lacks in Hcolon. rewrite Hcolon. cbv zeta. cbn [fst snd].
  rewrite (eqb_empty_false _ Hne). now rewrite eqb_path_empty.
Qed.

Lemma X2_parseUrl_default_port_and_target_witness :
  parseUrl "https://shop.myshopify.com"
  = Return (mkUrlParts "https" "shop.myshopify.com" "443" "/")
  /\ parseUrl "ftp://example.com/api"
     = Return (mkUrlParts "ftp" "example.com" "80" "/api").
Proof.
  split.
  - apply (X2_parseUrl_default_port_and_target "https" "shop.myshopify.com"
             ""); try reflexivity.
    discriminate.
  - apply (X2_parseUrl_default_port_and_target "ftp" "example.com" "/api");
      try reflexivity.
    discriminate.
Defined.

Lemma find_str_None needle s :
  find_str needle s = None <-> str_contains needle s = false.
Proof.
  induction s as [| x s IH].
  - simpl. destruct needle; simpl; split; congruence.
  - rewrite find_str_cons. cbn [str_contains].
    destruct (String.prefix needle (String x s)); simpl;
      [split; congruence |].
    rewrite <- IH. destruct (find_str needle s); simpl; split; congruence.
Qed.

(** X3.  [parseUrl] reports a missing scheme exactly for the strings in
    which ["://"] does not occur; nothing else about the string matters
    for this error, and no other input produces it. *)
Theorem X3_parseUrl_missing_scheme_iff (url : string) :
  parseUrl url
  = Throw (invalid_argument ("Invalid URL (missing scheme): " +:+ url))
  <-> str_contains "://" url = false.
Proof.
  rewrite <- find_str_None. unfold parseUrl.
  destruct (find_str "://" url) as [schemeEnd |]; [| easy].
  split; [| discriminate]. intros Hp. exfalso.
  destruct (find_char_from "/" (schemeEnd + 3) url);
    destruct (find_char ":" _); cbv zeta iota beta in Hp;
    destruct (String.eqb _ ""); discriminate.
Qed.

(** X4.  An empty host is rejected: when nothing, a path, or a colon
    follows the scheme separator, [parseUrl] throws
    [std::invalid_argument] naming the URL, whatever port or path comes
    after. *)
Theorem X4_parseUrl_empty_host_throws (sch prt path : string) :
  lacks_char ":" sch = true ->
  lacks_char "/" prt = true ->
  is_url_path path = true ->
  parseUrl (sch +:+ "://" +:+ "" +:+ path)
  = Throw (invalid_argument ("Invalid URL (empty host): "
                             +:+ sch +:+ "://" +:+ "" +:+ path))
  /\ parseUrl (sch +:+ "://" +:+ (":" +:+ prt) +:+ path)
     = Throw (invalid_argument ("Invalid URL (empty host): "
                                +:+ sch +:+ "://" +:+ (":" +:+ prt) +:+ path)).
Proof.
  intros Hsch Hprt Hpath. split.
  - now rewrite (parseUrl_authority sch "" path Hsch eq_refl Hpath).
  - now rewrite (parseUrl_authority sch (":" +:+ prt) path Hsch Hprt Hpath).
Qed.

Lemma X4_parseUrl_empty_host_throws_witness :
  parseUrl "http:///graphql"
  = Throw (invalid_argument "Invalid URL (empty host): http:///graphql")
  /\ parseUrl "http://:4000/graphql"
     = Throw (invalid_argument
                "Invalid URL (empty host): http://:4000/graphql").
Proof.
  apply (X4_parseUrl_empty_host_throws "http" "4000" "/graphql");
    reflexivity.
Defined.

Lemma str_take_drop n s : s = str_take n s +:+ str_drop n s.
Proof.
  revert s. induction n as [| n IH]; intros s; [reflexivity |].
  destruct s as [| x s]; [reflexivity |]. simpl. str_simpl.
  now rewrite <- IH.
Qed.

Lemma str_drop_plus a b s : str_drop (a + b) s = str_drop b (str_drop a s).
Proof.
  revert s. induction a as [| a IH]; intros s; [reflexivity |].
  destruct s as [| x s]; simpl; [now destruct b | apply IH].
Qed.

Lemma lacks_char_app c a b :
  lacks_char c (a +:+ b) = lacks_char c a && lacks_char c b.
Proof.
  induction a as [| x a IH]; str_simpl; [reflexivity |].
  now rewrite IH, andb_assoc.
Qed.

(** Where [find_char] finds [c]: nothing before it is [c], and it is there. *)
Lemma find_char_Some c s i :
  find_char c s = Some i ->
  lacks_char c (str_take i s) = true
  /\ exists rest, str_drop i s = String c rest.
Proof.
  revert i. induction s as [| x s IH]; intros i; simpl; [discriminate |].
  destruct (Ascii.eqb x c) eqn:Hx.
  - intros [= <-]. apply Ascii.eqb_eq in Hx. subst x. simpl. eauto.
  - destruct (find_char c s) as [j |]; simpl; [| discriminate].
    intros [= <-]. destruct (IH j eq_refl) as [Hl Hr].
    simpl. rewrite Hx. simpl. now split.
Qed.

Lemma prefix_drop needle s :
  String.prefix needle s = true ->
  s = needle +:+ str_drop (String.length needle) s.
Proof.
  revert s. induction needle as [| c needle IH]; intros s; [reflexivity |].
  destruct s as [| x s]; cbn [String.prefix]; [discriminate |].
  destruct (Ascii.ascii_dec c x) as [-> | _]; [| discriminate].
  intros Hp. simpl. str_simpl. now rewrite <- (IH s Hp).
Qed.

(** Where [find_str] finds the needle: the string splits around it. *)
Lemma find_str_Some needle s i :
  find_str needle s = Some i ->
  s = str_take i s +:+ needle
      +:+ str_drop (i + String.length needle) s.
Proof.
  revert i. induction s as [| x s IH]; intros i.
  - simpl. destruct needle; simpl; [| discriminate].
    now intros [= <-].
  - rewrite find_str_cons.
    destruct (String.prefix needle (String x s)) eqn:Hp.
    + intros [= <-]. now apply prefix_drop.
    + destruct (find_str needle s) as [j |]; simpl; [| discriminate].
      intros [= <-]. simpl. str_simpl. now rewrite <- (IH j eq_refl).
Qed.

(** X5.  What [parseUrl] returns is cut out of the URL it was given.
    The URL is the returned scheme, ["://"], an authority and a rest; the
    authority is the host alone (the port then defaulted) or
    [host:port]; the rest is the returned target, or is empty when the
    target is the default ["/"].  The host is never empty and has no
    colon or slash, the port has no slash, and the target always starts
    with a slash. *)
Theorem X5_parseUrl_parts_come_from_url (url : string) (parts : UrlParts) :
  parseUrl url = Return parts ->
  host parts <> ""
  /\ lacks_char ":" (host parts) = true
  /\ lacks_char "/" (host parts) = true
  /\ lacks_char "/" (port parts) = true
  /\ (exists rest, target parts = String "/" rest)
  /\ exists authority path,
       url = scheme parts +:+ "://" +:+ authority +:+ path
       /\ (authority = host parts
           \/ authority = host parts +:+ ":" +:+ port parts)
       /\ (path = target parts \/ (path = "" /\ target parts = "/")).
Proof.
  unfold parseUrl.
  destruct (find_str "://" url) as [se |] eqn:Hfind; [| discriminate].
  pose proof (find_str_Some _ _ _ Hfind) as Hurl.
  change (String.length "://") with 3%nat in Hurl.
  set (D := str_drop (se + 3) url) in *.
  assert (Hsplit : exists authority tgt path,
             match find_char_from "/" (se + 3) url with
             | Some pathStart =>
                 (substr (se + 3) (pathStart - (se + 3)) url,
                  str_drop pathStart url)
             | None => (D, "/")
             end = (authority, tgt)
             /\ D = authority +:+ path
             /\ lacks_char "/" authority = true
             /\ (exists rest, tgt = String "/" rest)
             /\ (path = tgt \/ (path = "" /\ tgt = "/"))).
  { unfold find_char_from, substr. fold D.
    destruct (find_char "/" D) as [i |] eqn:Hslash; simpl.
    - destruct (find_char_Some _ _ _ Hslash) as [Hl [rest Hr]].
      replace (se + 3 + i - (se + 3))%nat with i by lia.
      rewrite str_drop_plus. fold D.
      exists (str_take i D), (str_drop i D), (str_drop i D).
      split; [reflexivity |]. split; [apply str_take_drop |].
      split; [exact Hl |]. split; [eauto | now left].
    - apply find_char_lacks in Hslash.
      exists D, "/", "". split; [reflexivity |].
      split; [now rewrite str_app_nil_r |]. split; [exact Hslash |].
      split; [eauto | now right]. }
  destruct Hsplit as (authority & tgt & path & -> & HD & Hauth & Htgt & Hpath).
  cbv zeta iota beta.
  assert (Hhp : exists h p,
             match find_char ":" authority with
             | Some colon =>
                 (substr 0 colon authority, str_drop (colon + 1) authority)
             | None =>
                 (authority,
                  if String.eqb (substr 0 se url) "https" then "443" else "80")
             end = (h, p)
             /\ lacks_char ":" h = true
             /\ lacks_char "/" h = true /\ lacks_char "/" p = true
             /\ (authority = h \/ authority = h +:+ ":" +:+ p)).
  { destruct (find_char ":" authority) as [colon |] eqn:Hcolon.
    - destruct (find_char_Some _ _ _ Hcolon) as [Hl [rest Hr]].
      unfold substr. cbn [str_drop]. rewrite str_drop_plus, Hr.
      cbn [str_drop].
      assert (Ha : authority = str_take colon authority +:+ ":" +:+ rest).
      { rewrite (str_take_drop colon authority) at 1. now rewrite Hr. }
      rewrite Ha, lacks_char_app in Hauth.
      apply andb_true_iff in Hauth as [Hh Hp]. str_simpl.
      eexists _, _. split; [reflexivity |]. split; [exact Hl |].
      split; [exact Hh |]. split; [exact Hp | now right].
    - apply find_char_lacks in Hcolon.
      eexists _, _. split; [reflexivity |]. split; [exact Hcolon |].
      split; [exact Hauth |].
      split; [now destruct (String.eqb _ "https") | now left]. }
  destruct Hhp as (h & p & -> & Hh1 & Hh2 & Hp & Hshape).
  destruct (String.eqb h "") eqn:Hempty; [discriminate |].
  intros [= <-]. cbn [scheme host port target].
  apply String.eqb_neq in Hempty.
  repeat (split; [assumption |]).
  exists authority, path. split; [| now split].
  unfold substr. cbn [str_drop]. now rewrite <- HD.
Qed.

Lemma X5_parseUrl_parts_come_from_url_witness :
  lacks_char "/" "localhost" = true
  /\ exists authority path,
       "http://localhost:4000/graphql"
       = "http" +:+ "://" +:+ authority +:+ path
       /\ (authority = "localhost" \/ authority = "localhost" +:+ ":" +:+ "4000")
       /\ (path = "/graphql" \/ (path = "" /\ "/graphql" = "/")).
Proof.
  destruct (X5_parseUrl_parts_come_from_url "http://localhost:4000/graphql"
              (mkUrlParts "http" "localhost" "4000" "/graphql") eq_refl)
    as (_ & _ & Hslash & _ & _ & Hurl).
  split; [exact Hslash | exact Hurl].
Defined.

(* ------------------------------------------------------------------ *)
(** ** Mapper: nodes, pages and error lists *)

Lemma json_value_string_cases j key default :
  json_value get_string j key default
  = if is_object j && string_or_absent j key
    then Return (string_field j key default)
    else Throw (if is_object j then type_error_302 else type_error_306).
Proof.
  unfold json_value, string_or_absent, string_field, json_find.
  destruct j as [| b | q | s | l | m]; try reflexivity. simpl.
  destruct (m !! key) as [[| b | q | s | l | m'] |]; reflexivity.
Qed.

(** X6.  [parseProductNode] returns exactly on objects whose [id],
    [title] and [updatedAt] members are each absent or a string; the
    product then has the member, or the empty string where it is absent.
    On any other node it throws a json type error. *)
Theorem X6_parseProductNode_returns_iff (node : json) :
  (node_ok node = true ->
   parseProductNode node
   = Return (mkProduct (string_field node "id" "")
               (string_field node "title" "")
               (string_field node "updatedAt" "")))
  /\ (node_ok node = false ->
      exists e, parseProductNode node = Throw e
                /\ is_json_exception e = true).
Proof.
  unfold parseProductNode, node_ok. rewrite !json_value_string_cases.
  destruct (is_object node); simpl.
  - destruct (string_or_absent node "id"); simpl;
      [| split; [discriminate | eauto]].
    destruct (string_or_absent node "title"); simpl;
      [| split; [discriminate | eauto]].
    destruct (string_or_absent node "updatedAt"); simpl;
      [split; [reflexivity | discriminate] | split; [discriminate | eauto]].
  - split; [discriminate | eauto].
Qed.

(** X7.  Members other than [id], [title] and [updatedAt] play no part:
    adding or overwriting any other member of a node leaves the result of
    [parseProductNode] unchanged. *)
Theorem X7_parseProductNode_ignores_other_members
    (m : gmap string json) (key : string) (v : json) :
  key <> "id" -> key <> "title" -> key <> "updatedAt" ->
  parseProductNode (JObj (<[key := v]> m)) = parseProductNode (JObj m).
Proof.
  intros Hid Htitle Hupd. unfold parseProductNode, json_value.
  now rewrite !lookup_insert_ne by assumption.
Qed.

Lemma X7_parseProductNode_ignores_other_members_witness :
  parseProductNode
    (JObj (<["vendor" := JStr "Acme"]>
             (<["id" := JStr "gid://shopify/Product/99"]> ∅)))
  = Return (mkProduct "gid://shopify/Product/99" "" "").
Proof.
  rewrite X7_parseProductNode_ignores_other_members by discriminate.
  reflexivity.
Defined.

Lemma X6_parseProductNode_returns_iff_witness :
  parseProductNode (obj [("id", JStr "gid://shopify/Product/42")])
  = Return (mkProduct "gid://shopify/Product/42" "" "")
  /\ exists e, parseProductNode (obj [("id", JNum (NInt 42))]) = Throw e
               /\ is_json_exception e = true.
Proof.
  split.
  - apply (X6_parseProductNode_returns_iff
             (obj [("id", JStr "gid://shopify/Product/42")])).
    reflexivity.
  - apply (X6_parseProductNode_returns_iff (obj [("id", JNum (NInt 42))])).
    reflexivity.
Defined.

Lemma parse_edge_mock r (cp : string * Product) :
  parse_edge r (mock_edge cp)
  = Return (mkPageResult (products r ++ [snd cp]) (Some (fst cp))
              (hasNextPage r)).
Proof. destruct cp as [c [i t u]]. reflexivity. Qed.

Lemma parse_edges_mock (items : catalogue) : forall r,
  parse_edges (map mock_edge items) r
  = Return (mkPageResult (products r ++ map snd items)
              (match last (map fst items) with
               | Some c => Some c
               | None => lastCursor r
               end)
              (hasNextPage r)).
Proof.
  induction items as [| cp items IH]; intros r; simpl.
  - rewrite app_nil_r. now destruct r.
  - rewrite parse_edge_mock. simpl. rewrite IH. simpl.
    rewrite <- app_assoc. simpl. f_equal. f_equal.
    rewrite last_cons. now destruct (last (map fst items)).
Qed.

(** X8.  Page round trip.  A response body built from any list of
    (cursor, product) pairs, one edge per pair with the product's three
    fields as its node, and any [hasNextPage] flag, is parsed back into
    exactly those products in the same order, the cursor of the last
    pair (none for the empty list) and that flag. *)
Theorem X8_parseProductsPage_round_trip (items : catalogue) (more : bool) :
  parseProductsPage (page_body (map mock_edge items) more)
  = Return (mkPageResult (map snd items) (last (map fst items)) more).
Proof.
  set (I := obj [("hasNextPage", JBool more)]).
  set (P := obj [("edges", JArr (map mock_edge items)); ("pageInfo", I)]).
  set (D := obj [("products", P)]).
  assert (H1 : json_find (page_body (map mock_edge items) more) "data"
               = Some D) by reflexivity.
  assert (H2 : json_find D "products" = Some P) by reflexivity.
  assert (H3 : edges_of P = map mock_edge items) by reflexivity.
  assert (H4 : json_find P "pageInfo" = Some I) by reflexivity.
  assert (H5 : json_value get_bool I "hasNextPage" false = Return more)
    by reflexivity.
  unfold parseProductsPage. rewrite H1.
  change (is_null D) with false. cbv iota.
  rewrite H2, H3, parse_edges_mock. cbn [obind]. rewrite H4, H5.
  cbn [obind products lastCursor PageResult_new app].
  now destruct (last (map fst items)).
Qed.

Lemma error_messages_cases (errs : list json) :
  if forallb error_entry_ok errs
  then error_messages errs
       = Return (map (fun err => string_field err "message"
                                   "Unknown GraphQL error") errs)
  else exists e, error_messages errs = Throw e /\ is_json_exception e = true.
Proof.
  induction errs as [| err errs IH]; simpl; [reflexivity |].
  rewrite json_value_string_cases. unfold error_entry_ok at 1.
  destruct (is_object err && string_or_absent err "message"); simpl.
  - destruct (forallb error_entry_ok errs).
    + now rewrite IH.
    + destruct IH as (e & -> & He). simpl. eauto.
  - destruct (is_object err); eauto.
Qed.

(** X9.  [extractGraphqlErrors] returns the empty list when the body has
    no [errors] member or one that is not an array.  On an array it
    returns one message per entry, in order (the [message] member, or
    "Unknown GraphQL error" where it is absent), provided every entry is
    an object whose [message] is absent or a string; if some entry is not,
    it throws a json type error instead of returning. *)
Theorem X9_extractGraphqlErrors_returns_or_throws (responseBody : json) :
  match json_find responseBody "errors" with
  | Some (JArr errs) =>
      if forallb error_entry_ok errs
      then extractGraphqlErrors responseBody
           = Return (map (fun err => string_field err "message"
                                       "Unknown GraphQL error") errs)
      else exists e, extractGraphqlErrors responseBody = Throw e
                     /\ is_json_exception e = true
  | _ => extractGraphqlErrors responseBody = Return []
  end.
Proof.
  unfold extractGraphqlErrors.
  destruct (json_find responseBody "errors") as [[| b | q | s | errs | m] |];
    try reflexivity.
  apply error_messages_cases.
Qed.

(** An [errors] array holding a bare string makes the extraction throw. *)
Example extractGraphqlErrors_throws_on_string_entry :
  extractGraphqlErrors (obj [("errors", JArr [JStr "boom"])])
  = Throw type_error_306.
Proof. reflexivity. Qed.

Lemma omap_node_filter_length (edges : list json) :
  length (omap (fun e => json_find e "node") edges)
  = length (List.filter (fun e => contains e "node") edges).
Proof.
  induction edges as [| e edges IH]; simpl; [reflexivity |].
  unfold contains in *. destruct (json_find e "node"); simpl;
    [f_equal |]; exact IH.
Qed.

(** X10.  A parsed page has exactly one record per edge that carries a
    [node] member, so never more records than the response has edges; an
    edge without node contributes no record. *)
Theorem X10_parseProductsPage_one_record_per_node (responseBody : json)
    (page : PageResult) :
  parseProductsPage responseBody = Return page ->
  length (products page)
  = length (List.filter (fun e => contains e "node")
              (response_edges responseBody))
  /\ (length (products page) <= length (response_edges responseBody))%nat.
Proof.
  intros Hparse.
  destruct (parseProductsPage_spec _ _ Hparse) as [_ Hrec].
  apply Forall2_length in Hrec. rewrite omap_node_filter_length in Hrec.
  split; [now symmetry |]. rewrite <- Hrec. apply List.filter_length_le.
Qed.

Lemma X10_parseProductsPage_one_record_per_node_witness :
  exists page,
    parseProductsPage
      (page_body [obj [("cursor", JStr "c1"); ("node", obj [])];
                  obj [("cursor", JStr "c2")]] false) = Return page
    /\ length (products page) = 1%nat.
Proof.
  eexists. split; [reflexivity |].
  match goal with
  | |- length (products ?pg) = _ =>
      destruct (X10_parseProductsPage_one_record_per_node
                  (page_body [obj [("cursor", JStr "c1"); ("node", obj [])];
                              obj [("cursor", JStr "c2")]] false) pg eq_refl)
        as [Hlen _]
  end.
  rewrite Hlen. reflexivity.
Defined.

(* ------------------------------------------------------------------ *)
(** ** Throttle: what observations and the gate change *)

(** A guarded read that does not throw stores the member, if any. *)
Lemma read_double_into_value parent key set t :
  wrong_type_number parent key = false ->
  read_double_into parent key set t
  = (Return tt,
     match json_find parent key with
     | Some (JNum n) => set (number_to_double n) t
     | _ => t
     end).
Proof.
  unfold wrong_type_number, read_double_into.
  destruct (json_find parent key) as [[| b | q | s | l | m] |];
    simpl; try discriminate; reflexivity.
Qed.

Lemma read_throttleStatus_value ts t :
  wrong_type_number ts "maximumAvailable" = false ->
  wrong_type_number ts "currentlyAvailable" = false ->
  wrong_type_number ts "restoreRate" = false ->
  exists t', read_throttleStatus ts t = (Return tt, t')
    /\ same_aggregates t t'
    /\ mLastRequestedCost t' = mLastRequestedCost t
    /\ mMaximumAvailable t'
       = updated ts "maximumAvailable" (mMaximumAvailable t)
    /\ mCurrentlyAvailable t'
       = updated ts "currentlyAvailable" (mCurrentlyAvailable t)
    /\ mRestoreRate t' = updated ts "restoreRate" (mRestoreRate t).
Proof.
  intros H1 H2 H3. unfold read_throttleStatus, bind, updated.
  rewrite (read_double_into_value _ _ _ _ H1).
  rewrite (read_double_into_value _ _ _ _ H2).
  rewrite (read_double_into_value _ _ _ _ H3).
  eexists. split; [reflexivity |].
  destruct (json_find ts "maximumAvailable") as [[| ? | q1 | ? | ? | ?] |];
    destruct (json_find ts "currentlyAvailable")
      as [[| ? | q2 | ? | ? | ?] |];
    destruct (json_find ts "restoreRate") as [[| ? | q3 | ? | ? | ?] |];
    repeat split.
Qed.

(** What one observation of a well-typed cost extension writes. *)
Lemma observeResponse_well_typed (r cost : json)
    (t : ThrottleController) :
  cost_member r = Some cost ->
  bad_number_subfield r = false ->
  let t' := snd (observeResponse r t) in
  mLastRequestedCost t'
    = updated cost "requestedQueryCost" (mLastRequestedCost t)
  /\ mMaximumAvailable t'
     = updated_status cost "maximumAvailable" (mMaximumAvailable t)
  /\ mCurrentlyAvailable t'
     = updated_status cost "currentlyAvailable" (mCurrentlyAvailable t)
  /\ mRestoreRate t' = updated_status cost "restoreRate" (mRestoreRate t)
  /\ mTotalCost t' = (mTotalCost t + mLastRequestedCost t')%float
  /\ mObservationCount t' = mObservationCount t + 1
  /\ mHasObserved t' = true
  /\ mTotalSleep t' = mTotalSleep t
  /\ mSafetyMargin t' = mSafetyMargin t.
Proof.
  unfold cost_member, bad_number_subfield.
  destruct (json_find r "extensions") as [e |] eqn:He; [| discriminate].
  intros Hcost. rewrite Hcost. cbv zeta. intros Hgood.
  apply orb_false_iff in Hgood as [Hreq Hts].
  unfold observeResponse, try_catch, observeResponse_try.
  rewrite He, Hcost. unfold bind.
  rewrite (read_double_into_value _ _ _ _ Hreq).
  unfold updated_status.
  destruct (json_find cost "throttleStatus") as [ts |].
  - apply orb_false_iff in Hts as [Hts H3].
    apply orb_false_iff in Hts as [H1 H2].
    destruct (read_throttleStatus_value ts
                match json_find cost "requestedQueryCost" with
                | Some (JNum n) =>
                    set_mLastRequestedCost (number_to_double n) t
                | _ => t
                end H1 H2 H3)
      as (t2 & -> & (A1 & A2 & A3 & A4 & A5) & L & M1 & M2 & M3).
    simpl. rewrite L, M1, M2, M3, A1, A4, A5, A2.
    unfold updated.
    destruct (json_find cost "requestedQueryCost")
      as [[| ? | q | ? | ? | ?] |]; repeat split.
  - simpl. unfold updated.
    destruct (json_find cost "requestedQueryCost")
      as [[| ? | q | ? | ? | ?] |]; repeat split.
Qed.

(** X11.  Partial updates.  When a response carries [extensions.cost] and
    none of its numeric subfields has a wrong type, [observeResponse]
    sets each budget field to the subfield's value where the subfield is
    present and leaves it as it was where it is absent (all three status
    fields when [throttleStatus] itself is absent); it then adds the
    resulting last cost to the cost sum, counts one observation and sets
    the has-observed flag; the sleep total and safety margin are
    untouched. *)
Theorem X11_observeResponse_partial_update (r cost : json)
    (t : ThrottleController) :
  cost_member r = Some cost ->
  bad_number_subfield r = false ->
  let t' := snd (observeResponse r t) in
  mLastRequestedCost t'
    = updated cost "requestedQueryCost" (mLastRequestedCost t)
  /\ mMaximumAvailable t'
     = updated_status cost "maximumAvailable" (mMaximumAvailable t)
  /\ mCurrentlyAvailable t'
     = updated_status cost "currentlyAvailable" (mCurrentlyAvailable t)
  /\ mRestoreRate t' = updated_status cost "restoreRate" (mRestoreRate t)
  /\ mTotalCost t' = (mTotalCost t + mLastRequestedCost t')%float
  /\ mObservationCount t' = mObservationCount t + 1
  /\ mHasObserved t' = true
  /\ mTotalSleep t' = mTotalSleep t
  /\ mSafetyMargin t' = mSafetyMargin t.
Proof. exact (observeResponse_well_typed r cost t). Qed.

Lemma X11_observeResponse_partial_update_witness :
  let t := snd (observeResponse (makeThrottleResponse 52 200 148 50)
                  (ThrottleController_new 20)) in
  let t' := snd (observeResponse response_only_throttleStatus t) in
  mLastRequestedCost t' = mLastRequestedCost t
  /\ mMaximumAvailable t' = mMaximumAvailable t
  /\ mCurrentlyAvailable t' = 40%float
  /\ mRestoreRate t' = 75%float.
Proof.
  intros t t'.
  destruct (X11_observeResponse_partial_update response_only_throttleStatus
              _ t eq_refl eq_refl) as (H1 & H2 & H3 & H4 & _).
  split; [exact H1 |]. split; [exact H2 |]. split; [exact H3 | exact H4].
Defined.

(** One observation, by cases on the response. *)
Lemma observeResponse_step r t :
  if counts_observation r
  then exists u, snd (observeResponse r t) = record_observation u
         /\ same_aggregates t u
  else same_aggregates t (snd (observeResponse r t)).
Proof.
  unfold counts_observation.
  destruct (has_cost_extension r) eqn:Hc; simpl.
  - pose proof Hc as Hc'. unfold has_cost_extension, contains in Hc'.
    destruct (json_find r "extensions") as [e |] eqn:He; [| discriminate].
    destruct (json_find e "cost") as [c |] eqn:Hcost; [| discriminate].
    destruct (observeResponse_try_cost r e c t He Hcost)
      as (o & t' & Ht & H).
    unfold observeResponse, try_catch. rewrite Ht.
    destruct (bad_number_subfield r); simpl.
    + destruct H as (-> & A & _). exact A.
    + destruct H as (-> & u & -> & A & _). exists u. split; [reflexivity | exact A].
  - rewrite observeResponse_no_cost by exact Hc. apply same_aggregates_refl.
Qed.

(** X12.  Counting observations.  Over any sequence of responses
    [observeResponse] raises the observation count by exactly the number
    of responses that carry [extensions.cost] with no wrong-typed numeric
    subfield; the has-observed flag is never reset and is set as soon as
    one such response is seen; the cumulative sleep and the safety margin
    are never touched.  In particular, a fresh controller reports between
    0 and [length rs] observations, and has observed exactly when that
    count is positive. *)
Theorem X12_observe_all_counts (rs : list json) (t : ThrottleController) :
  let t' := observe_all rs t in
  totalObservations t'
    = totalObservations t
      + Z.of_nat (length (List.filter counts_observation rs))
  /\ mHasObserved t' = mHasObserved t || existsb counts_observation rs
  /\ totalSleepSeconds t' = totalSleepSeconds t
  /\ mSafetyMargin t' = mSafetyMargin t
  /\ (mObservationCount t = 0 -> mHasObserved t = false ->
      0 <= totalObservations t' <= Z.of_nat (length rs)
      /\ (mHasObserved t' = true <-> 0 < totalObservations t')).
Proof.
  cbv zeta. unfold totalObservations, totalSleepSeconds.
  assert (Hmain : forall rs t,
    mObservationCount (observe_all rs t)
      = mObservationCount t
        + Z.of_nat (length (List.filter counts_observation rs))
    /\ mHasObserved (observe_all rs t)
       = mHasObserved t || existsb counts_observation rs
    /\ mTotalSleep (observe_all rs t) = mTotalSleep t
    /\ mSafetyMargin (observe_all rs t) = mSafetyMargin t).
  { clear rs t. induction rs as [| r rs IH]; intros t.
    - simpl. rewrite Z.add_0_r, orb_false_r. repeat split.
    - change (observe_all (r :: rs) t)
        with (observe_all rs (snd (observeResponse r t))).
      destruct (IH (snd (observeResponse r t))) as (I1 & I2 & I3 & I4).
      rewrite I1, I2, I3, I4.
      pose proof (observeResponse_step r t) as Hstep.
      cbn [List.filter existsb].
      destruct (counts_observation r).
      + destruct Hstep as (u & -> & (_ & A2 & A3 & A4 & A5)).
        cbn [length]. simpl mObservationCount. simpl mHasObserved.
        simpl mTotalSleep. simpl mSafetyMargin.
        rewrite A2, A4, A5, orb_true_r.
        repeat split. lia.
      + destruct Hstep as (_ & A2 & A3 & A4 & A5).
        rewrite A2, A3, A4, A5. repeat split. }
  destruct (Hmain rs t) as (H1 & H2 & H3 & H4).
  split; [exact H1 |]. split; [exact H2 |]. split; [exact H3 |].
  split; [exact H4 |].
  intros Hzero Hfalse. rewrite H1, H2, Hzero, Hfalse. cbn [orb].
  pose proof (List.filter_length_le counts_observation rs) as Hle.
  split; [lia |].
  clear. induction rs as [| r rs IH]; cbn [List.filter existsb length].
  - split; [discriminate | lia].
  - destruct (counts_observation r); cbn [orb length].
    + split; [lia | reflexivity].
    + exact IH.
Qed.

Lemma X12_observe_all_counts_witness :
  let rs := [makeThrottleResponse 10 1000 900 50;
             response_extensions_not_object;
             response_bad_restoreRate;
             makeThrottleResponse 30 1000 800 50] in
  let t' := observe_all rs (ThrottleController_new 0) in
  totalObservations t' = 2 /\ mHasObserved t' = true.
Proof.
  intros rs t'.
  destruct (X12_observe_all_counts rs (ThrottleController_new 0))
    as (H1 & H2 & _ & _ & H5).
  destruct (H5 eq_refl eq_refl) as [_ Hiff].
  split; [exact H1 | exact H2].
Defined.

(** Observing a response whose cost the throttle can read whole. *)
Lemma observeResponse_observed r q t :
  observed_cost r = Some q ->
  let t' := snd (observeResponse r t) in
  mLastRequestedCost t' = q
  /\ mTotalCost t' = (mTotalCost t + q)%float
  /\ mObservationCount t' = mObservationCount t + 1.
Proof.
  unfold observed_cost.
  destruct (cost_member r) as [cost |] eqn:Hcost; [| discriminate].
  destruct (json_find cost "requestedQueryCost")
    as [[| ? | q' | ? | ? | ?] |] eqn:Hq; try discriminate.
  destruct (bad_number_subfield r) eqn:Hbad; [discriminate |].
  intros [= <-]. cbv zeta.
  destruct (observeResponse_well_typed r cost t Hcost Hbad)
    as (H1 & _ & _ & _ & H5 & H6 & _).
  unfold updated in H1. rewrite Hq in H1.
  rewrite H5, H6, H1. repeat split.
Qed.

Lemma last_cons_default {A} (l : list A) : forall a d d',
  List.last (a :: l) d = List.last (a :: l) d'.
Proof.
  induction l as [| b l IH]; intros a d d'; [reflexivity |].
  change (List.last (b :: l) d = List.last (b :: l) d'). apply IH.
Qed.

Lemma observe_all_observed rs : forall costs t,
  Forall2 (fun r q => observed_cost r = Some q) rs costs ->
  mLastRequestedCost (observe_all rs t)
    = List.last costs (mLastRequestedCost t)
  /\ mTotalCost (observe_all rs t)
     = fold_left PrimFloat.add costs (mTotalCost t)
  /\ mObservationCount (observe_all rs t)
     = mObservationCount t + Z.of_nat (length costs).
Proof.
  induction rs as [| r rs IH]; intros costs t Hall.
  - apply Forall2_nil_inv_l in Hall as ->. simpl.
    rewrite Z.add_0_r. repeat split.
  - apply Forall2_cons_inv_l in Hall as (q & costs' & Hq & Hall & ->).
    change (observe_all (r :: rs) t)
      with (observe_all rs (snd (observeResponse r t))).
    destruct (IH costs' (snd (observeResponse r t)) Hall) as (I1 & I2 & I3).
    destruct (observeResponse_observed r q t Hq) as (O1 & O2 & O3).
    rewrite I1, I2, I3, O1, O2, O3. split; [| split].
    + destruct costs' as [| q0 l]; [reflexivity |].
      change (List.last (q :: q0 :: l) (mLastRequestedCost t))
        with (List.last (q0 :: l) (mLastRequestedCost t)).
      apply last_cons_default.
    + reflexivity.
    + cbn [length]. lia.
Qed.

(** X13.  The average is the rounded sum over the count.  When every
    response of a sequence carries a numeric [requestedQueryCost] and no
    wrong-typed budget subfield, a fresh controller that observed them
    all holds as cost sum the costs added one by one from 0.0, left to
    right, each addition rounded to a double; their number as
    observation count; and the last of them as last requested cost.
    [avgQueryCost] is that sum divided (rounded once more) by the count,
    and 0.0 for the empty sequence. *)
Theorem X13_avgQueryCost_is_mean (rs : list json) (costs : list float)
    (safetyMargin : float) :
  Forall2 (fun r q => observed_cost r = Some q) rs costs ->
  let t' := observe_all rs (ThrottleController_new safetyMargin) in
  mTotalCost t' = fold_left PrimFloat.add costs 0%float
  /\ totalObservations t' = Z.of_nat (length costs)
  /\ mLastRequestedCost t' = List.last costs 0%float
  /\ avgQueryCost t'
     = match costs with
       | [] => 0%float
       | _ => (fold_left PrimFloat.add costs 0
               / of_Z (Z.of_nat (length costs)))%float
       end.
Proof.
  intros Hall t'.
  destruct (observe_all_observed rs costs
              (ThrottleController_new safetyMargin) Hall) as (H1 & H2 & H3).
  fold t' in H1, H2, H3.
  cbn [ThrottleController_new mLastRequestedCost mTotalCost
       mObservationCount] in H1, H2, H3.
  unfold totalObservations, avgQueryCost.
  rewrite H2, H3. split; [reflexivity |]. split; [reflexivity |].
  split; [exact H1 |].
  destruct costs as [| q costs]; [reflexivity |].
  destruct (Z.eqb_spec (0 + Z.of_nat (length (q :: costs))) 0) as [Hz | _].
  - cbn [length] in Hz. lia.
  - reflexivity.
Qed.

(** Costs 10, 20, 30 average to 20; costs 0.1 and 0.2 sum to
    0.30000000000000004 and average to 0.15000000000000002. *)
Lemma X13_avgQueryCost_is_mean_witness :
  let rs := [makeThrottleResponse 10 1000 900 50;
             makeThrottleResponse 20 1000 880 50;
             makeThrottleResponse 30 1000 850 50] in
  let rs' := [makeThrottleResponse 0.1 1000 900 50;
              makeThrottleResponse 0.2 1000 880 50] in
  (avgQueryCost (observe_all rs (ThrottleController_new 0)) = 20%float
   /\ totalObservations (observe_all rs (ThrottleController_new 0)) = 3)
  /\ mTotalCost (observe_all rs' (ThrottleController_new 0))
     = 0.30000000000000004%float
  /\ avgQueryCost (observe_all rs' (ThrottleController_new 0))
     = 0.15000000000000002%float.
Proof.
  intros rs rs'.
  assert (Hall : Forall2 (fun r q => observed_cost r = Some q) rs
                   [10; 20; 30]%float).
  { repeat constructor. }
  assert (Hall' : Forall2 (fun r q => observed_cost r = Some q) rs'
                    [0.1; 0.2]%float).
  { repeat constructor. }
  destruct (X13_avgQueryCost_is_mean rs _ 0%float Hall)
    as (_ & H2 & _ & H4).
  destruct (X13_avgQueryCost_is_mean rs' _ 0%float Hall')
    as (H1' & _ & _ & H4').
  split; [split; [exact H4 | exact H2] |].
  split; [exact H1' | exact H4'].
Defined.

(** The gate either does nothing or adds the local [sleepSeconds] to the
    cumulative sleep and sleeps its thousandfold, converted. *)
Lemma maybeSleep_cases t :
  maybeSleepBeforeNextRequest t = (t, None)
  \/ maybeSleepBeforeNextRequest t
     = (set_mTotalSleep (mTotalSleep t + gate_seconds t)%float t,
        Some (to_int64 (gate_seconds t * 1000)%float)).
Proof.
  unfold maybeSleepBeforeNextRequest, gate_seconds.
  destruct (negb (mHasObserved t) || (mRestoreRate t <=? 0)%float);
    [now left |].
  destruct (mLastRequestedCost t + mSafetyMargin t
            <=? mCurrentlyAvailable t)%float; [now left |].
  destruct (0 <? std_max 0 _)%float; [now right | now left].
Qed.

(** The decision of the gate does not read the cumulative sleep. *)
Lemma maybeSleep_set_mTotalSleep v t :
  maybeSleepBeforeNextRequest (set_mTotalSleep v t)
  = match snd (maybeSleepBeforeNextRequest t) with
    | Some ms => (set_mTotalSleep (v + gate_seconds t)%float t, Some ms)
    | None => (set_mTotalSleep v t, None)
    end.
Proof.
  unfold maybeSleepBeforeNextRequest, gate_seconds.
  cbn [set_mTotalSleep mHasObserved mRestoreRate mLastRequestedCost
       mSafetyMargin mCurrentlyAvailable mTotalSleep mMaximumAvailable
       mTotalCost mObservationCount].
  destruct (negb (mHasObserved t) || (mRestoreRate t <=? 0)%float);
    [reflexivity |].
  destruct (mLastRequestedCost t + mSafetyMargin t
            <=? mCurrentlyAvailable t)%float; [reflexivity |].
  destruct (0 <? std_max 0 _)%float; reflexivity.
Qed.

Lemma gate_n_from n t : forall v,
  let s := snd (maybeSleepBeforeNextRequest t) in
  gate_n n (set_mTotalSleep v t)
  = (set_mTotalSleep
       (match s with
        | Some _ => add_n n v (gate_seconds t)
        | None => v
        end) t,
     List.repeat s n).
Proof.
  cbv zeta. induction n as [| n IH]; intros v.
  - cbn [gate_n add_n List.repeat].
    destruct (snd (maybeSleepBeforeNextRequest t)); reflexivity.
  - cbn [gate_n]. rewrite maybeSleep_set_mTotalSleep.
    destruct (snd (maybeSleepBeforeNextRequest t)) as [ms |] eqn:Hs.
    + rewrite IH. reflexivity.
    + rewrite IH. reflexivity.
Qed.

(** X14.  The gate does not credit the budget it waited for.  Called [n]
    times in a row with no observation in between,
    [maybeSleepBeforeNextRequest] takes the same decision every time: it
    asks for the same sleep as the first call, no field of the controller
    but the cumulative sleep changes, and when it sleeps the cumulative
    sleep has the first call's [sleepSeconds] added to it [n] times, each
    addition rounded. *)
Theorem X14_gate_repeats_its_decision (n : nat) (t : ThrottleController) :
  let s := snd (maybeSleepBeforeNextRequest t) in
  let t' := fst (gate_n n t) in
  snd (gate_n n t) = List.repeat s n
  /\ fields_but_sleep t t'
  /\ totalSleepSeconds t'
     = match s with
       | Some _ => add_n n (totalSleepSeconds t) (gate_seconds t)
       | None => totalSleepSeconds t
       end
  /\ match s with
     | Some ms => ms = to_int64 (gate_seconds t * 1000)%float
     | None => True
     end.
Proof.
  cbv zeta.
  assert (Ht : t = set_mTotalSleep (mTotalSleep t) t)
    by (destruct t; reflexivity).
  pose proof (gate_n_from n t (mTotalSleep t)) as Hrun.
  cbv zeta in Hrun. rewrite <- Ht in Hrun. rewrite Hrun. cbn [fst snd].
  split; [reflexivity |]. split; [reflexivity |].
  split; [reflexivity |].
  destruct (maybeSleep_cases t) as [-> | ->]; cbn [snd]; [exact I |].
  reflexivity.
Qed.

(* ------------------------------------------------------------------ *)
(** ** Retry policy: attempts, sleeps and the retry counter *)

Lemma retries_in_app a b : retries_in (a ++ b) = (retries_in a + retries_in b)%nat.
Proof.
  unfold retries_in. now rewrite replies_of_app, List.filter_app, length_app.
Qed.

Lemma delivered_in_app a b : delivered_in (a ++ b) = delivered_in a ++ delivered_in b.
Proof. unfold delivered_in. now rewrite replies_of_app, omap_app. Qed.

Lemma delivered_in_quiet tr : quiet tr -> delivered_in tr = [].
Proof.
  unfold quiet, delivered_in. induction (replies_of tr) as [| r rs IH];
    intros Hq; [reflexivity |].
  apply Forall_cons in Hq as [Hr Hq]. simpl. rewrite Hr. now apply IH.
Qed.

Section RetryAccounting.
Context {W G : Type} `{Environment W G}.
Implicit Types (p : Paginator W G) (q : string) (v : json).

(** One attempt: what it adds to the trace and to the retry counter. *)
Lemma attempt_body_account q v attempt p :
  0 <= attempt <= kMaxAttempts - 1 ->
  let reply := fst (execute q v (mClient p)) in
  let r := fst (attempt_body q v attempt p) in
  let p' := snd (attempt_body q v attempt p) in
  totalRetries (mStats p')
    = totalRetries (mStats p) + (if counted_retry reply then 1 else 0)
  /\ match r with
     | Return (Done b) =>
         trace p' = trace p ++ [EvExecute v reply]
         /\ counted_retry reply = false
     | Return Again =>
         counted_retry reply = true /\ attempt < kMaxAttempts - 1
         /\ exists ms, trace p' = trace p ++ [EvExecute v reply; EvSleepMs ms]
              /\ backoff_floor attempt <= ms <= backoff_floor attempt + 100
     | Throw e => trace p' = trace p ++ [EvExecute v reply]
     end.
Proof.
  intros Ha reply r p'. subst reply r p'. rewrite attempt_body_cases.
  assert (Hms : backoff_floor attempt
                <= computeBackoffMs attempt kBaseMs kMaxMs
                     (fst (uniform_jitter (rng p)))
                <= backoff_floor attempt + 100).
  { pose proof (uniform_jitter_range (rng p)) as Hj.
    rewrite computeBackoffMs_default; [lia | | exact Hj].
    unfold kMaxAttempts in Ha. lia. }
  unfold counted_retry.
  destruct (fst (execute q v (mClient p))) as [resp | e] eqn:Hreply.
  - destruct (isRetryableStatus (httpStatus resp)) eqn:Hst.
    + destruct (Z.eqb_spec attempt (kMaxAttempts - 1)) as [Hlast | Hlast];
        cbn [fst snd].
      * split; [reflexivity |]. simpl. now rewrite Hreply.
      * split; [reflexivity |]. split; [reflexivity |]. split; [lia |].
        eexists. split; [| exact Hms]. simpl. rewrite Hreply.
        now rewrite <- app_assoc.
    + cbn [fst snd]. split; [simpl; lia |]. split; [| reflexivity].
      simpl. now rewrite Hreply.
  - destruct (is_runtime_error e) eqn:Hrt; cbn [andb].
    + destruct (str_contains "Max retries exceeded" (what e)) eqn:Hs;
        cbn [negb].
      * cbn [fst snd]. split; [simpl; lia |]. simpl. now rewrite Hreply.
      * destruct (Z.eqb_spec attempt (kMaxAttempts - 1)) as [Hlast | Hlast];
          cbn [fst snd].
        -- split; [reflexivity |]. simpl. now rewrite Hreply.
        -- split; [reflexivity |]. split; [reflexivity |]. split; [lia |].
           eexists. split; [| exact Hms]. simpl. rewrite Hreply.
           now rewrite <- app_assoc.
    + cbn [fst snd]. split; [simpl; lia |]. simpl. now rewrite Hreply.
Qed.

(** The retry loop from attempt [attempt] with [n] attempts left, the
    last of which has index [kMaxAttempts - 1]. *)
Lemma retry_loop_account q v n : forall attempt p,
  0 <= attempt -> attempt + Z.of_nat n = kMaxAttempts -> (1 <= n)%nat ->
  let r := fst (retry_loop n attempt q v p) in
  let p' := snd (retry_loop n attempt q v p) in
  exists tr, trace p' = trace p ++ tr
    /\ retry_shape v attempt tr
    /\ (1 <= length (requests_of tr) <= n)%nat
    /\ (length (sleeps_of tr) + 1 = length (requests_of tr))%nat
    /\ totalRetries (mStats p')
       = totalRetries (mStats p) + Z.of_nat (retries_in tr)
    /\ match r with
       | Return b => retries_in tr = length (sleeps_of tr)
       | Throw _ => True
       end.
Proof.
  induction n as [| n IH]; intros attempt p Hlo Hsum Hn; [lia |].
  cbn [retry_loop]. unfold bind.
  assert (Ha : 0 <= attempt <= kMaxAttempts - 1) by lia.
  pose proof (attempt_body_account q v attempt p Ha) as Hstep.
  cbv zeta in Hstep.
  set (reply := fst (execute q v (mClient p))) in *.
  destruct (attempt_body q v attempt p) as [[[b |] | e] p1];
    cbn [fst snd] in Hstep |- *; destruct Hstep as (Hret & Hstep).
  - destruct Hstep as (Htr & Hc). exists [EvExecute v reply].
    split; [exact Htr |]. split; [now split |].
    split; [simpl; lia |]. split; [reflexivity |].
    unfold ret. cbn [fst snd].
    rewrite Hret, Hc. unfold retries_in. simpl. rewrite Hc.
    split; [simpl; lia | reflexivity].
  - destruct Hstep as (Hc & Hlt & ms & Htr & Hms).
    assert (Hn' : (1 <= n)%nat) by lia.
    destruct (IH (attempt + 1) p1) as (tr & Htr' & Hshape & Hlen & Hsl & Hr & Hres);
      [lia | lia | exact Hn' |].
    exists ([EvExecute v reply; EvSleepMs ms] ++ tr).
    split; [rewrite Htr', Htr, <- app_assoc; reflexivity |].
    split.
    { cbn [app retry_shape]. split; [reflexivity |].
      split; [exact Hc |]. split; [exact Hlt |]. split; [exact Hms |].
      exact Hshape. }
    rewrite requests_of_app, sleeps_of_app, retries_in_app, !length_app.
    assert (Hone : retries_in [EvExecute v reply; EvSleepMs ms] = 1%nat).
    { unfold retries_in. simpl. now rewrite Hc. }
    rewrite Hone. cbn [requests_of sleeps_of length].
    split; [lia |]. split; [lia |].
    split; [rewrite Hr, Hret, Hc; lia |].
    destruct (fst (retry_loop n (attempt + 1) q v p1)); [lia | exact I].
  - exists [EvExecute v reply].
    split; [exact Hstep |]. split; [now split |].
    split; [simpl; lia |]. split; [reflexivity |].
    split; [| exact I].
    rewrite Hret. unfold retries_in. simpl.
    destruct (counted_retry reply); reflexivity.
Qed.

(** X15.  The attempts of one [executeWithRetry].  A call makes between
    one and six transport calls, all with the caller's variables; every
    call but the last was answered by a retryable reply (HTTP 429 or
    >= 500, or a runtime error other than the sentinel) and is followed by
    exactly one sleep, of [min(200 * 2^k, 5000)] to that plus 100
    milliseconds after attempt [k]; nothing follows the last call.  The
    retry counter grows by the number of retryable replies of the call,
    the last one included, which is the number of sleeps when the call
    returns a body. *)
Theorem X15_executeWithRetry_attempts q v p :
  let r := fst (executeWithRetry q v p) in
  let p' := snd (executeWithRetry q v p) in
  exists tr, trace p' = trace p ++ tr
    /\ retry_shape v 0 tr
    /\ (1 <= length (requests_of tr) <= 6)%nat
    /\ (length (sleeps_of tr) + 1 = length (requests_of tr))%nat
    /\ totalRetries (mStats p')
       = totalRetries (mStats p) + Z.of_nat (retries_in tr)
    /\ match r with
       | Return b => retries_in tr = length (sleeps_of tr)
       | Throw _ => True
       end.
Proof.
  unfold executeWithRetry. change (Z.to_nat kMaxAttempts) with 6%nat.
  apply retry_loop_account; [lia | reflexivity | lia].
Qed.
End RetryAccounting.

(* ------------------------------------------------------------------ *)
(** ** Pagination driver: statistics, call bound, escaping exceptions *)

Lemma delivered_in_silent tr : replies_of tr = [] -> delivered_in tr = [].
Proof. unfold delivered_in. now intros ->. Qed.

Lemma retries_in_silent tr : replies_of tr = [] -> retries_in tr = 0%nat.
Proof. unfold retries_in. now intros ->. Qed.

(** When [extractGraphqlErrors] throws, it is a json type error on an
    entry of the [errors] array. *)
Lemma extractGraphqlErrors_throws b e :
  extractGraphqlErrors b = Throw e ->
  is_json_exception e = true
  /\ exists errs, json_find b "errors" = Some (JArr errs)
       /\ forallb error_entry_ok errs = false.
Proof.
  unfold extractGraphqlErrors.
  destruct (json_find b "errors") as [[| ? | ? | ? | errs | ?] |];
    try discriminate.
  intros Hthrow. pose proof (error_messages_cases errs) as Hcases.
  destruct (forallb error_entry_ok errs) eqn:Hall.
  - rewrite Hcases in Hthrow. discriminate.
  - destruct Hcases as (e' & He' & Hjson). rewrite He' in Hthrow.
    injection Hthrow as <-. split; [exact Hjson |]. now exists errs.
Qed.

Section DriverAccounting.
Context {W G : Type} `{Environment W G}.
Implicit Types (p : Paginator W G) (st : loop_state).

(** The only way a processed response raises: its [errors] list. *)
Lemma process_response_throws st response p e :
  fst (process_response st response p) = Throw e ->
  extractGraphqlErrors response = Throw e.
Proof.
  rewrite process_response_cases.
  destruct (extractGraphqlErrors response) as [errors | e'];
    [| now intros [= ->]].
  destruct (negb (is_empty errors) && no_data response); [discriminate |].
  destruct (parseProductsPage response) as [page | e']; [| discriminate].
  destruct (is_empty (products page)); [discriminate |].
  destruct (negb (hasNextPage page)); discriminate.
Qed.

(** The gate leaves the observation count alone. *)
Lemma after_gate_observations p :
  mObservationCount (mThrottle (after_gate p))
  = mObservationCount (mThrottle p).
Proof.
  unfold after_gate, throttle_gate.
  destruct (maybeSleep_cases (mThrottle p)) as [-> | ->];
    reflexivity.
Qed.

(** One observation counts one or nothing. *)
Lemma observeResponse_count r t :
  mObservationCount (snd (observeResponse r t))
  = mObservationCount t + (if counts_observation r then 1 else 0).
Proof.
  pose proof (observeResponse_step r t) as Hstep.
  destruct (counts_observation r).
  - destruct Hstep as (u & -> & (_ & A & _)). simpl. now rewrite A.
  - destruct Hstep as (_ & A & _). rewrite A. lia.
Qed.

(** One iteration of the loop, in numbers. *)
Lemma loop_body_account totalLimit pageSize st p :
  let r := fst (loop_body totalLimit pageSize st p) in
  let p' := snd (loop_body totalLimit pageSize st p) in
  exists tr, trace p' = trace p ++ tr
    /\ (length (requests_of tr) <= 6)%nat
    /\ (length (delivered_in tr) <= 1)%nat
    /\ totalRequests (mStats p')
       = totalRequests (mStats p) + Z.of_nat (length (delivered_in tr))
    /\ totalRetries (mStats p')
       = totalRetries (mStats p) + Z.of_nat (retries_in tr)
    /\ totalObservations (mThrottle p')
       = totalObservations (mThrottle p)
         + Z.of_nat (length (List.filter counts_observation
                               (delivered_in tr)))
    /\ match r with
       | Return (Continue st') =>
           (length (allProducts st) < length (allProducts st'))%nat
       | Return (Break _) => True
       | Throw e =>
           exists b, last (delivered_in tr) = Some b
             /\ extractGraphqlErrors b = Throw e
       end.
Proof.
  intros r p'. subst r p'. rewrite loop_body_cases.
  set (v := request_variables _ _).
  destruct (throttle_gate_spec p) as (_ & _ & Hgs & tg & Htg & Hgr & Hgq).
  destruct (retry_loop_account kProductsQuery v 6 0 (after_gate p))
    as (tr1 & Ht1 & _ & Hlen & _ & Hret & _); [lia | reflexivity | lia |].
  destruct (retry_loop_trace kProductsQuery v 6 0 (after_gate p))
    as (Hthr & Hreq & tr1' & Ht1' & _ & Hdel).
  pose proof (after_gate_observations p) as Hobs.
  unfold totalObservations.
  cbv zeta in Ht1, Hret, Hreq, Ht1', Hdel, Hthr.
  rewrite Ht1 in Ht1'. apply app_inv_head in Ht1'. subst tr1'.
  unfold executeWithRetry. change (Z.to_nat kMaxAttempts) with 6%nat.
  destruct (retry_loop 6 0 kProductsQuery v (after_gate p))
    as [[response | e] p2]; cbn [fst snd] in *.
  - destruct Hdel as (trq & reply & -> & Hquiet & Hbody).
    assert (Hd : delivered_in (tg ++ trq ++ [EvExecute v reply])
                 = [response]).
    { rewrite !delivered_in_app, (delivered_in_silent tg Hgr),
        (delivered_in_quiet trq Hquiet).
      unfold delivered_in. simpl. now rewrite Hbody. }
    destruct (process_response_spec st response p2) as (Hp' & Hr).
    pose proof (process_response_throws st response p2) as Hthrow.
    exists (tg ++ trq ++ [EvExecute v reply]).
    rewrite Hp'. cbn [after_observe trace mStats].
    split; [rewrite Ht1, Htg, <- app_assoc; reflexivity |].
    rewrite Hd, requests_of_app, retries_in_app, length_app, Hgq,
      (retries_in_silent tg Hgr).
    cbn [length].
    split; [simpl; lia |]. split; [lia |].
    split; [simpl; rewrite Hreq, Hgs; lia |].
    split; [simpl; rewrite Hret, Hgs; lia |].
    split.
    { unfold after_observe. cbn [mThrottle].
      rewrite observeResponse_count, Hthr, Hobs. cbn [List.filter].
      destruct (counts_observation response); simpl; lia. }
    destruct (fst (process_response st response p2)) as [[st' | st'] | e].
    + destruct Hr as (Hall & Hne & _). rewrite Hall, length_app.
      destruct (records_of response); [contradiction | simpl; lia].
    + exact I.
    + exists response. split; [reflexivity | now apply Hthrow].
  - exists (tg ++ tr1).
    split; [rewrite Ht1, Htg, <- app_assoc; reflexivity |].
    rewrite delivered_in_app, (delivered_in_silent tg Hgr),
      (delivered_in_quiet tr1 Hdel), requests_of_app, retries_in_app,
      length_app, Hgq, (retries_in_silent tg Hgr).
    cbn [length app].
    split; [simpl; lia |]. split; [lia |].
    split; [rewrite Hreq, Hgs; lia |].
    split; [rewrite Hret, Hgs; lia |].
    split; [rewrite Hthr, Hobs; simpl; lia | exact I].
Qed.

(** The whole loop, in numbers; the bounds do not depend on the fuel. *)
Lemma fetch_loop_account L P fuel : forall st p,
  let r := fst (fetch_loop fuel L P st p) in
  let p' := snd (fetch_loop fuel L P st p) in
  let left := Z.to_nat (L - Z.of_nat (length (allProducts st))) in
  exists tr, trace p' = trace p ++ tr
    /\ (length (requests_of tr) <= 6 * left)%nat
    /\ (length (delivered_in tr) <= left)%nat
    /\ totalRequests (mStats p')
       = totalRequests (mStats p) + Z.of_nat (length (delivered_in tr))
    /\ totalRetries (mStats p')
       = totalRetries (mStats p) + Z.of_nat (retries_in tr)
    /\ totalObservations (mThrottle p')
       = totalObservations (mThrottle p)
         + Z.of_nat (length (List.filter counts_observation
                               (delivered_in tr)))
    /\ match r with
       | Throw e =>
           exists b, last (delivered_in tr) = Some b
             /\ extractGraphqlErrors b = Throw e
       | Return _ => True
       end.
Proof.
  assert (Hstop : forall (o : option (list Product)) st p,
    let left := Z.to_nat (L - Z.of_nat (length (allProducts st))) in
    exists tr, trace p = trace p ++ tr
      /\ (length (requests_of tr) <= 6 * left)%nat
      /\ (length (delivered_in tr) <= left)%nat
      /\ totalRequests (mStats p)
         = totalRequests (mStats p) + Z.of_nat (length (delivered_in tr))
      /\ totalRetries (mStats p)
         = totalRetries (mStats p) + Z.of_nat (retries_in tr)
      /\ totalObservations (mThrottle p)
         = totalObservations (mThrottle p)
           + Z.of_nat (length (List.filter counts_observation
                                 (delivered_in tr)))
      /\ True).
  { intros o st p left. exists []. rewrite app_nil_r.
    unfold retries_in, delivered_in. simpl. repeat split; lia. }
  induction fuel as [| fuel IH]; intros st p; cbn [fetch_loop].
  - destruct (Z.ltb_spec (Z.of_nat (length (allProducts st))) L);
      apply (Hstop None).
  - destruct (Z.ltb_spec (Z.of_nat (length (allProducts st))) L) as [Hlt |];
      [| apply (Hstop None)].
    unfold bind.
    destruct (loop_body_account L P st p)
      as (tr1 & Ht1 & Hq1 & Hd1 & Hr1 & Hy1 & Ho1 & Hres).
    destruct (loop_body L P st p) as [[[st' | st'] | e] p1];
      cbn [fst snd] in *.
    + destruct (IH st' p1) as (tr2 & Ht2 & Hq2 & Hd2 & Hr2 & Hy2 & Ho2 & Hres2).
      cbv zeta in *.
      exists (tr1 ++ tr2).
      split; [rewrite Ht2, Ht1, <- app_assoc; reflexivity |].
      rewrite requests_of_app, delivered_in_app, retries_in_app,
        List.filter_app, !length_app.
      split; [lia |]. split; [lia |]. split; [lia |]. split; [lia |].
      split; [lia |].
      destruct (fst (fetch_loop fuel L P st' p1)) as [o | e]; [exact I |].
      destruct Hres2 as (b & Hlast & Hb). exists b. split; [| exact Hb].
      rewrite last_app, Hlast. reflexivity.
    + exists tr1. cbv zeta. split; [exact Ht1 |].
      split; [lia |]. split; [lia |]. split; [exact Hr1 |].
      split; [exact Hy1 |]. split; [exact Ho1 | exact I].
    + exists tr1. cbv zeta. split; [exact Ht1 |].
      split; [lia |]. split; [lia |]. split; [exact Hr1 |].
      split; [exact Hy1 |]. split; [exact Ho1 | exact Hres].
Qed.

(** The run, with the statistics populated when it returns. *)
Lemma fetchAllProducts_account L P p :
  let r := fst (fetchAllProducts L P p) in
  let p' := snd (fetchAllProducts L P p) in
  exists tr, trace p' = trace p ++ tr
    /\ (length (requests_of tr) <= 6 * Z.to_nat L)%nat
    /\ (length (delivered_in tr) <= Z.to_nat L)%nat
    /\ totalRequests (mStats p')
       = totalRequests (mStats p) + Z.of_nat (length (delivered_in tr))
    /\ totalRetries (mStats p')
       = totalRetries (mStats p) + Z.of_nat (retries_in tr)
    /\ totalObservations (mThrottle p')
       = totalObservations (mThrottle p)
         + Z.of_nat (length (List.filter counts_observation
                               (delivered_in tr)))
    /\ match r with
       | Return (Some all) =>
           totalFetched (mStats p') = Z.of_nat (length all)
           /\ totalSleepSeconds_ (mStats p')
              = totalSleepSeconds (mThrottle p')
           /\ avgQueryCost_ (mStats p') = avgQueryCost (mThrottle p')
       | Return None => True
       | Throw e =>
           exists b, last (delivered_in tr) = Some b
             /\ extractGraphqlErrors b = Throw e
       end.
Proof.
  intros r p'. subst r p'. unfold fetchAllProducts, bind.
  destruct (fetch_loop_account L P (Z.to_nat L) (mkLoop [] None) p)
    as (tr & Ht & Hq & Hd & Hr & Hy & Ho & Hres).
  cbn [allProducts length] in Hq, Hd. rewrite Z.sub_0_r in Hq, Hd.
  destruct (fetch_loop (Z.to_nat L) L P (mkLoop [] None) p)
    as [[[all |] | e] p1]; cbn [fst snd] in *; exists tr.
  - repeat (split; [assumption |]). repeat split.
  - repeat (split; [assumption |]). exact I.
  - repeat (split; [assumption |]). exact Hres.
Qed.

(** X16.  The statistics of a run.  Over a whole [fetchAllProducts] the
    request counter grows by the number of responses handed to the
    driver (transport calls answered with a non-retryable status), the
    retry counter by the number of retryable replies, and the throttle's
    observation count by the number of handed-over responses that carry
    well-typed cost data: each such response is observed exactly once.
    When the run returns, [totalFetched] is the number of records
    returned and the reported sleep total and average cost are the
    throttle's. *)
Theorem X16_fetchAllProducts_statistics (totalLimit pageSize : Z) p :
  let r := fst (fetchAllProducts totalLimit pageSize p) in
  let p' := snd (fetchAllProducts totalLimit pageSize p) in
  exists tr, trace p' = trace p ++ tr
    /\ totalRequests (mStats p')
       = totalRequests (mStats p) + Z.of_nat (length (delivered_in tr))
    /\ totalRetries (mStats p')
       = totalRetries (mStats p) + Z.of_nat (retries_in tr)
    /\ totalObservations (mThrottle p')
       = totalObservations (mThrottle p)
         + Z.of_nat (length (List.filter counts_observation
                               (delivered_in tr)))
    /\ match r with
       | Return (Some all) =>
           totalFetched (mStats p') = Z.of_nat (length all)
           /\ totalSleepSeconds_ (mStats p')
              = totalSleepSeconds (mThrottle p')
           /\ avgQueryCost_ (mStats p') = avgQueryCost (mThrottle p')
       | _ => True
       end.
Proof.
  intros r p'.
  destruct (fetchAllProducts_account totalLimit pageSize p)
    as (tr & Ht & _ & _ & Hr & Hy & Ho & Hres).
  exists tr. split; [exact Ht |]. split; [exact Hr |].
  split; [exact Hy |]. split; [exact Ho |].
  subst r. destruct (fst (fetchAllProducts totalLimit pageSize p))
    as [[all |] | e]; [exact Hres | exact I | exact I].
Qed.

(** X17.  The cost of a run.  [fetchAllProducts] makes at most
    [6 * totalLimit] transport calls and is handed at most [totalLimit]
    responses; with [totalLimit <= 0] it returns the empty list at once,
    without a call, a sleep or a change to the throttle. *)
Theorem X17_fetchAllProducts_call_bound (totalLimit pageSize : Z) p :
  let r := fst (fetchAllProducts totalLimit pageSize p) in
  let p' := snd (fetchAllProducts totalLimit pageSize p) in
  exists tr, trace p' = trace p ++ tr
    /\ (length (requests_of tr) <= 6 * Z.to_nat totalLimit)%nat
    /\ (length (delivered_in tr) <= Z.to_nat totalLimit)%nat
    /\ (totalLimit <= 0 ->
        tr = [] /\ r = Return (Some []) /\ mThrottle p' = mThrottle p
        /\ mClient p' = mClient p).
Proof.
  intros r p'.
  destruct (fetchAllProducts_account totalLimit pageSize p)
    as (tr & Ht & Hq & Hd & _).
  exists tr. split; [exact Ht |]. split; [exact Hq |]. split; [exact Hd |].
  intros Hle. subst r p'.
  assert (Hrun : fetchAllProducts totalLimit pageSize p
                 = (Return (Some []), populate_stats [] p)).
  { unfold fetchAllProducts, bind.
    replace (Z.to_nat totalLimit) with 0%nat by lia. cbn [fetch_loop].
    cbn [allProducts length].
    destruct (Z.ltb_spec (Z.of_nat 0) totalLimit) as [Hlt |];
      [simpl in Hlt; lia | reflexivity]. }
  rewrite Hrun in *. cbn [fst snd populate_stats set_mStats trace] in *.
  split; [| repeat split].
  rewrite <- (app_nil_r (trace p)) in Ht at 1.
  apply app_inv_head in Ht. now symmetry.
Qed.

(** X18.  The one exception a run lets out.  If [fetchAllProducts]
    throws, the exception is the json type error that
    [extractGraphqlErrors] raised on the last response handed to the
    driver, whose [errors] member is an array with an entry that is not
    an object or whose [message] is not a string; transport failures,
    exhausted retries and mapper failures never leave the function. *)
Theorem X18_fetchAllProducts_throws_only_on_errors_list
    (totalLimit pageSize : Z) p (e : exn) :
  fst (fetchAllProducts totalLimit pageSize p) = Throw e ->
  is_json_exception e = true
  /\ exists tr b errs,
       trace (snd (fetchAllProducts totalLimit pageSize p)) = trace p ++ tr
       /\ last (delivered_in tr) = Some b
       /\ extractGraphqlErrors b = Throw e
       /\ json_find b "errors" = Some (JArr errs)
       /\ forallb error_entry_ok errs = false.
Proof.
  intros Hthrow.
  destruct (fetchAllProducts_account totalLimit pageSize p)
    as (tr & Ht & _ & _ & _ & _ & _ & Hres).
  cbv zeta in Hres. rewrite Hthrow in Hres.
  destruct Hres as (b & Hlast & Hb).
  destruct (extractGraphqlErrors_throws b e Hb) as (Hjson & errs & He & Hbad).
  split; [exact Hjson |].
  exists tr, b, errs. repeat split; assumption.
Qed.
End DriverAccounting.

(** A limit of zero on the mock server: nothing happens. *)
Lemma X17_fetchAllProducts_call_bound_witness :
  let p := fresh (W:=catalogue) mock_catalogue in
  fst (fetchAllProducts 0 10 p) = Return (Some [])
  /\ mThrottle (snd (fetchAllProducts 0 10 p)) = mThrottle p.
Proof.
  intros p.
  destruct (X17_fetchAllProducts_call_bound 0 10 p) as (tr & _ & _ & _ & H0).
  destruct (H0 ltac:(lia)) as (_ & Hr & Ht & _).
  split; [exact Hr | exact Ht].
Defined.

(** A 200 response whose [errors] array holds a bare string: the type
    error leaves [fetchAllProducts]. *)
Lemma X18_fetchAllProducts_throws_only_on_errors_list_witness :
  let p := fresh (W:=script)
             [http 200 (obj [("errors", JArr [JStr "boom"])]);
              http 200 body_three_edges] in
  fst (fetchAllProducts 5 5 p) = Throw type_error_306
  /\ is_json_exception type_error_306 = true.
Proof.
  intros p.
  assert (Hrun : fst (fetchAllProducts 5 5 p) = Throw type_error_306)
    by (vm_compute; reflexivity).
  destruct (X18_fetchAllProducts_throws_only_on_errors_list 5 5 p _ Hrun)
    as (Hjson & _).
  split; [exact Hrun | exact Hjson].
Defined.

(* ------------------------------------------------------------------ *)
(** ** Mapper: which bodies are accepted *)

Lemma parseProductNode_cases node :
  if node_ok node
  then exists record, parseProductNode node = Return record
  else exists e, parseProductNode node = Throw e
                 /\ is_json_exception e = true.
Proof.
  unfold parseProductNode, node_ok. rewrite !json_value_string_cases.
  destruct (is_object node); simpl; [| eauto].
  destruct (string_or_absent node "id"); simpl; [| eauto].
  destruct (string_or_absent node "title"); simpl; [| eauto].
  destruct (string_or_absent node "updatedAt"); simpl; eauto.
Qed.

Lemma parse_edge_cases result edge :
  if edge_ok edge
  then exists r, parse_edge result edge = Return r
  else exists e, parse_edge result edge = Throw e
                 /\ is_json_exception e = true.
Proof.
  unfold parse_edge, edge_ok, string_or_absent.
  destruct (json_find edge "node") as [node |].
  - pose proof (parseProductNode_cases node) as Hnode.
    destruct (node_ok node).
    + destruct Hnode as (record & ->). simpl.
      destruct (json_find edge "cursor") as [[| ? | ? | ? | ? | ?] |];
        simpl; eauto.
    + destruct Hnode as (e & -> & He). simpl. eauto.
  - simpl.
    destruct (json_find edge "cursor") as [[| ? | ? | ? | ? | ?] |];
      simpl; eauto.
Qed.

Lemma parse_edges_cases edges : forall result,
  if forallb edge_ok edges
  then exists r, parse_edges edges result = Return r
  else exists e, parse_edges edges result = Throw e
                 /\ is_json_exception e = true.
Proof.
  induction edges as [| edge edges IH]; intros result; simpl; [eauto |].
  pose proof (parse_edge_cases result edge) as Hedge.
  destruct (edge_ok edge); simpl.
  - destruct Hedge as (r & ->). simpl. apply IH.
  - destruct Hedge as (e & -> & He). simpl. eauto.
Qed.

(** X19.  Which bodies [parseProductsPage] accepts.  It returns a page
    exactly when the body has a [data] member that is null, or that
    carries a [products] member all of whose edges have an acceptable
    node (an object with string or absent [id], [title], [updatedAt]) or
    none, and a string cursor or none, and whose [pageInfo], if present,
    is an object with a boolean or absent [hasNextPage].  Otherwise it
    throws: a runtime error when [data] or [data.products] is missing, a
    json type error in every other case. *)
Theorem X19_parseProductsPage_returns_iff (responseBody : json) :
  if page_ok responseBody
  then exists page, parseProductsPage responseBody = Return page
  else exists e, parseProductsPage responseBody = Throw e
         /\ is_runtime_error e = missing_field responseBody
         /\ is_json_exception e = negb (missing_field responseBody).
Proof.
  unfold page_ok, missing_field, parseProductsPage, contains.
  destruct (json_find responseBody "data") as [data |]; [| simpl; eauto].
  destruct (is_null data); simpl; [eauto |].
  destruct (json_find data "products") as [products_j |]; [| simpl; eauto].
  pose proof (parse_edges_cases (edges_of products_j) PageResult_new)
    as Hedges.
  destruct (forallb edge_ok (edges_of products_j)); simpl.
  - destruct Hedges as (r & ->). simpl. unfold pageInfo_ok.
    destruct (json_find products_j "pageInfo")
      as [[| ? | ? | ? | ? | m] |]; simpl; eauto.
    destruct (m !! "hasNextPage") as [[| ? | ? | ? | ? | ?] |];
      simpl; eauto.
  - destruct Hedges as (e & -> & He). simpl. exists e.
    split; [reflexivity |]. split; [| exact He].
    destruct e; simpl in *; congruence.
Qed.

(* ------------------------------------------------------------------ *)
(** ** Backoff with caller-chosen base and cap *)

(** X20.  [computeBackoffMs] with a caller-chosen base and cap.  For a
    non-negative base, an attempt index from 0 to 62 whose doubled base
    [baseMs * 2^attempt] fits [int64_t], a cap below [2^63 - 100] and a
    jitter draw in 0..100, the delay is
    [min(baseMs * 2^attempt, maxMs) + jitter]: it never exceeds the cap
    by more than the jitter, and is at least the base whenever the base
    does not exceed the cap. *)
Theorem X20_computeBackoffMs_custom_base_and_cap
    (attempt baseMs maxMs jitter : Z) :
  0 <= attempt <= 62 -> 0 <= baseMs -> baseMs * 2 ^ attempt < 2 ^ 63 ->
  - 2 ^ 63 <= maxMs < 2 ^ 63 - 100 -> 0 <= jitter <= 100 ->
  let b := computeBackoffMs attempt baseMs maxMs jitter in
  b = Z.min (baseMs * 2 ^ attempt) maxMs + jitter
  /\ b <= maxMs + 100
  /\ (baseMs <= maxMs -> baseMs <= b).
Proof.
  intros Ha Hbase Hfit Hcap Hj b. subst b. unfold computeBackoffMs.
  rewrite Z.shiftl_1_l.
  assert (Hp : 1 <= 2 ^ attempt <= 2 ^ 62).
  { split.
    - change 1 with (2 ^ 0). apply Z.pow_le_mono_r; lia.
    - apply Z.pow_le_mono_r; lia. }
  change (2 ^ 62) with 4611686018427387904 in Hp.
  change (2 ^ 63) with 9223372036854775808 in *.
  assert (Hw1 : wrap64 (2 ^ attempt) = 2 ^ attempt).
  { apply wrap64_small. change (2 ^ 63) with 9223372036854775808. lia. }
  rewrite Hw1.
  assert (Hprod : 0 <= baseMs * 2 ^ attempt) by nia.
  assert (Hw2 : wrap64 (baseMs * 2 ^ attempt) = baseMs * 2 ^ attempt).
  { apply wrap64_small. change (2 ^ 63) with 9223372036854775808. lia. }
  rewrite Hw2.
  assert (Hw3 : wrap64 (Z.min (baseMs * 2 ^ attempt) maxMs + jitter)
                = Z.min (baseMs * 2 ^ attempt) maxMs + jitter).
  { apply wrap64_small. change (2 ^ 63) with 9223372036854775808. lia. }
  rewrite Hw3. split; [reflexivity |]. split; [lia |].
  intros Hle. assert (baseMs <= baseMs * 2 ^ attempt) by nia. lia.
Qed.

(** The custom case of test_util.cpp: base 100, cap 500, attempt 3. *)
Lemma X20_computeBackoffMs_custom_base_and_cap_witness :
  computeBackoffMs 3 100 500 42 = 542
  /\ computeBackoffMs 3 100 500 42 <= 600.
Proof.
  destruct (X20_computeBackoffMs_custom_base_and_cap 3 100 500 42)
    as (H1 & H2 & _); [lia | lia | reflexivity | | lia |].
  - split; [discriminate | reflexivity].
  - split; [exact H1 | exact H2].
Defined.
